(** * sistema-admin: environment store, reconciliation, credential codec,
      directory copy and batch jobs

    A shallow embedding of the JavaScript sources

    - [utils/database.js]          (the JSON store: environments, profiles,
                                    logins, reconciliation, authentication),
    - [utils/ambiente-manager.js]  (environment detection, directory copy,
                                    [config.env] filtering, credential files,
                                    the structure of a new environment and
                                    the synchronisation of a bank),
    - the admin router             ([POST /login], [POST /validar-token] and
                                    the batch routes with [processarLote]),

    together with the properties of the specification that concern them
    (C1 to C10) and further properties of the same code (X1 to X25).

    Conventions of the embedding.
    - JavaScript strings are [string]s holding the UTF-8 bytes of the text.
    - JavaScript integers (ports, timestamps, counters) are [Z]; this is
      exact below 2^53, which covers every port and clock value.
    - An array is a [list]; [Array.prototype.find]/[findIndex] are
      [list_find]; an in-place update of the element found is [<[i:=x]>].
    - The file system and the clock are inputs: each operation receives the
      outcomes of the calls it makes ([fs.writeFileSync] succeeding or
      throwing, the value of [Date.now()], the directory listing). *)

From Stdlib Require Import ZArith List Ascii String Bool Lia Sorted.
From stdpp Require Import base option list strings pretty relations.

Local Open Scope string_scope.
Local Open Scope Z_scope.
Local Open Scope list_scope.

Set Warnings "-register-all".

(* ===================================================================== *)
(** ** SHA-256, as computed by [crypto.createHash('sha256')]             *)
(* ===================================================================== *)

Module Sha256.
Definition w32 (x : Z) : Z := x mod 2 ^ 32.
Definition add32 (x y : Z) : Z := w32 (x + y).
Definition rotr (n x : Z) : Z :=
  Z.lor (Z.shiftr x n) (w32 (Z.shiftl x (32 - n))).
Definition not32 (x : Z) : Z := 2 ^ 32 - 1 - x.

Definition Ch (x y z : Z) : Z := Z.lxor (Z.land x y) (Z.land (not32 x) z).
Definition Maj (x y z : Z) : Z :=
  Z.lxor (Z.lxor (Z.land x y) (Z.land x z)) (Z.land y z).
Definition Sigma0 (x : Z) : Z :=
  Z.lxor (Z.lxor (rotr 2 x) (rotr 13 x)) (rotr 22 x).
Definition Sigma1 (x : Z) : Z :=
  Z.lxor (Z.lxor (rotr 6 x) (rotr 11 x)) (rotr 25 x).
Definition sigma0 (x : Z) : Z :=
  Z.lxor (Z.lxor (rotr 7 x) (rotr 18 x)) (Z.shiftr x 3).
Definition sigma1 (x : Z) : Z :=
  Z.lxor (Z.lxor (rotr 17 x) (rotr 19 x)) (Z.shiftr x 10).

(** The round constants are the first thirty-two bits of the fractional
    parts of the cube roots of the first sixty-four primes, and the initial
    hash value those of the square roots of the first eight.
    [raiz k n lo hi x] is the integer [k]-th root of [x] between [lo] and
    [hi], by bisection. *)
Fixpoint raiz (k : Z) (n : nat) (lo hi x : Z) : Z :=
  match n with
  | O => lo
  | S n =>
      let meio := (lo + hi) / 2 in
      if meio ^ k <=? x then raiz k n meio hi x else raiz k n lo meio x
  end.

Definition fracao32 (k p : Z) : Z := w32 (raiz k 40 0 (2 ^ 36) (p * 2 ^ (32 * k))).

Definition primo (p : Z) : bool :=
  forallb (fun d => negb (p mod d =? 0)) (map Z.of_nat (seq 2 (Z.to_nat p - 2))).

Definition primos : list Z :=
  Eval vm_compute in List.filter primo (map Z.of_nat (seq 2 310)).

Definition K : list Z := Eval vm_compute in map (fracao32 3) primos.

(** The message as bytes, then the padding: a [0x80] byte, zeros up to
    56 modulo 64, and the bit length on eight bytes, big endian. *)
Definition bytes_of (s : string) : list Z :=
  map (fun c => Z.of_N (N_of_ascii c)) (list_ascii_of_string s).

Definition be_bytes (n : nat) (x : Z) : list Z :=
  map (fun i => Z.shiftr x (8 * Z.of_nat i) mod 256) (rev (seq 0 n)).

Definition pad (msg : list Z) : list Z :=
  let len := Z.of_nat (length msg) in
  let zeros := Z.to_nat ((55 - len) mod 64) in
  msg ++ 0x80 :: repeat 0 zeros ++ be_bytes 8 (8 * len).

Fixpoint words (fuel : nat) (bs : list Z) : list Z :=
  match fuel, bs with
  | S fuel, b0 :: b1 :: b2 :: b3 :: rest =>
      (((b0 * 256 + b1) * 256 + b2) * 256 + b3) :: words fuel rest
  | _, _ => []
  end.

Fixpoint blocks (fuel : nat) (ws : list Z) : list (list Z) :=
  match fuel, ws with
  | S fuel, _ :: _ => firstn 16 ws :: blocks fuel (skipn 16 ws)
  | _, _ => []
  end.

(** The message schedule, most recent word first. *)
Fixpoint schedule (n : nat) (rev_w : list Z) : list Z :=
  match n with
  | O => rev_w
  | S n =>
      let w i := nth i rev_w 0 in
      schedule n
        (add32 (add32 (sigma1 (w 1%nat)) (w 6%nat))
               (add32 (sigma0 (w 14%nat)) (w 15%nat)) :: rev_w)
  end.

Record regs := Regs { ra : Z; rb : Z; rc : Z; rd : Z;
                      re : Z; rf : Z; rg : Z; rh : Z }.

Definition round (r : regs) (kw : Z * Z) : regs :=
  let t1 := add32 (add32 (add32 (rh r) (Sigma1 (re r)))
                         (add32 (Ch (re r) (rf r) (rg r)) (fst kw)))
                  (snd kw) in
  let t2 := add32 (Sigma0 (ra r)) (Maj (ra r) (rb r) (rc r)) in
  Regs (add32 t1 t2) (ra r) (rb r) (rc r) (add32 (rd r) t1) (re r) (rf r) (rg r).

Definition compress (h : regs) (block : list Z) : regs :=
  let w := rev (schedule 48 (rev block)) in
  let r := fold_left round (combine K w) h in
  Regs (add32 (ra h) (ra r)) (add32 (rb h) (rb r)) (add32 (rc h) (rc r))
       (add32 (rd h) (rd r)) (add32 (re h) (re r)) (add32 (rf h) (rf r))
       (add32 (rg h) (rg r)) (add32 (rh h) (rh r)).

Definition H0 : list Z := Eval vm_compute in map (fracao32 2) (firstn 8 primos).

Definition init : regs :=
  match H0 with
  | [a; b; c; d; e; f; g; h] => Regs a b c d e f g h
  | _ => Regs 0 0 0 0 0 0 0 0
  end.

Definition hex_digit (d : Z) : ascii :=
  ascii_of_N (Z.to_N (if d <? 10 then 48 + d else 87 + d)).

Definition hex_byte (b : Z) : list ascii := [hex_digit (b / 16); hex_digit (b mod 16)].

Definition digest (s : string) : list Z :=
  let p := pad (bytes_of s) in
  let ws := words (length p) p in
  let r := fold_left compress (blocks (length ws) ws) init in
  flat_map (be_bytes 4) [ra r; rb r; rc r; rd r; re r; rf r; rg r; rh r].

Definition hex (s : string) : string :=
  string_of_list_ascii (flat_map hex_byte (digest s)).

End Sha256.

(* ===================================================================== *)
(** ** The parts of the JavaScript string library the sources use        *)
(* ===================================================================== *)

Module Js.

(** A string is truthy when it is not empty. *)
Definition truthy (s : string) : bool := negb (String.eqb s EmptyString).

(** [s.startsWith(p)]. *)
Fixpoint startsWith (s p : string) {struct p} : bool :=
  match p with
  | EmptyString => true
  | String a p' =>
      match s with
      | String b s' => Ascii.eqb b a && startsWith s' p'
      | EmptyString => false
      end
  end.

(** [s.endsWith(p)]. *)
Definition endsWith (s p : string) : bool :=
  startsWith (String.rev s) (String.rev p).

(** [toLowerCase] on the letters A-Z; bytes above 127 (the UTF-8 encoding of
    a character outside ASCII) are left alone. *)
Definition lower (c : ascii) : ascii :=
  let n := N_of_ascii c in
  if ((65 <=? n) && (n <=? 90))%N then ascii_of_N (n + 32) else c.

Fixpoint toLowerCase (s : string) : string :=
  match s with
  | EmptyString => EmptyString
  | String c r => String (lower c) (toLowerCase r)
  end.

(** The white space of [String.prototype.trim]: U+0009 to U+000D and
    U+0020, then in UTF-8 U+00A0 (two bytes) and U+1680, U+2000 to U+200A,
    U+2028, U+2029, U+202F, U+205F, U+3000 and U+FEFF (three bytes). *)
Definition ws1 (c : ascii) : bool :=
  let n := N_of_ascii c in
  (((9 <=? n) && (n <=? 13)) || (n =? 32))%N.

Definition ws2 (c1 c2 : ascii) : bool :=
  ((N_of_ascii c1 =? 0xC2) && (N_of_ascii c2 =? 0xA0))%N.

Definition ws3 (c1 c2 c3 : ascii) : bool :=
  let a := N_of_ascii c1 in
  let b := N_of_ascii c2 in
  let c := N_of_ascii c3 in
  (((a =? 0xE1) && (b =? 0x9A) && (c =? 0x80))
   || ((a =? 0xE2) && (b =? 0x80)
       && (((0x80 <=? c) && (c <=? 0x8A)) || (c =? 0xA8) || (c =? 0xA9) || (c =? 0xAF)))
   || ((a =? 0xE2) && (b =? 0x81) && (c =? 0x9F))
   || ((a =? 0xE3) && (b =? 0x80) && (c =? 0x80))
   || ((a =? 0xEF) && (b =? 0xBB) && (c =? 0xBF)))%N.

Fixpoint trimStart (s : string) : string :=
  match s with
  | String c1 r1 =>
      if ws1 c1 then trimStart r1 else
      match r1 with
      | String c2 r2 =>
          if ws2 c1 c2 then trimStart r2 else
          match r2 with
          | String c3 r3 => if ws3 c1 c2 c3 then trimStart r3 else s
          | EmptyString => s
          end
      | EmptyString => s
      end
  | EmptyString => EmptyString
  end.

(** The same scan on the reversed string, where the bytes of a character
    come last byte first. *)
Fixpoint trimStartRev (s : string) : string :=
  match s with
  | String c1 r1 =>
      if ws1 c1 then trimStartRev r1 else
      match r1 with
      | String c2 r2 =>
          if ws2 c2 c1 then trimStartRev r2 else
          match r2 with
          | String c3 r3 => if ws3 c3 c2 c1 then trimStartRev r3 else s
          | EmptyString => s
          end
      | EmptyString => s
      end
  | EmptyString => EmptyString
  end.

Definition trimEnd (s : string) : string := String.rev (trimStartRev (String.rev s)).

Definition trim (s : string) : string := trimEnd (trimStart s).

(** [s.split(sep)] for a one-character separator: never the empty array. *)
Fixpoint split (sep : ascii) (s : string) : list string :=
  match s with
  | EmptyString => [EmptyString]
  | String c r =>
      if Ascii.eqb c sep then EmptyString :: split sep r
      else match split sep r with
           | x :: xs => String c x :: xs
           | [] => [String c EmptyString]
           end
  end.

(** [arr.join(sep)]. *)
Fixpoint join (sep : string) (l : list string) : string :=
  match l with
  | [] => EmptyString
  | [x] => x
  | x :: xs => x +:+ sep +:+ join sep xs
  end.

Definition nl : ascii := "010"%char.
Definition NL : string := String nl EmptyString.

(** [s.includes(c)] for a character. *)
Fixpoint includes (s : string) (c : ascii) : bool :=
  match s with
  | EmptyString => false
  | String x r => Ascii.eqb x c || includes r c
  end.

(** The double quote character, as a string. *)
Definition aspas : string := String (ascii_of_N 34) EmptyString.

(** [String(n)] and the interpolation of an integer in a template. *)
Definition numero (n : Z) : string := pretty n.

End Js.

(* ===================================================================== *)
(** ** [utils/database.js]: the store                                    *)
(* ===================================================================== *)

(** An environment record of [db.ambientes]. [pipelineKentro] is [None]
    for [null] and for a record without the field; the two dates are the
    clock readings they were taken from. *)
Module Ambiente.
Record t := mk {
  id : string;
  nome : string;
  porta : Z;
  path : string;
  username : string;
  passwordHash : string;
  bancosPermitidos : list string;
  pipelineKentro : option string;
  criadoEm : Z;
  atualizadoEm : Z;
  ativo : bool
}.
Definition set_nome (v : string) (a : t) : t :=
  mk (id a) v (porta a) (path a) (username a) (passwordHash a)
     (bancosPermitidos a) (pipelineKentro a) (criadoEm a) (atualizadoEm a) (ativo a).
Definition set_path (v : string) (a : t) : t :=
  mk (id a) (nome a) (porta a) v (username a) (passwordHash a)
     (bancosPermitidos a) (pipelineKentro a) (criadoEm a) (atualizadoEm a) (ativo a).
Definition set_bancosPermitidos (v : list string) (a : t) : t :=
  mk (id a) (nome a) (porta a) (path a) (username a) (passwordHash a)
     v (pipelineKentro a) (criadoEm a) (atualizadoEm a) (ativo a).
Definition set_pipelineKentro (v : option string) (a : t) : t :=
  mk (id a) (nome a) (porta a) (path a) (username a) (passwordHash a)
     (bancosPermitidos a) v (criadoEm a) (atualizadoEm a) (ativo a).
Definition set_atualizadoEm (v : Z) (a : t) : t :=
  mk (id a) (nome a) (porta a) (path a) (username a) (passwordHash a)
     (bancosPermitidos a) (pipelineKentro a) (criadoEm a) v (ativo a).
Definition set_ativo (v : bool) (a : t) : t :=
  mk (id a) (nome a) (porta a) (path a) (username a) (passwordHash a)
     (bancosPermitidos a) (pipelineKentro a) (criadoEm a) (atualizadoEm a) v.
End Ambiente.

(** A profile of [db.perfis]: a named bundle of permission flags. *)
Module Perfil.
Record t := mk {
  id : string;
  nome : string;
  permissoes : list (string * bool);
  criadoEm : Z;
  atualizadoEm : Z;
  ativo : bool
}.
End Perfil.

(** A login of [db.logins]; [perfilId] is [None] for [null]. *)
Module Login.
Record t := mk {
  id : string;
  username : string;
  passwordHash : string;
  ambienteId : string;
  perfilId : option string;
  criadoEm : Z;
  atualizadoEm : Z;
  ativo : bool
}.
End Login.

(** What the environment detector of [ambiente-manager.js] reports for one
    directory. *)
Module Detectado.
Record t := mk {
  nome : string;
  porta : Z;
  path : string;
  pathCompleto : string;
  bancosPermitidos : list string;
  existe : bool;
  temEnv : bool
}.
End Detectado.

(* ===================================================================== *)
(** ** The file system, and the environment detector of
       [utils/ambiente-manager.js]                                       *)
(* ===================================================================== *)

(** A file-system tree: a file with its content, or a directory with its
    entries in the order [fs.readdirSync] lists them. *)
Inductive No :=
| Arquivo (conteudo : string)
| Diretorio (itens : list (string * No)).

Module Fs.

(** The entry of that name, if any. *)
Fixpoint buscar (nome : string) (itens : list (string * No)) : option No :=
  match itens with
  | [] => None
  | (n, x) :: r => if String.eqb n nome then Some x else buscar nome r
  end.

(** [fs.existsSync(path.join(dir, nome))]. *)
Definition existsSync (itens : list (string * No)) (nome : string) : bool :=
  match buscar nome itens with Some _ => true | None => false end.

End Fs.

Module Detector.

Definition BASE_PATH : string := "/opt/lunas-digital".

Definition digito (c : ascii) : option Z :=
  let n := N_of_ascii c in
  if ((48 <=? n) && (n <=? 57))%N then Some (Z.of_N n - 48) else None.

(** The longest run of digits [\d+] at the head of [s], with its value as
    [parseInt] reads it, and what follows; [None] when [s] does not start
    with a digit. *)
Fixpoint digitos (acc : option Z) (s : string) : option Z * string :=
  match s with
  | EmptyString => (acc, s)
  | String c r =>
      match digito c with
      | Some d => digitos (Some (10 * default 0 acc + d)) r
      | None => (acc, s)
      end
  end.

Fixpoint semPrefixo (n : nat) (s : string) : string :=
  match n, s with
  | S n, String _ r => semPrefixo n r
  | _, _ => s
  end.

(** The regular expression [/rota-(\d+)\.producao/] tried at the head of
    [s]: the value of the group. After the longest run of digits the next
    character is not a digit, so no shorter run can be followed by a dot. *)
Definition casaAqui (s : string) : option Z :=
  if Js.startsWith s "rota-" then
    match digitos None (semPrefixo 5 s) with
    | (Some n, resto) => if Js.startsWith resto ".producao" then Some n else None
    | (None, _) => None
    end
  else None.

(** [item.match(/rota-(\d+)\.producao/)] followed by [parseInt(match[1])]:
    the leftmost position where the expression matches. *)
Fixpoint extrairPorta (s : string) : option Z :=
  match casaAqui s with
  | Some n => Some n
  | None =>
      match s with
      | EmptyString => None
      | String _ r => extrairPorta r
      end
  end.

(** The folder names checked under an environment, and the
    [mapeamentoBancos] from folder name to bank id. *)
Definition bancosPossiveis : list string := ["presençabank"; "V8"; "hubcredito"].

Definition mapeamentoBancos (pasta : string) : string :=
  if String.eqb pasta "presençabank" then "presencabank"
  else if String.eqb pasta "V8" then "v8"
  else if String.eqb pasta "hubcredito" then "hubcredito"
  else pasta.

(** The body of the [items.forEach] callback: [estado] is [None] when
    [fs.statSync] throws on the item, which is logged and skips it. *)
Definition detectarItem (item : string) (estado : option No) : option Detectado.t :=
  if Js.startsWith item "rota-" && Js.endsWith item ".producao"
     && negb (String.eqb item "rota-7000.producao")
  then
    match estado with
    | Some (Diretorio filhos) =>
        match extrairPorta item with
        | Some porta =>
            if porta =? 7000 then None
            else
              let bancosPermitidos :=
                map mapeamentoBancos (filter (λ b, Fs.existsSync filhos b = true) bancosPossiveis) in
              Some (Detectado.mk ("Ambiente " +:+ Js.numero porta) porta item
                      (BASE_PATH +:+ "/" +:+ item) bancosPermitidos true
                      (Fs.existsSync filhos ".env"))
        | None => None
        end
    | Some (Arquivo _) => None
    | None => None
    end
  else None.

(** [ambientes.sort((a, b) => a.porta - b.porta)]: a stable sort. *)
Fixpoint inserir (d : Detectado.t) (l : list Detectado.t) : list Detectado.t :=
  match l with
  | [] => [d]
  | x :: r =>
      if Detectado.porta d <=? Detectado.porta x then d :: l else x :: inserir d r
  end.

Definition ordenarPorPorta (l : list Detectado.t) : list Detectado.t :=
  foldr inserir [] l.

(** [detectarAmbientesExistentes]: [base] is the listing of [BASE_PATH],
    [None] when [fs.readdirSync] throws. *)
Definition detectarAmbientesExistentes (base : option (list (string * option No)))
  : list Detectado.t :=
  match base with
  | Some items => ordenarPorPorta (omap (λ it, detectarItem it.1 it.2) items)
  | None => []
  end.

End Detector.

Module Database.

(** The JSON document. Of its fields the operations below read and write
    [perfis], [logins] and [ambientes]; [version], [admin],
    [bancosDisponiveis] and [ultimaSincronizacao] are carried unchanged by
    every one of them and are left out. *)
Record t := mk {
  perfis : list Perfil.t;
  logins : list Login.t;
  ambientes : list Ambiente.t
}.

Definition set_ambientes (v : list Ambiente.t) (db : t) : t :=
  mk (perfis db) (logins db) v.

(** [hashPassword]: the hexadecimal SHA-256 digest of the password. *)
Definition hashPassword (password : string) : string := Sha256.hex password.
Global Arguments hashPassword : simpl never.

Definition verifyPassword (password hash : string) : bool :=
  bool_decide (hashPassword password = hash).

(** [loadDatabase] on a store file that exists and parses: the document.
    (Its migration step gives [perfis] and [logins] the empty array when
    they are missing, which the typed record already has.) *)
Definition loadDatabase (disco : t) : t := disco.

(** [saveDatabase]: [gravou] tells whether [fs.writeFileSync] went through;
    when it throws because the file cannot be opened for writing, the file
    keeps its content and the result is [false]. *)
Definition saveDatabase (gravou : bool) (data disco : t) : t * bool :=
  if gravou then (data, true) else (disco, false).

(** The failures the operations return, one constructor per message. *)
Inductive Erro :=
| PortaEmUso (porta : Z)
| AmbienteJaExiste (nome : string)
| AmbienteNaoEncontrado
| ErroSalvarBanco
| ErroSalvarAposDeletar
| UsuarioNaoEncontrado
| UsuarioInativo
| SenhaIncorreta
| PerfilAssociadoInativo
| AmbienteAssociadoNaoEncontrado
| AmbienteAssociadoInativo.

(** The [error] text of each failure. *)
Definition error (e : Erro) : string :=
  match e with
  | PortaEmUso porta => "Porta " +:+ Js.numero porta +:+ " já está em uso"
  | AmbienteJaExiste nome => "Ambiente " +:+ Js.aspas +:+ nome +:+ Js.aspas +:+ " já existe"
  | AmbienteNaoEncontrado => "Ambiente não encontrado"
  | ErroSalvarBanco => "Erro ao salvar banco de dados"
  | ErroSalvarAposDeletar => "Erro ao salvar banco de dados após deletar ambiente"
  | UsuarioNaoEncontrado => "Usuário não encontrado"
  | UsuarioInativo => "Usuário inativo"
  | SenhaIncorreta => "Senha incorreta"
  | PerfilAssociadoInativo => "Perfil associado está inativo"
  | AmbienteAssociadoNaoEncontrado => "Ambiente associado não encontrado"
  | AmbienteAssociadoInativo => "Ambiente associado está inativo"
  end.

(** The [errorCode] field, for the failures that carry one. *)
Definition errorCode (e : Erro) : option string :=
  match e with
  | ErroSalvarBanco => Some "DB_SAVE_ERROR"
  | UsuarioNaoEncontrado => Some "USER_NOT_FOUND"
  | UsuarioInativo => Some "USER_INACTIVE"
  | SenhaIncorreta => Some "INVALID_PASSWORD"
  | PerfilAssociadoInativo => Some "PERFIL_INACTIVE"
  | AmbienteAssociadoNaoEncontrado => Some "AMBIENTE_NOT_FOUND"
  | AmbienteAssociadoInativo => Some "AMBIENTE_INACTIVE"
  | _ => None
  end.

(** [{ success: true, ... }] or [{ success: false, error, errorCode? }]. *)
Inductive Resultado (A : Type) :=
| Sucesso (a : A)
| Falha (e : Erro).
Global Arguments Sucesso {A} a.
Global Arguments Falha {A} e.

Definition success {A} (r : Resultado A) : bool :=
  match r with Sucesso _ => true | Falha _ => false end.


(** The view of a new environment that [createAmbiente] returns. *)
Record AmbienteCriado := mkCriado {
  c_id : string;
  c_nome : string;
  c_porta : Z;
  c_path : string;
  c_bancosPermitidos : list string
}.

Definition novoAmbiente (agora : Z) (nome : string) (porta : Z)
    (username password : string) (bancosPermitidos : list string) : Ambiente.t :=
  Ambiente.mk ("ambiente-" +:+ Js.numero agora) nome porta
    ("rota-" +:+ Js.numero porta +:+ ".producao") username
    (hashPassword password) bancosPermitidos None agora agora true.

(** [createAmbiente]. The argument [pipelineKentro] is overwritten with
    [null] on entry. The result of [saveDatabase] is not looked at. *)
Definition createAmbiente (gravou : bool) (agora : Z) (nome : string) (porta : Z)
    (username password : string) (bancosPermitidos : list string)
    (pipelineKentro : option string) (disco : t)
  : t * Resultado AmbienteCriado :=
  let pipelineKentro : option string := None in
  let db := loadDatabase disco in
  match list_find (λ a, Ambiente.porta a = porta) (ambientes db) with
  | Some _ => (disco, Falha (PortaEmUso porta))
  | None =>
      match list_find (λ a, Ambiente.nome a = nome) (ambientes db) with
      | Some _ => (disco, Falha (AmbienteJaExiste nome))
      | None =>
          let novo := novoAmbiente agora nome porta username password bancosPermitidos in
          let db := set_ambientes (ambientes db ++ [novo]) db in
          let '(disco, _) := saveDatabase gravou db disco in
          (disco, Sucesso (mkCriado (Ambiente.id novo) (Ambiente.nome novo)
                             (Ambiente.porta novo) (Ambiente.path novo)
                             (Ambiente.bancosPermitidos novo)))
      end
  end.

(** [updateBancosPermitidos]. *)
Definition updateBancosPermitidos (gravou : bool) (agora : Z) (ambienteId : string)
    (bancosPermitidos : list string) (disco : t) : t * Resultado Ambiente.t :=
  let db := loadDatabase disco in
  match list_find (λ a, Ambiente.id a = ambienteId) (ambientes db) with
  | None => (disco, Falha AmbienteNaoEncontrado)
  | Some (i, ambiente) =>
      let ambiente :=
        Ambiente.set_atualizadoEm agora
          (Ambiente.set_bancosPermitidos bancosPermitidos ambiente) in
      let db := set_ambientes (<[i:=ambiente]> (ambientes db)) db in
      let '(disco, saved) := saveDatabase gravou db disco in
      if negb saved then (disco, Falha ErroSalvarBanco)
      else (disco, Sucesso ambiente)
  end.

(** The [dados] of [updateAmbiente]: each field may be absent
    ([undefined]); a pipeline that is present may be [null]. *)
Record DadosAmbiente := mkDados {
  d_nome : option string;
  d_pipelineKentro : option (option string);
  d_ativo : option bool
}.

(** [x || null] on a pipeline reference. *)
Definition ouNull (x : option string) : option string :=
  match x with
  | Some s => if Js.truthy s then Some s else None
  | None => None
  end.

(** [updateAmbiente]. *)
Definition updateAmbiente (gravou : bool) (agora : Z) (ambienteId : string)
    (dados : DadosAmbiente) (disco : t) : t * Resultado Ambiente.t :=
  let db := loadDatabase disco in
  match list_find (λ a, Ambiente.id a = ambienteId) (ambientes db) with
  | None => (disco, Falha AmbienteNaoEncontrado)
  | Some (i, ambiente) =>
      let conflito :=
        match d_nome dados with
        | Some n =>
            list_find (λ a, Ambiente.nome a = n ∧ Ambiente.id a ≠ ambienteId)
                      (ambientes db)
        | None => None
        end in
      match conflito, d_nome dados with
      | Some _, Some n => (disco, Falha (AmbienteJaExiste n))
      | _, _ =>
          let ambiente :=
            match d_nome dados with
            | Some n => Ambiente.set_nome n ambiente
            | None => ambiente
            end in
          let ambiente :=
            match d_pipelineKentro dados with
            | Some p => Ambiente.set_pipelineKentro (ouNull p) ambiente
            | None => ambiente
            end in
          let ambiente :=
            match d_ativo dados with
            | Some b => Ambiente.set_ativo b ambiente
            | None => ambiente
            end in
          let ambiente := Ambiente.set_atualizadoEm agora ambiente in
          let db := set_ambientes (<[i:=ambiente]> (ambientes db)) db in
          let '(disco, _) := saveDatabase gravou db disco in
          (disco, Sucesso ambiente)
      end
  end.

(** The state of the directory of an environment when [deleteAmbiente]
    reaches it: missing, or present, with the message of the exception its
    removal throws, if it throws. *)
Inductive Pasta :=
| PastaAusente
| PastaPresente (excecao : option string).

(** [{ success: true, message, warning? }]. *)
Record Deletado := mkDeletado {
  message : string;
  warning : option string
}.

(** [deleteAmbiente]. [pasta] gives the state of the directory at a path. *)
Definition deleteAmbiente (gravou : bool) (pasta : string → Pasta)
    (ambienteId : string) (disco : t) : t * Resultado Deletado :=
  let db := loadDatabase disco in
  match list_find (λ a, Ambiente.id a = ambienteId) (ambientes db) with
  | None => (disco, Falha AmbienteNaoEncontrado)
  | Some (index, ambiente) =>
      let ambientePath := Ambiente.path ambiente in
      let db := set_ambientes (delete index (ambientes db)) db in
      let '(disco, saved) := saveDatabase gravou db disco in
      if negb saved then (disco, Falha ErroSalvarAposDeletar)
      else
        match pasta ambientePath with
        | PastaPresente None =>
            (disco, Sucesso (mkDeletado "Ambiente e pasta deletados com sucesso" None))
        | PastaAusente =>
            (disco, Sucesso (mkDeletado "Ambiente deletado (pasta não encontrada)" None))
        | PastaPresente (Some erro) =>
            (disco, Sucesso (mkDeletado
               "Ambiente deletado do banco de dados, mas houve erro ao deletar a pasta física"
               (Some erro)))
        end
  end.

(** One entry of the report of [sincronizarAmbientesExistentes]. *)
Record Registro := mkRegistro {
  r_id : string;
  r_nome : string;
  r_porta : Z;
  r_username : option string;
  r_password : option string;
  r_status : option string
}.

Record Resultados := mkResultados {
  criados : list Registro;
  atualizados : list Registro;
  existentes : list Registro
}.

Record Sincronizado := mkSincronizado {
  totalDetectados : nat;
  resultados : Resultados
}.

(** The body of the first [forEach] of [sincronizarAmbientesExistentes],
    on the array [db.ambientes] and the report built so far; [agora] is the
    clock while this item is handled. *)
Definition registrarDetectado (agora : Z) (st : list Ambiente.t * Resultados)
    (ambienteDetectado : Detectado.t) : list Ambiente.t * Resultados :=
  let '(ambientes, res) := st in
  if bool_decide (Detectado.porta ambienteDetectado = 7000) then st
  else
    match list_find (λ a, Ambiente.porta a = Detectado.porta ambienteDetectado) ambientes with
    | Some (i, ambienteExistente) =>
        let mudou :=
          negb (String.eqb (Ambiente.path ambienteExistente) (Detectado.path ambienteDetectado)) in
        let ambienteExistente :=
          Ambiente.set_path (Detectado.path ambienteDetectado) ambienteExistente in
        let ambienteExistente :=
          match Ambiente.bancosPermitidos ambienteExistente with
          | [] => Ambiente.set_bancosPermitidos
                    (Detectado.bancosPermitidos ambienteDetectado) ambienteExistente
          | _ :: _ => ambienteExistente
          end in
        let ambienteExistente := Ambiente.set_atualizadoEm agora ambienteExistente in
        let ambienteExistente := Ambiente.set_ativo true ambienteExistente in
        let registro st :=
          mkRegistro (Ambiente.id ambienteExistente) (Ambiente.nome ambienteExistente)
                     (Ambiente.porta ambienteExistente) None None st in
        (<[i:=ambienteExistente]> ambientes,
         if mudou
         then mkResultados (criados res) (atualizados res ++ [registro None]) (existentes res)
         else mkResultados (criados res) (atualizados res)
                           (existentes res ++ [registro (Some "já registrado")]))
    | None =>
        let porta := Detectado.porta ambienteDetectado in
        let novoAmbiente :=
          Ambiente.mk ("ambiente-" +:+ Js.numero agora +:+ "-" +:+ Js.numero porta)
            (Detectado.nome ambienteDetectado) porta (Detectado.path ambienteDetectado)
            ("admin-" +:+ Js.numero porta)
            (hashPassword ("admin" +:+ Js.numero porta))
            (Detectado.bancosPermitidos ambienteDetectado)
            None agora agora true in
        (ambientes ++ [novoAmbiente],
         mkResultados
           (criados res ++
              [mkRegistro (Ambiente.id novoAmbiente) (Ambiente.nome novoAmbiente) porta
                 (Some (Ambiente.username novoAmbiente))
                 (Some ("admin" +:+ Js.numero porta)) None])
           (atualizados res) (existentes res))
    end.

(** The first [forEach]: [relogio k] is the clock at item [k]. *)
Fixpoint registrarDetectados (relogio : nat → Z) (k : nat) (detectados : list Detectado.t)
    (st : list Ambiente.t * Resultados) : list Ambiente.t * Resultados :=
  match detectados with
  | [] => st
  | d :: ds => registrarDetectados relogio (S k) ds (registrarDetectado (relogio k) st d)
  end.

(** The test of the second [forEach]: no detected directory has the port,
    and the port is not that of [rota-4000]. *)
Definition semPasta (detectados : list Detectado.t) (ambiente : Ambiente.t) : bool :=
  match list_find (λ d, Detectado.porta d = Ambiente.porta ambiente) detectados with
  | Some _ => false
  | None => bool_decide (Ambiente.porta ambiente ≠ 4000)
  end.

Definition marcarInativo (detectados : list Detectado.t) (ambiente : Ambiente.t) : Ambiente.t :=
  if semPasta detectados ambiente then Ambiente.set_ativo false ambiente else ambiente.

Definition registroInativo (ambiente : Ambiente.t) : Registro :=
  mkRegistro (Ambiente.id ambiente) (Ambiente.nome ambiente) (Ambiente.porta ambiente)
    None None (Some "marcado como inativo (pasta não encontrada)").

(** The body of [sincronizarAmbientesExistentes] once the detector has
    answered [ambientesDetectados]. The result of [saveDatabase] is not
    looked at. *)
Definition sincronizarDetectados (gravou : bool) (relogio : nat → Z)
    (ambientesDetectados : list Detectado.t) (disco : t) : t * Sincronizado :=
  let db := loadDatabase disco in
  let '(ambs, res) :=
    registrarDetectados relogio 0 ambientesDetectados
      (ambientes db, mkResultados [] [] []) in
  let res :=
    mkResultados (criados res) (atualizados res)
      (existentes res ++
         map registroInativo (filter (λ a, semPasta ambientesDetectados a = true) ambs)) in
  let ambs := map (marcarInativo ambientesDetectados) ambs in
  let db := set_ambientes ambs db in
  let '(disco, _) := saveDatabase gravou db disco in
  (disco, mkSincronizado (length ambientesDetectados) res).

(** [sincronizarAmbientesExistentes]: [base] is the listing of the base
    directory that [detectarAmbientesExistentes] reads. *)
Definition sincronizarAmbientesExistentes (gravou : bool) (relogio : nat → Z)
    (base : option (list (string * option No))) (disco : t) : t * Sincronizado :=
  sincronizarDetectados gravou relogio (Detector.detectarAmbientesExistentes base) disco.

(** What a successful [authenticateLogin] returns. *)
Record Autenticado := mkAutenticado {
  au_login : Login.t;
  au_perfil : option Perfil.t;
  au_ambiente : Ambiente.t
}.

(** The user name as [authenticateLogin] looks it up: trimmed and in lower
    case, or empty when none is given. *)
Definition usernameNormalizado (username : string) : string :=
  if Js.truthy username then Js.toLowerCase (Js.trim username) else EmptyString.

(** The test of [db.logins.find] in [authenticateLogin]. *)
Definition mesmoUsername (normalizado : string) (l : Login.t) : Prop :=
  Js.truthy (Login.username l) = true ∧ Js.toLowerCase (Login.username l) = normalizado.

Global Instance mesmoUsername_dec normalizado l : Decision (mesmoUsername normalizado l).
Proof. unfold mesmoUsername. apply _. Defined.

(** The profile [authenticateLogin] looks up for a login: none when
    [perfilId] is [null] or empty, or when no profile has that id. *)
Definition perfilDoLogin (login : Login.t) (db : t) : option Perfil.t :=
  match Login.perfilId login with
  | Some pid =>
      if Js.truthy pid
      then snd <$> list_find (λ p, Perfil.id p = pid) (perfis db)
      else None
  | None => None
  end.

(** [authenticateLogin]. *)
Definition authenticateLogin (username password : string) (disco : t)
  : Resultado Autenticado :=
  let db := loadDatabase disco in
  match list_find (mesmoUsername (usernameNormalizado username)) (logins db) with
  | None => Falha UsuarioNaoEncontrado
  | Some (_, login) =>
      if negb (Login.ativo login) then Falha UsuarioInativo
      else if negb (verifyPassword password (Login.passwordHash login))
      then Falha SenhaIncorreta
      else
        let perfil := perfilDoLogin login db in
        if match perfil with Some p => negb (Perfil.ativo p) | None => false end
        then Falha PerfilAssociadoInativo
        else
          match list_find (λ a, Ambiente.id a = Login.ambienteId login) (ambientes db) with
          | None => Falha AmbienteAssociadoNaoEncontrado
          | Some (_, ambiente) =>
              if negb (Ambiente.ativo ambiente) then Falha AmbienteAssociadoInativo
              else Sucesso (mkAutenticado login perfil ambiente)
          end
  end.

(** The operations of the store on [db.ambientes], as requests. *)
Inductive Operacao :=
| OpCreateAmbiente (nome : string) (porta : Z) (username password : string)
    (bancosPermitidos : list string) (pipelineKentro : option string)
| OpUpdateBancosPermitidos (ambienteId : string) (bancosPermitidos : list string)
| OpUpdateAmbiente (ambienteId : string) (dados : DadosAmbiente)
| OpDeleteAmbiente (pasta : string → Pasta) (ambienteId : string)
| OpSincronizar (relogio : nat → Z) (base : option (list (string * option No))).

(** The store after a request. *)
Definition executar (gravou : bool) (agora : Z) (op : Operacao) (disco : t) : t :=
  match op with
  | OpCreateAmbiente nome porta username password bancos pipeline =>
      (createAmbiente gravou agora nome porta username password bancos pipeline disco).1
  | OpUpdateBancosPermitidos ambienteId bancos =>
      (updateBancosPermitidos gravou agora ambienteId bancos disco).1
  | OpUpdateAmbiente ambienteId dados =>
      (updateAmbiente gravou agora ambienteId dados disco).1
  | OpDeleteAmbiente pasta ambienteId =>
      (deleteAmbiente gravou pasta ambienteId disco).1
  | OpSincronizar relogio base =>
      (sincronizarAmbientesExistentes gravou relogio base disco).1
  end.

(** Relations between a record before and after an operation, used to
    state what reconciliation keeps. *)

(** [a'] is [a] with the same id, port, name and pipeline, and the same
    permitted banks unless [a] had none. *)
Definition conserva (a a' : Ambiente.t) : Prop :=
  Ambiente.id a' = Ambiente.id a ∧ Ambiente.porta a' = Ambiente.porta a ∧
  Ambiente.nome a' = Ambiente.nome a ∧
  Ambiente.pipelineKentro a' = Ambiente.pipelineKentro a ∧
  (Ambiente.bancosPermitidos a ≠ [] →
   Ambiente.bancosPermitidos a' = Ambiente.bancosPermitidos a).


(** Every record of [l'] with a pipeline reference descends from a record
    of [l] with the same id and the same reference. *)
Definition herdaPipeline (l l' : list Ambiente.t) : Prop :=
  ∀ a' p, a' ∈ l' → Ambiente.pipelineKentro a' = Some p →
    ∃ a, a ∈ l ∧ Ambiente.id a = Ambiente.id a' ∧ Ambiente.pipelineKentro a = Some p.

End Database.


(* ===================================================================== *)
(** ** [utils/ambiente-manager.js]: credential files                     *)
(* ===================================================================== *)

Module Credenciais.

(** One entry of [mapeamentoCredenciais]. *)
Record Campos := mkCampos {
  c_login : string;
  c_senha : string;
  c_usr : string;
  c_pass : string
}.

(** [mapeamentoCredenciais[bancoId]], for the three ids it lists; an id
    that names an inherited property of a JavaScript object ([constructor],
    [toString], ...) is not modelled. *)
Definition mapeamentoCredenciais (bancoId : string) : option Campos :=
  if String.eqb bancoId "presencabank" then
    Some (mkCampos "PRECENÇABANK_LOGIN" "PRECENÇABANK_SENHA"
                   "PRECENÇABANK_USR" "PRECENÇABANK_PASS")
  else if String.eqb bancoId "v8" then
    Some (mkCampos "V8_USERNAME" "V8_PASSWORD" "V8_USR" "V8_PASS")
  else if String.eqb bancoId "hubcredito" then
    Some (mkCampos "HUBCREDITO_USR" "HUBCREDITO_PASS" "HUBCREDITO_USR" "HUBCREDITO_PASS")
  else None.

(** The [credenciais] object: a field is [None] when it is absent. *)
Record t := mk {
  login : option string;
  senha : option string
}.

(** [a || b] on strings. *)
Definition ou (a b : string) : string := if Js.truthy a then a else b.

(** [campos.login || campos.usr] and [campos.senha || campos.pass]. *)
Definition campoLogin (campos : Campos) : string := ou (c_login campos) (c_usr campos).
Definition campoSenha (campos : Campos) : string := ou (c_senha campos) (c_pass campos).

(** The test of [linhas.findIndex] and of the reader:
    [l.startsWith(campo + '=') || l.startsWith(primario + '=')]. *)
Definition casaCampo (campo primario : string) (l : string) : bool :=
  Js.startsWith l (campo +:+ "=") || Js.startsWith l (primario +:+ "=").

(** The line of a field: [`${campo}=${valor}`]. *)
Definition linhaDoCampo (campo valor : string) : string := campo +:+ "=" +:+ valor.

(** Replace the first line of the field, or append one. *)
Definition gravarCampo (campo primario valor : string) (linhas : list string) : list string :=
  match list_find (λ l, casaCampo campo primario l = true) linhas with
  | Some (index, _) => <[index:=linhaDoCampo campo valor]> linhas
  | None => linhas ++ [linhaDoCampo campo valor]
  end.

(** A field of [credenciais] that is present and truthy. *)
Definition fornecido (v : option string) : option string :=
  match v with
  | Some s => if Js.truthy s then Some s else None
  | None => None
  end.

(** The lines [atualizarCredenciaisBanco] writes back, and whether any
    field was written ([atualizado]). *)
Definition atualizarLinhas (campos : Campos) (credenciais : t) (linhas : list string)
  : list string * bool :=
  let '(linhas, atualizado) :=
    match fornecido (login credenciais) with
    | Some v => (gravarCampo (campoLogin campos) (c_login campos) v linhas, true)
    | None => (linhas, false)
    end in
  match fornecido (senha credenciais) with
  | Some v => (gravarCampo (campoSenha campos) (c_senha campos) v linhas, true)
  | None => (linhas, atualizado)
  end.

(** The text part of [atualizarCredenciaisBanco]: the content of the file
    after the update, [None] when [credenciais] supplies no field. *)
Definition escrever (campos : Campos) (credenciais : t) (envContent : string)
  : option string :=
  let linhas := Js.split Js.nl envContent in
  let '(linhas, atualizado) := atualizarLinhas campos credenciais linhas in
  if atualizado then Some (Js.join Js.NL linhas) else None.

(** The failures of the two operations, with their [error] text. *)
Inductive Erro :=
| AmbienteNaoEncontrado
| BancoNaoPermitido
| ValidacaoFalhou (erro : string)
| SemMapeamentoCredenciais (bancoId : string)
| NenhumaCredencial
| EnvNaoEncontrado
| SemMapeamento (bancoId : string).

Definition error (e : Erro) : string :=
  match e with
  | AmbienteNaoEncontrado => "Ambiente não encontrado"
  | BancoNaoPermitido => "Banco não permitido para este ambiente"
  | ValidacaoFalhou erro => "Validação de token falhou: " +:+ erro
  | SemMapeamentoCredenciais bancoId =>
      "Banco " +:+ bancoId +:+ " não possui mapeamento de credenciais"
  | NenhumaCredencial => "Nenhuma credencial fornecida"
  | EnvNaoEncontrado => "Arquivo .env não encontrado"
  | SemMapeamento bancoId => "Banco " +:+ bancoId +:+ " não possui mapeamento"
  end.

(** What [validarTokenBanco] answers: it accepts, it rejects with an error,
    or the call throws. *)
Inductive Validacao :=
| TokenValido
| TokenRejeitado (erro : string)
| ValidacaoLancou (mensagem : string).

(** [atualizarCredenciaisBanco]: [ambiente] is what [getAmbiente] finds,
    [validacao] the answer of the validation service, [env] the content of
    the [.env] file of the environment, [None] when there is none. The
    result is the content of the file afterwards, and the failure if any. *)
Definition atualizarCredenciaisBanco (ambiente : option Ambiente.t) (validacao : Validacao)
    (bancoId : string) (credenciais : t) (validarToken : bool) (env : option string)
  : option string * option Erro :=
  match ambiente with
  | None => (env, Some AmbienteNaoEncontrado)
  | Some ambiente =>
      if negb (bool_decide (bancoId ∈ Ambiente.bancosPermitidos ambiente))
      then (env, Some BancoNaoPermitido)
      else
        let rejeitado :=
          if validarToken && bool_decide (is_Some (fornecido (login credenciais)))
             && bool_decide (is_Some (fornecido (senha credenciais)))
          then match validacao with
               | TokenRejeitado erro => Some erro
               | TokenValido | ValidacaoLancou _ => None
               end
          else None in
        match rejeitado with
        | Some erro => (env, Some (ValidacaoFalhou erro))
        | None =>
            let envContent := default EmptyString env in
            match mapeamentoCredenciais bancoId with
            | None => (env, Some (SemMapeamentoCredenciais bancoId))
            | Some campos =>
                match escrever campos credenciais envContent with
                | Some novo => (Some novo, None)
                | None => (env, Some NenhumaCredencial)
                end
            end
        end
  end.

(** [linha.split('=')[1]?.trim() || '']. *)
Definition valorDaLinha (linha : string) : string :=
  match Js.split "="%char linha with
  | _ :: v :: _ => Js.trim v
  | _ => EmptyString
  end.

(** The body of the [linhas.forEach] of [obterCredenciaisBanco]. *)
Definition lerLinha (campos : Campos) (credenciais : t) (linha : string) : t :=
  let credenciais :=
    if casaCampo (campoLogin campos) (c_login campos) linha
    then mk (Some (valorDaLinha linha)) (senha credenciais)
    else credenciais in
  if casaCampo (campoSenha campos) (c_senha campos) linha
  then mk (login credenciais) (Some (valorDaLinha linha))
  else credenciais.

(** The text part of [obterCredenciaisBanco]. *)
Definition ler (campos : Campos) (envContent : string) : t :=
  fold_left (lerLinha campos) (Js.split Js.nl envContent) (mk None None).





(** What the proofs use of an entry of [mapeamentoCredenciais]: the two
    primary keys are not empty, hold no [=] and no line break, and neither
    key followed by [=] starts the other. *)
Definition chavesDistintas (campos : Campos) : bool :=
  let kl := c_login campos in
  let ks := c_senha campos in
  Js.truthy kl && Js.truthy ks
  && negb (Js.includes kl "="%char) && negb (Js.includes ks "="%char)
  && negb (Js.includes kl Js.nl) && negb (Js.includes ks Js.nl)
  && negb (Js.startsWith (kl +:+ "=") (ks +:+ "="))
  && negb (Js.startsWith (ks +:+ "=") (kl +:+ "=")).

End Credenciais.

(* ===================================================================== *)
(** ** [utils/ambiente-manager.js]: copying a directory                  *)
(* ===================================================================== *)

Module Copia.

(** The entries [copiarDiretorio] skips: [node_modules], [logs], [.git] and
    every name that starts with a dot. *)
Definition excluido (item : string) : bool :=
  String.eqb item "node_modules" || String.eqb item "logs" || String.eqb item ".git"
  || Js.startsWith item ".".

(** Writing the entry [nome] of a directory: it is replaced where it
    stands, or listed last when it is new. *)
Fixpoint definir (nome : string) (x : No) (itens : list (string * No)) : list (string * No) :=
  match itens with
  | [] => [(nome, x)]
  | (n, y) :: r => if String.eqb n nome then (n, x) :: r else (n, y) :: definir nome x r
  end.

(** How a call ends: it returns a value, or it throws the error of the
    file-system call that failed. *)
Inductive Saida :=
| Retornou (valor : bool)
| Lancou (codigo : string).

(** One entry of [credenciaisPorBanco]: the prefixes to keep and the
    prefixes to drop. *)
Record Regras := mkRegras {
  manter : list string;
  remover : list string
}.

Definition credenciaisPorBanco (nomePastaBanco : string) : option Regras :=
  if String.eqb nomePastaBanco "presençabank" then
    Some (mkRegras
            ["PRECENÇABANK_"; "PORT="; "NODE_ENV="; "LOG_"; "TESTE_";
             "V8_API_URL="; "V8_AUTH_URL="; "V8_CLIENT_ID="; "V8_AUDIENCE=";
             "KENTRO_"; "#"]
            ["HUBCREDITO_"; "V8_USERNAME="; "V8_PASSWORD="])
  else if String.eqb nomePastaBanco "V8" then
    Some (mkRegras
            ["V8_"; "PORT="; "NODE_ENV="; "LOG_"; "HTTPS_PORT="; "KENTRO_"; "#"]
            ["PRECENÇABANK_"; "HUBCREDITO_"])
  else if String.eqb nomePastaBanco "hubcredito" then
    Some (mkRegras
            ["HUBCREDITO_"; "PORT="; "NODE_ENV="; "LOG_"; "TESTE_";
             "V8_API_URL="; "V8_AUTH_URL="; "V8_CLIENT_ID="; "V8_AUDIENCE=";
             "KENTRO_"; "#"]
            ["PRECENÇABANK_"; "V8_USERNAME="; "V8_PASSWORD="])
  else None.

(** [mapeamentoBancos[bancoId] || bancoId]: from bank id to folder name. *)
Definition nomePastaBanco (bancoId : string) : string :=
  if String.eqb bancoId "presencabank" then "presençabank"
  else if String.eqb bancoId "v8" then "V8"
  else if String.eqb bancoId "hubcredito" then "hubcredito"
  else bancoId.

(** The test on one line of [config.env]: blank lines and comments stay;
    another line stays when it starts with a prefix to keep and with no
    prefix to drop. *)
Definition manterLinha (regras : Regras) (linha : string) : bool :=
  let linhaTrim := Js.trim linha in
  if String.eqb linhaTrim EmptyString || Js.startsWith linhaTrim "#" then true
  else if existsb (Js.startsWith linhaTrim) (manter regras)
       then negb (existsb (Js.startsWith linhaTrim) (remover regras))
       else false.

(** The content of [config.env] after the cleaning. *)
Definition filtrar (regras : Regras) (envContent : string) : string :=
  Js.join Js.NL (List.filter (manterLinha regras) (Js.split Js.nl envContent)).

(** [limparConfigEnvBanco] on the copied tree [bancoPath]: the tree
    afterwards, and the error thrown if reading the file fails. *)
Definition limparConfigEnvBanco (bancoPath : No) (bancoId : string) : No * option string :=
  match bancoPath with
  | Diretorio itens =>
      match Fs.buscar "config" itens with
      | Some (Diretorio config) =>
          match Fs.buscar "config.env" config with
          | Some alvo =>
              match credenciaisPorBanco (nomePastaBanco bancoId) with
              | Some regras =>
                  match alvo with
                  | Arquivo envContent =>
                      (Diretorio
                         (definir "config"
                            (Diretorio
                               (definir "config.env" (Arquivo (filtrar regras envContent))
                                        config))
                            itens),
                       None)
                  | Diretorio _ => (bancoPath, Some "EISDIR")
                  end
              | None => (bancoPath, None)
              end
          | None => (bancoPath, None)
          end
      | Some (Arquivo _) | None => (bancoPath, None)
      end
  | Arquivo _ => (bancoPath, None)
  end.

(** [if (bancoId)]. *)
Definition fornecido (bancoId : option string) : option string :=
  match bancoId with
  | Some b => if Js.truthy b then Some b else None
  | None => None
  end.

(** The [items.forEach] of [copiarDiretorio] on the entries of the source,
    with the tree at the destination path so far; [copiarRec] is the
    recursive call on a sub-directory. It stops at the first call that
    throws. *)
Definition percorrer (copiarRec : No → option No → No * Saida)
  : list (string * No) → No → No * Saida :=
  fix percorrer (items : list (string * No)) (destino : No) {struct items} : No * Saida :=
    match items with
    | [] => (destino, Retornou true)
    | (item, no) :: resto =>
        if excluido item then percorrer resto destino
        else
          match destino with
          | Arquivo _ => (destino, Lancou "ENOTDIR")
          | Diretorio ds =>
              match no with
              | Diretorio _ =>
                  let '(filho, s) := copiarRec no (Fs.buscar item ds) in
                  let destino := Diretorio (definir item filho ds) in
                  match s with
                  | Lancou e => (destino, Lancou e)
                  | Retornou _ => percorrer resto destino
                  end
              | Arquivo conteudo =>
                  match Fs.buscar item ds with
                  | Some (Diretorio _) => (destino, Lancou "EISDIR")
                  | Some (Arquivo _) | None =>
                      percorrer resto (Diretorio (definir item (Arquivo conteudo) ds))
                  end
              end
          end
    end.

(** The body of [copiarDiretorio] for a source that exists. [destino] is
    the tree at the destination path, [None] when nothing is there; the
    result is the tree there afterwards, also when the call throws half
    way. The parent of the destination path is taken to be a directory. *)
Fixpoint copiar (bancoId : option string) (origem : No) (destino : option No)
  {struct origem} : No * Saida :=
  let destino := default (Diretorio []) destino in
  match origem with
  | Arquivo _ => (destino, Lancou "ENOTDIR")
  | Diretorio items =>
      let '(destino, s) := percorrer (copiar bancoId) items destino in
      match s with
      | Lancou e => (destino, Lancou e)
      | Retornou _ =>
          match fornecido bancoId with
          | Some b =>
              match limparConfigEnvBanco destino b with
              | (destino, Some e) => (destino, Lancou e)
              | (destino, None) => (destino, Retornou true)
              end
          | None => (destino, Retornou true)
          end
      end
  end.

(** [copiarDiretorio(origem, destino, bancoId)]: [origem] is the tree at
    the source path, [None] when nothing is there. *)
Definition copiarDiretorio (origem destino : option No) (bancoId : option string)
  : option No * Saida :=
  match origem with
  | None => (destino, Retornou false)
  | Some o => let '(d, s) := copiar bancoId o destino in (Some d, s)
  end.

(** *** Notions used to state what the copy produces *)



(** The node at a path below [n], if any. *)
Fixpoint resolver (caminho : list string) (n : No) : option No :=
  match caminho with
  | [] => Some n
  | nome :: resto =>
      match n with
      | Diretorio itens =>
          match Fs.buscar nome itens with
          | Some x => resolver resto x
          | None => None
          end
      | Arquivo _ => None
      end
  end.

(** The rules of the bank a copy is made for, if it is made for a bank
    that has rules. *)
Definition regrasDe (bancoId : option string) : option Regras :=
  match fornecido bancoId with
  | Some b => credenciaisPorBanco (nomePastaBanco b)
  | None => None
  end.





(** A path that ends in [config/config.env]. *)
Fixpoint terminaEmConfigEnv (caminho : list string) : bool :=
  match caminho with
  | [] => false
  | a :: resto =>
      match resto with
      | [b] => String.eqb a "config" && String.eqb b "config.env"
      | _ => terminaEmConfigEnv resto
      end
  end.

(** The content expected in the copy of a file of content [c] at a path. *)
Definition conteudoEsperado (regras : option Regras) (caminho : list string) (c : string)
  : string :=
  match regras with
  | Some r => if terminaEmConfigEnv caminho then filtrar r c else c
  | None => c
  end.

End Copia.

(* ===================================================================== *)
(** ** [utils/ambiente-manager.js]: bringing a bank into an environment  *)
(* ===================================================================== *)

Module Sincronia.

Import Copia.

(** The failures of [sincronizarBanco]: [Ambiente não encontrado],
    [Banco não permitido para este ambiente], the folder of the bank
    missing from the test environment, and a copy that threw, with the
    code of its error. *)
Inductive Erro :=
| AmbienteNaoEncontrado
| BancoNaoPermitido
| BancoNaoEncontrado (bancoId pasta : string)
| ErroAoCopiar (bancoId codigo : string).

(** [sincronizarBanco]: [ambiente] is what [getAmbiente] finds, [origem]
    the tree at the folder of the bank in the test environment and
    [destino] the tree at its folder in the environment, [None] where
    nothing is there. The result is the tree at the destination afterwards,
    and the failure if any. *)
Definition sincronizarBanco (ambiente : option Ambiente.t) (bancoId : string)
    (origem destino : option No) : option No * option Erro :=
  match ambiente with
  | None => (destino, Some AmbienteNaoEncontrado)
  | Some ambiente =>
      if negb (bool_decide (bancoId ∈ Ambiente.bancosPermitidos ambiente))
      then (destino, Some BancoNaoPermitido)
      else
        match origem with
        | None => (destino, Some (BancoNaoEncontrado bancoId (nomePastaBanco bancoId)))
        | Some _ =>
            match copiarDiretorio origem destino (Some bancoId) with
            | (destino, Retornou _) => (destino, None)
            | (destino, Lancou e) => (destino, Some (ErroAoCopiar bancoId e))
            end
        end
  end.

(** *** [criarEstruturaAmbiente] *)

(** The first content of the [.env] of an environment. *)
Definition envInicial (porta : Z) : string :=
  "# Configuração do Ambiente " +:+ Js.numero porta +:+ Js.NL
  +:+ "PORT=" +:+ Js.numero porta +:+ Js.NL +:+ Js.NL.

(** One of the two [forEach] of [criarEstruturaAmbiente], on the folders
    to bring, each with the [bancoId] handed to [copiarDiretorio]: a folder
    is copied when the test environment has it and the environment does
    not. [teste] and [ds] are the entries of the two directories; the loop
    stops at the first copy that throws. *)
Fixpoint copiarPastas (teste : list (string * No)) (pastas : list (string * option string))
    (ds : list (string * No)) : list (string * No) * Saida :=
  match pastas with
  | [] => (ds, Retornou true)
  | (pasta, bancoId) :: resto =>
      match Fs.buscar pasta teste, Fs.buscar pasta ds with
      | Some origem, None =>
          let '(destino, s) := copiar bancoId origem None in
          let ds := definir pasta destino ds in
          match s with
          | Lancou e => (ds, Lancou e)
          | Retornou _ => copiarPastas teste resto ds
          end
      | _, _ => copiarPastas teste resto ds
      end
  end.

Definition compartilhados : list string := ["shared"; "cache-centralizado"].

(** [criarEstruturaAmbiente(porta, bancosPermitidos)]: [teste] holds the
    entries of the test environment (none when it is missing) and
    [ambiente] is the tree at the path of the environment, [None] when
    nothing is there. The result is the tree there afterwards, and how the
    call ends. The folder names are taken to name entries of the two
    directories: a bank id that holds a slash is outside the model. *)
Definition criarEstruturaAmbiente (porta : Z) (bancosPermitidos : list string)
    (teste : list (string * No)) (ambiente : option No) : No * Saida :=
  match default (Diretorio []) ambiente with
  | Arquivo c => (Arquivo c, Lancou "ENOTDIR")
  | Diretorio ds =>
      let ds :=
        if Fs.existsSync ds ".env" then ds
        else definir ".env" (Arquivo (envInicial porta)) ds in
      let '(ds, s) :=
        copiarPastas teste (map (λ bancoId, (nomePastaBanco bancoId, Some bancoId))
                                bancosPermitidos) ds in
      match s with
      | Lancou e => (Diretorio ds, Lancou e)
      | Retornou _ =>
          let '(ds, s) := copiarPastas teste (map (λ item, (item, None)) compartilhados) ds in
          match s with
          | Lancou e => (Diretorio ds, Lancou e)
          | Retornou _ => (Diretorio ds, Retornou true)
          end
      end
  end.

End Sincronia.

(* ===================================================================== *)
(** ** The batch jobs of the admin router ([processarLote])              *)
(* ===================================================================== *)

Module Lote.

Definition LIMITE_SIMULTANEOS : nat := 10.

(** One record of [dados]. A field is [None] when it is not a string, so
    that calling [replace] on it throws. *)
Record Item := mkItem {
  cpf : option string;
  telefone : option string;
  dataNascimento : string
}.

Record Progresso := mkProgresso {
  total : Z;
  processados : Z;
  sucesso : Z;
  erro : Z
}.

(** The [status] of a job: ['processando'] or ['concluido']. *)
Inductive Status := Processando | Concluido.

(** What one bank answers for a record: [{ success, data, error }]. *)
Record RespostaBanco := mkRespostaBanco {
  rb_success : bool;
  rb_data : string;
  rb_error : string
}.

(** What [simularMultiplosBancos] gives for a record: the answers by bank,
    or an exception with its message. *)
Inductive Resposta :=
| Respondeu (resultados : list (string * RespostaBanco))
| Falhou (mensagem : string).

(** One entry of [lote.resultados]. *)
Record Resultado := mkResultado {
  r_cpf : string;
  r_sucesso : bool;
  r_resultados : option (list (string * (bool * option string * option string)));
  r_erro : option string
}.

(** The job object of the [lotesProcessamento] map. Its fields [id],
    [porta], [ambienteId] and the dates play no part in the counting. *)
Record t := mk {
  dados : list Item;
  bancos : list string;
  status : Status;
  progresso : Progresso;
  resultados : list Resultado
}.

(** The job the route [POST /clt/lote] creates. *)
Definition criarLote (dados : list Item) (bancos : list string) : t :=
  mk dados bancos Processando (mkProgresso (Z.of_nat (length dados)) 0 0 0) [].

(** [s.replace(/\D/g, '')]: the digits of [s]. *)
Fixpoint soDigitos (s : string) : string :=
  match s with
  | EmptyString => EmptyString
  | String c r =>
      if ((48 <=? N_of_ascii c) && (N_of_ascii c <=? 57))%N
      then String c (soDigitos r) else soDigitos r
  end.

Definition contar (temSucesso : bool) (p : Progresso) : Progresso :=
  if temSucesso
  then mkProgresso (total p) (processados p + 1) (sucesso p + 1) (erro p)
  else mkProgresso (total p) (processados p + 1) (sucesso p) (erro p + 1).

(** Whether the promise of a task is fulfilled or rejected. *)
Inductive Promessa := Cumprida | Rejeitada.

(** The callback of [loteAtual.map] for one record, once the lookup has
    answered: the job afterwards and the state of the promise.
    - When [cpf] is not a string the [try] block throws before the lookup,
      the [catch] block counts the record as an error and then throws
      itself on [item.cpf.replace], so the promise is rejected.
    - When [telefone] is not a string, or when the lookup throws, the
      [catch] block counts the record as an error and records it.
    - Otherwise the record counts as a success when a bank succeeded. *)
Definition tarefa (item : Item) (resposta : Resposta) (lote : t) : t * Promessa :=
  let falha (c : string) (mensagem : string) :=
    mk (dados lote) (bancos lote) (status lote) (contar false (progresso lote))
       (resultados lote ++ [mkResultado (soDigitos c) false None (Some mensagem)]) in
  match cpf item with
  | None =>
      (mk (dados lote) (bancos lote) (status lote) (contar false (progresso lote))
          (resultados lote), Rejeitada)
  | Some c =>
      match telefone item with
      | None => (falha c "Cannot read properties of undefined (reading 'replace')", Cumprida)
      | Some _ =>
          match resposta with
          | Falhou mensagem => (falha c mensagem, Cumprida)
          | Respondeu resultados =>
              let resultadosFormatados :=
                map (λ r, (r.1, (rb_success r.2,
                                 if rb_success r.2 then Some (rb_data r.2) else None,
                                 if rb_success r.2 then None else Some (rb_error r.2))))
                    resultados in
              let temSucesso := existsb (λ r, r.2.1.1) resultadosFormatados in
              (mk (dados lote) (bancos lote) (status lote)
                  (contar temSucesso (progresso lote))
                  (Lote.resultados lote ++
                     [mkResultado (soDigitos c) temSucesso (Some resultadosFormatados)
                        (if temSucesso then None else Some "Todos os bancos falharam")]),
               Cumprida)
          end
      end
  end.

(** A run of [processarLote] in progress: the job, the index [i] of the
    [for] loop, the records of the current wave whose task has not finished,
    and whether [Promise.all] was rejected, which makes [processarLote]
    throw out of its loop. *)
Record Execucao := mkExecucao {
  lote : t;
  i : nat;
  emVoo : list Item;
  rejeitada : bool
}.

Definition inicial (dados : list Item) (bancos : list string) : Execucao :=
  mkExecucao (criarLote dados bancos) 0 [] false.

(** The loop starts the next wave: [lote.dados.slice(i, i + 10)]. *)
Definition despachar (e : Execucao) : Execucao :=
  mkExecucao (lote e) (i e + LIMITE_SIMULTANEOS)
    (take LIMITE_SIMULTANEOS (drop (i e) (dados (lote e)))) false.

(** A task of the wave finishes. *)
Definition terminar (antes : list Item) (item : Item) (depois : list Item)
    (resposta : Resposta) (e : Execucao) : Execucao :=
  let '(l, p) := tarefa item resposta (lote e) in
  mkExecucao l (i e) (antes ++ depois)
    (rejeitada e || match p with Rejeitada => true | Cumprida => false end).

(** The loop is over: the job is marked as done. *)
Definition concluir (e : Execucao) : Execucao :=
  mkExecucao (mk (dados (lote e)) (bancos (lote e)) Concluido (progresso (lote e))
                 (resultados (lote e)))
    (i e) (emVoo e) (rejeitada e).

(** One step of a run. The tasks of a wave finish in any order, each with
    the answer the lookup gives; the next wave starts, and the job is marked
    done, only when every task of the wave is fulfilled. After a rejection
    the tasks in flight still finish and count. *)
Inductive passo : Execucao → Execucao → Prop :=
| passo_despachar e :
    emVoo e = [] → rejeitada e = false → status (lote e) = Processando →
    (i e < length (dados (lote e)))%nat →
    passo e (despachar e)
| passo_terminar e antes item depois resposta :
    emVoo e = antes ++ item :: depois →
    passo e (terminar antes item depois resposta e)
| passo_concluir e :
    emVoo e = [] → rejeitada e = false → status (lote e) = Processando →
    (length (dados (lote e)) ≤ i e)%nat →
    passo e (concluir e).

(** The states a run of [processarLote] on a new job goes through. *)
Definition alcancavel (dados : list Item) (bancos : list string) (e : Execucao) : Prop :=
  rtc passo (inicial dados bancos) e.

(** The run in which the tasks of a wave finish in the order of the
    records, [oraculo] giving the answer of the lookup for each record. *)
Fixpoint executar (passos : nat) (oraculo : Item → Resposta) (e : Execucao) : Execucao :=
  match passos with
  | O => e
  | S passos =>
      match emVoo e with
      | item :: depois => executar passos oraculo (terminar [] item depois (oraculo item) e)
      | [] =>
          if rejeitada e then e
          else match status (lote e) with
               | Concluido => e
               | Processando =>
                   if bool_decide (i e < length (dados (lote e)))%nat
                   then executar passos oraculo (despachar e)
                   else executar passos oraculo (concluir e)
               end
      end
  end.

(** [processarLote] on a new job, run to its end: one step per record,
    one per wave, and the last one. *)
Definition processarLote (oraculo : Item → Resposta) (dados : list Item)
    (bancos : list string) : t :=
  lote (executar (2 * length dados + 2) oraculo (inicial dados bancos)).

(** What holds of every state of a run. *)
Definition invariante (e : Execucao) : Prop :=
  let l := lote e in
  let p := progresso l in
  total p = Z.of_nat (length (dados l)) ∧
  processados p = sucesso p + erro p ∧
  processados p + Z.of_nat (length (emVoo e))
    = Z.of_nat (i e `min` length (dados l)) ∧
  (status l = Concluido → emVoo e = [] ∧ (length (dados l) ≤ i e)%nat).

End Lote.

(* ===================================================================== *)
(** ** Notions used to state what a run of [processarLote] keeps         *)
(* ===================================================================== *)

Module Andamento.

(** The [cpf] a result holds for a record: the digits of the [cpf] of the
    record; [None] for a record whose [cpf] is not a string. *)
Definition cpfDe (item : Lote.Item) : option string :=
  Lote.soDigitos <$> Lote.cpf item.

(** No more than [LIMITE_SIMULTANEOS] tasks are unfinished, and the
    counters are not negative. *)
Definition limites (e : Lote.Execucao) : Prop :=
  (length (Lote.emVoo e) ≤ Lote.LIMITE_SIMULTANEOS)%nat ∧
  0 ≤ Lote.sucesso (Lote.progresso (Lote.lote e)) ∧
  0 ≤ Lote.erro (Lote.progresso (Lote.lote e)).

(** While no promise is rejected, the results and the unfinished tasks
    account for the records dispatched so far, one for one; and a job
    marked as done has seen no rejection. *)
Definition umPorRegistro (e : Lote.Execucao) : Prop :=
  (Lote.status (Lote.lote e) = Lote.Concluido → Lote.rejeitada e = false) ∧
  (Lote.rejeitada e = false →
   (Some ∘ Lote.r_cpf <$> Lote.resultados (Lote.lote e)) ++ (cpfDe <$> Lote.emVoo e)
   ≡ₚ cpfDe <$> take (Lote.i e) (Lote.dados (Lote.lote e))).

End Andamento.

(* ===================================================================== *)
(** ** [utils/database.js]: readers, profiles and logins                 *)
(* ===================================================================== *)

Module Contas.

Definition set_perfis (v : list Perfil.t) (db : Database.t) : Database.t :=
  Database.mk v (Database.logins db) (Database.ambientes db).

Definition set_logins (v : list Login.t) (db : Database.t) : Database.t :=
  Database.mk (Database.perfis db) v (Database.ambientes db).

(** The failures of the functions of this part, one constructor per
    message. *)
Inductive Erro :=
| UsuarioNaoEncontrado
| SenhaIncorreta
| AmbienteNaoEncontrado
| UsuarioIncorreto
| PerfilJaExiste (nome : string)
| PerfilNaoEncontrado
| PerfilNaoEncontradoOuInativo
| UsernameVazio
| LoginJaExiste (username : string)
| ErroSalvarLogin
| LoginNaoEncontrado.

(** The [error] text of each failure. *)
Definition error (e : Erro) : string :=
  match e with
  | UsuarioNaoEncontrado => "Usuário não encontrado"
  | SenhaIncorreta => "Senha incorreta"
  | AmbienteNaoEncontrado => "Ambiente não encontrado"
  | UsuarioIncorreto => "Usuário incorreto"
  | PerfilJaExiste nome => "Perfil " +:+ Js.aspas +:+ nome +:+ Js.aspas +:+ " já existe"
  | PerfilNaoEncontrado => "Perfil não encontrado"
  | PerfilNaoEncontradoOuInativo => "Perfil não encontrado ou inativo"
  | UsernameVazio => "Username não pode ser vazio"
  | LoginJaExiste username =>
      "Login " +:+ Js.aspas +:+ username +:+ Js.aspas +:+ " já existe"
  | ErroSalvarLogin => "Erro ao salvar login no banco de dados"
  | LoginNaoEncontrado => "Login não encontrado"
  end.

(** [{ success: true, ... }] or [{ success: false, error }]. *)
Inductive Retorno (A : Type) :=
| Exito (a : A)
| Fracasso (e : Erro).
Global Arguments Exito {A} a.
Global Arguments Fracasso {A} e.

Definition success {A} (r : Retorno A) : bool :=
  match r with Exito _ => true | Fracasso _ => false end.

(** A check that lets the function go on with [a] or makes it return
    the failure. *)
Global Instance seguir : MBind Retorno := λ A B k r,
  match r with
  | Exito a => k a
  | Fracasso e => Fracasso e
  end.

(** *** Environments: [getAmbiente], [listAmbientes],
        [authenticateAmbiente] *)

Definition getAmbiente (ambienteId : string) (disco : Database.t) : option Ambiente.t :=
  let db := Database.loadDatabase disco in
  snd <$> list_find (λ a, Ambiente.id a = ambienteId) (Database.ambientes db).

(** One entry of [listAmbientes]: the record without [username] and
    [passwordHash]. *)
Record AmbienteListado := mkListado {
  l_id : string;
  l_nome : string;
  l_porta : Z;
  l_path : string;
  l_bancosPermitidos : list string;
  l_pipelineKentro : option string;
  l_ativo : bool;
  l_criadoEm : Z;
  l_atualizadoEm : Z
}.

Definition listAmbientes (disco : Database.t) : list AmbienteListado :=
  let db := Database.loadDatabase disco in
  map (λ a, mkListado (Ambiente.id a) (Ambiente.nome a) (Ambiente.porta a) (Ambiente.path a)
              (Ambiente.bancosPermitidos a) (Database.ouNull (Ambiente.pipelineKentro a))
              (Ambiente.ativo a) (Ambiente.criadoEm a) (Ambiente.atualizadoEm a))
      (Database.ambientes db).

(** What a successful [authenticateAmbiente] returns. *)
Record AmbienteAutenticado := mkAmbienteAutenticado {
  aa_id : string;
  aa_nome : string;
  aa_porta : Z;
  aa_bancosPermitidos : list string
}.

Definition authenticateAmbiente (ambienteId username password : string) (disco : Database.t)
  : Retorno AmbienteAutenticado :=
  match getAmbiente ambienteId disco with
  | None => Fracasso AmbienteNaoEncontrado
  | Some ambiente =>
      if negb (String.eqb (Ambiente.username ambiente) username)
      then Fracasso UsuarioIncorreto
      else if negb (Database.verifyPassword password (Ambiente.passwordHash ambiente))
      then Fracasso SenhaIncorreta
      else Exito (mkAmbienteAutenticado (Ambiente.id ambiente) (Ambiente.nome ambiente)
                    (Ambiente.porta ambiente) (Ambiente.bancosPermitidos ambiente))
  end.

(** *** The administrators: [authenticateAdmin] *)

(** A user of [db.admin.usuarios]. *)
Record Usuario := mkUsuario {
  u_id : string;
  u_username : string;
  u_passwordHash : string;
  u_role : string;
  u_criadoEm : Z
}.

(** The users of [DB_SCHEMA], the document of a store that has no file. *)
Definition usuariosIniciais (agora : Z) : list Usuario :=
  [mkUsuario "admin-1" "admin" (Database.hashPassword "admin123") "admin" agora].

Record UsuarioAutenticado := mkUsuarioAutenticado {
  ua_id : string;
  ua_username : string;
  ua_role : string
}.

(** [authenticateAdmin], on the array [db.admin.usuarios]. *)
Definition authenticateAdmin (usuarios : list Usuario) (username password : string)
  : Retorno UsuarioAutenticado :=
  match list_find (λ u, u_username u = username) usuarios with
  | None => Fracasso UsuarioNaoEncontrado
  | Some (_, usuario) =>
      if negb (Database.verifyPassword password (u_passwordHash usuario))
      then Fracasso SenhaIncorreta
      else Exito (mkUsuarioAutenticado (u_id usuario) (u_username usuario) (u_role usuario))
  end.

(** *** Profiles *)

Definition listPerfis (disco : Database.t) : list Perfil.t :=
  Database.perfis (Database.loadDatabase disco).

Definition getPerfil (perfilId : string) (disco : Database.t) : option Perfil.t :=
  let db := Database.loadDatabase disco in
  snd <$> list_find (λ p, Perfil.id p = perfilId) (Database.perfis db).

(** The permission keys [createPerfil] writes, in the order of the object
    literal. *)
Definition chavesPermissoes : list string :=
  [ "bancos_testarAPIs"; "bancos_gerenciarCredenciais";
    "ambientes_visualizar"; "ambientes_sincronizar"; "ambientes_reiniciar";
    "gerenciarAmbientes"; "gerenciarAmbientes_definirBancos";
    "gerenciarAmbientes_nomearAmbiente";
    "criarPerfis"; "clt_consulta"; "clt_lote" ].

(** [permissoes[chave]] on a permission object, whose values are taken to
    be booleans: [None] when the object has no such key. *)
Fixpoint valor (chave : string) (permissoes : list (string * bool)) : option bool :=
  match permissoes with
  | [] => None
  | (k, v) :: r => if String.eqb k chave then Some v else valor chave r
  end.

(** [permissoes[chave] = v]: the value is replaced where the key stands,
    or the key is listed last when it is new. *)
Fixpoint atribuir (chave : string) (v : bool) (permissoes : list (string * bool))
  : list (string * bool) :=
  match permissoes with
  | [] => [(chave, v)]
  | (k, x) :: r =>
      if String.eqb k chave then (k, v) :: r else (k, x) :: atribuir chave v r
  end.

(** [{ ...a, ...b }]. *)
Definition mesclar (a b : list (string * bool)) : list (string * bool) :=
  fold_left (λ acc p, atribuir p.1 p.2 acc) b a.

Definition novoPerfil (agora : Z) (nome : string) (permissoes : list (string * bool))
  : Perfil.t :=
  Perfil.mk ("perfil-" +:+ Js.numero agora) nome
    (map (λ chave, (chave, default false (valor chave permissoes))) chavesPermissoes)
    agora agora true.

(** [createPerfil]. The result of [saveDatabase] is not looked at. *)
Definition createPerfil (gravou : bool) (agora : Z) (nome : string)
    (permissoes : list (string * bool)) (disco : Database.t)
  : Database.t * Retorno Perfil.t :=
  let db := Database.loadDatabase disco in
  match list_find (λ p, Perfil.nome p = nome) (Database.perfis db) with
  | Some _ => (disco, Fracasso (PerfilJaExiste nome))
  | None =>
      let novo := novoPerfil agora nome permissoes in
      let db := set_perfis (Database.perfis db ++ [novo]) db in
      let '(disco, _) := Database.saveDatabase gravou db disco in
      (disco, Exito novo)
  end.

(** The [dados] of [updatePerfil]: each field may be absent. *)
Record DadosPerfil := mkDadosPerfil {
  dp_nome : option string;
  dp_permissoes : option (list (string * bool));
  dp_ativo : option bool
}.

(** [updatePerfil]. The result of [saveDatabase] is not looked at. *)
Definition updatePerfil (gravou : bool) (agora : Z) (perfilId : string)
    (dados : DadosPerfil) (disco : Database.t) : Database.t * Retorno Perfil.t :=
  let db := Database.loadDatabase disco in
  match list_find (λ p, Perfil.id p = perfilId) (Database.perfis db) with
  | None => (disco, Fracasso PerfilNaoEncontrado)
  | Some (i, perfil) =>
      let r :=
        nome ← match dp_nome dados with
                | Some n =>
                    match list_find (λ p, Perfil.nome p = n ∧ Perfil.id p ≠ perfilId)
                                    (Database.perfis db) with
                    | Some _ => Fracasso (PerfilJaExiste n)
                    | None => Exito n
                    end
                | None => Exito (Perfil.nome perfil)
                end;
        let permissoes :=
          match dp_permissoes dados with
          | Some p => mesclar (Perfil.permissoes perfil) p
          | None => Perfil.permissoes perfil
          end in
        let ativo := default (Perfil.ativo perfil) (dp_ativo dados) in
        Exito (Perfil.mk (Perfil.id perfil) nome permissoes (Perfil.criadoEm perfil)
                 agora ativo) in
      match r with
      | Fracasso e => (disco, Fracasso e)
      | Exito perfil =>
          let db := set_perfis (<[i:=perfil]> (Database.perfis db)) db in
          let '(disco, _) := Database.saveDatabase gravou db disco in
          (disco, Exito perfil)
      end
  end.

(** [deletePerfil]. The result of [saveDatabase] is not looked at. *)
Definition deletePerfil (gravou : bool) (perfilId : string) (disco : Database.t)
  : Database.t * Retorno unit :=
  let db := Database.loadDatabase disco in
  match list_find (λ p, Perfil.id p = perfilId) (Database.perfis db) with
  | None => (disco, Fracasso PerfilNaoEncontrado)
  | Some (index, _) =>
      let db := set_perfis (delete index (Database.perfis db)) db in
      let '(disco, _) := Database.saveDatabase gravou db disco in
      (disco, Exito ())
  end.

(** [authenticatePerfil]: [username] and [password] are not looked at. *)
Definition authenticatePerfil (perfilId username password : string) (disco : Database.t)
  : Retorno Perfil.t :=
  match getPerfil perfilId disco with
  | Some perfil =>
      if negb (Perfil.ativo perfil) then Fracasso PerfilNaoEncontradoOuInativo
      else Exito perfil
  | None => Fracasso PerfilNaoEncontradoOuInativo
  end.

(** *** Logins *)

Definition listLogins (disco : Database.t) : list Login.t :=
  Database.logins (Database.loadDatabase disco).

Definition getLogin (loginId : string) (disco : Database.t) : option Login.t :=
  let db := Database.loadDatabase disco in
  snd <$> list_find (λ l, Login.id l = loginId) (Database.logins db).

(** [username ? username.trim() : '']. *)
Definition aparar (username : string) : string :=
  if Js.truthy username then Js.trim username else EmptyString.

(** The [perfilId] of [createLogin] once normalised: [null] for [null],
    for the empty string and for white space, else the id trimmed. *)
Definition perfilIdNormalizado (perfilId : option string) : option string :=
  match perfilId with
  | Some p =>
      if Js.truthy p
      then if negb (String.eqb (Js.trim p) EmptyString) then Some (Js.trim p) else None
      else None
  | None => None
  end.

Definition novoLogin (agora : Z) (username password ambienteId : string)
    (perfilId : option string) : Login.t :=
  Login.mk ("login-" +:+ Js.numero agora) username (Database.hashPassword password)
    ambienteId perfilId agora agora true.

(** [createLogin]. *)
Definition createLogin (gravou : bool) (agora : Z) (username password ambienteId : string)
    (perfilId : option string) (disco : Database.t) : Database.t * Retorno Login.t :=
  let db := Database.loadDatabase disco in
  let usernameNormalizado := aparar username in
  if negb (Js.truthy usernameNormalizado) then (disco, Fracasso UsernameVazio)
  else
    let perfilIdNormalizado := perfilIdNormalizado perfilId in
    match list_find (Database.mesmoUsername (Js.toLowerCase usernameNormalizado))
                    (Database.logins db) with
    | Some _ => (disco, Fracasso (LoginJaExiste username))
    | None =>
        match list_find (λ a, Ambiente.id a = ambienteId) (Database.ambientes db) with
        | None => (disco, Fracasso AmbienteNaoEncontrado)
        | Some _ =>
            if match perfilIdNormalizado with
               | Some pid =>
                   match list_find (λ p, Perfil.id p = pid) (Database.perfis db) with
                   | None => true
                   | Some _ => false
                   end
               | None => false
               end
            then (disco, Fracasso PerfilNaoEncontrado)
            else
              let novo :=
                novoLogin agora usernameNormalizado password ambienteId perfilIdNormalizado in
              let db := set_logins (Database.logins db ++ [novo]) db in
              let '(disco, saved) := Database.saveDatabase gravou db disco in
              if negb saved then (disco, Fracasso ErroSalvarLogin)
              else (disco, Exito novo)
        end
    end.

(** The [dados] of [updateLogin]: each field may be absent; a [perfilId]
    that is present may be [null]. *)
Record DadosLogin := mkDadosLogin {
  dl_username : option string;
  dl_password : option string;
  dl_ambienteId : option string;
  dl_perfilId : option (option string);
  dl_ativo : option bool
}.

(** The checks of [updateLogin] on the login found, in the order of the
    source, and the login with the fields of [dados] assigned. *)
Definition atualizado (agora : Z) (loginId : string) (dados : DadosLogin)
    (db : Database.t) (login : Login.t) : Retorno Login.t :=
  username ← match dl_username dados with
              | Some u =>
                  let usernameNormalizado := aparar u in
                  if negb (Js.truthy usernameNormalizado) then Fracasso UsernameVazio
                  else
                    match list_find
                            (λ l, Login.id l ≠ loginId ∧
                                  Database.mesmoUsername
                                    (Js.toLowerCase usernameNormalizado) l)
                            (Database.logins db) with
                    | Some _ => Fracasso (LoginJaExiste usernameNormalizado)
                    | None => Exito usernameNormalizado
                    end
              | None => Exito (Login.username login)
              end;
  let passwordHash :=
    match dl_password dados with
    | Some p => Database.hashPassword p
    | None => Login.passwordHash login
    end in
  ambienteId ← match dl_ambienteId dados with
                | Some a =>
                    match list_find (λ x, Ambiente.id x = a) (Database.ambientes db) with
                    | None => Fracasso AmbienteNaoEncontrado
                    | Some _ => Exito a
                    end
                | None => Exito (Login.ambienteId login)
                end;
  perfilId ← match dl_perfilId dados with
              | Some p =>
                  match p with
                  | Some pid =>
                      if Js.truthy pid
                      then match list_find (λ x, Perfil.id x = pid) (Database.perfis db) with
                           | None => Fracasso PerfilNaoEncontrado
                           | Some _ => Exito p
                           end
                      else Exito p
                  | None => Exito p
                  end
              | None => Exito (Login.perfilId login)
              end;
  let ativo := default (Login.ativo login) (dl_ativo dados) in
  Exito (Login.mk (Login.id login) username passwordHash ambienteId perfilId
           (Login.criadoEm login) agora ativo).

(** [updateLogin]. The result of [saveDatabase] is not looked at. *)
Definition updateLogin (gravou : bool) (agora : Z) (loginId : string) (dados : DadosLogin)
    (disco : Database.t) : Database.t * Retorno Login.t :=
  let db := Database.loadDatabase disco in
  match list_find (λ l, Login.id l = loginId) (Database.logins db) with
  | None => (disco, Fracasso LoginNaoEncontrado)
  | Some (i, login) =>
      match atualizado agora loginId dados db login with
      | Fracasso e => (disco, Fracasso e)
      | Exito login =>
          let db := set_logins (<[i:=login]> (Database.logins db)) db in
          let '(disco, _) := Database.saveDatabase gravou db disco in
          (disco, Exito login)
      end
  end.

(** [deleteLogin]. The result of [saveDatabase] is not looked at. *)
Definition deleteLogin (gravou : bool) (loginId : string) (disco : Database.t)
  : Database.t * Retorno unit :=
  let db := Database.loadDatabase disco in
  match list_find (λ l, Login.id l = loginId) (Database.logins db) with
  | None => (disco, Fracasso LoginNaoEncontrado)
  | Some (index, _) =>
      let db := set_logins (delete index (Database.logins db)) db in
      let '(disco, _) := Database.saveDatabase gravou db disco in
      (disco, Exito ())
  end.

(** *** The operations that write the store, as requests *)

Inductive Pedido :=
| PedidoCreateAmbiente (nome : string) (porta : Z) (username password : string)
    (bancosPermitidos : list string) (pipelineKentro : option string)
| PedidoUpdateBancosPermitidos (ambienteId : string) (bancosPermitidos : list string)
| PedidoUpdateAmbiente (ambienteId : string) (dados : Database.DadosAmbiente)
| PedidoDeleteAmbiente (pasta : string → Database.Pasta) (ambienteId : string)
| PedidoSincronizar (relogio : nat → Z) (base : option (list (string * option No)))
| PedidoCreatePerfil (nome : string) (permissoes : list (string * bool))
| PedidoUpdatePerfil (perfilId : string) (dados : DadosPerfil)
| PedidoDeletePerfil (perfilId : string)
| PedidoCreateLogin (username password ambienteId : string) (perfilId : option string)
| PedidoUpdateLogin (loginId : string) (dados : DadosLogin)
| PedidoDeleteLogin (loginId : string).

(** The store after a request, and the [success] field of the answer. *)
Definition atender (gravou : bool) (agora : Z) (pedido : Pedido) (disco : Database.t)
  : Database.t * bool :=
  match pedido with
  | PedidoCreateAmbiente nome porta username password bancos pipeline =>
      let r := Database.createAmbiente gravou agora nome porta username password bancos
                 pipeline disco in
      (r.1, Database.success r.2)
  | PedidoUpdateBancosPermitidos ambienteId bancos =>
      let r := Database.updateBancosPermitidos gravou agora ambienteId bancos disco in
      (r.1, Database.success r.2)
  | PedidoUpdateAmbiente ambienteId dados =>
      let r := Database.updateAmbiente gravou agora ambienteId dados disco in
      (r.1, Database.success r.2)
  | PedidoDeleteAmbiente pasta ambienteId =>
      let r := Database.deleteAmbiente gravou pasta ambienteId disco in
      (r.1, Database.success r.2)
  | PedidoSincronizar relogio base =>
      ((Database.sincronizarAmbientesExistentes gravou relogio base disco).1, true)
  | PedidoCreatePerfil nome permissoes =>
      let r := createPerfil gravou agora nome permissoes disco in (r.1, success r.2)
  | PedidoUpdatePerfil perfilId dados =>
      let r := updatePerfil gravou agora perfilId dados disco in (r.1, success r.2)
  | PedidoDeletePerfil perfilId =>
      let r := deletePerfil gravou perfilId disco in (r.1, success r.2)
  | PedidoCreateLogin username password ambienteId perfilId =>
      let r := createLogin gravou agora username password ambienteId perfilId disco in
      (r.1, success r.2)
  | PedidoUpdateLogin loginId dados =>
      let r := updateLogin gravou agora loginId dados disco in (r.1, success r.2)
  | PedidoDeleteLogin loginId =>
      let r := deleteLogin gravou loginId disco in (r.1, success r.2)
  end.

(** *** Notions used to state what the operations keep *)


End Contas.

(* ===================================================================== *)
(** ** The admin router: [POST /login] and [POST /validar-token]         *)
(* ===================================================================== *)

Module Rotas.

(** *** More of the JavaScript library *)

(** [s.includes(sub)] for a string [sub]. *)
Fixpoint contem (s sub : string) : bool :=
  Js.startsWith s sub
  || match s with
     | EmptyString => false
     | String _ r => contem r sub
     end.

(** [s.replace(padrao, '')] for a string [padrao]: the first occurrence
    of [padrao] is removed. *)
Fixpoint removerPrimeira (padrao s : string) : string :=
  if Js.startsWith s padrao then Detector.semPrefixo (String.length padrao) s
  else match s with
       | EmptyString => EmptyString
       | String c r => String c (removerPrimeira padrao r)
       end.

(** The value of a character as a digit of a base up to 36. *)
Definition digitoBase (base : Z) (c : ascii) : option Z :=
  let n := Z.of_N (N_of_ascii c) in
  let d := if (48 <=? n) && (n <=? 57) then Some (n - 48)
           else if (97 <=? n) && (n <=? 122) then Some (n - 87)
           else if (65 <=? n) && (n <=? 90) then Some (n - 55)
           else None in
  match d with
  | Some v => if v <? base then Some v else None
  | None => None
  end.

(** The value of the longest run of digits at the head of [s]; [acc] is
    the value read so far, [None] before the first digit. *)
Fixpoint lerDigitos (base : Z) (acc : option Z) (s : string) : option Z :=
  match s with
  | EmptyString => acc
  | String c r =>
      match digitoBase base c with
      | Some d => lerDigitos base (Some (base * default 0 acc + d)) r
      | None => acc
      end
  end.

(** [parseInt(s)]: leading white space is skipped, then a sign, then
    [0x] or [0X], which selects base 16; the digits that follow are read
    as far as they go. [None] is [NaN]. The value is the integer read, which
    JavaScript rounds to a double above 2^53. *)
Definition parseInt (s : string) : option Z :=
  let s := Js.trimStart s in
  let '(sinal, s) :=
    match s with
    | String "-" r => (-1, r)
    | String "+" r => (1, r)
    | _ => (1, s)
    end in
  let '(base, s) :=
    if Js.startsWith s "0x" || Js.startsWith s "0X"
    then (16, Detector.semPrefixo 2 s) else (10, s) in
  (λ v, sinal * v) <$> lerDigitos base None s.

(** A field of the request that is present and truthy. *)
Definition presente (v : option string) : bool :=
  match v with
  | Some s => Js.truthy s
  | None => false
  end.

(** *** [POST /login] *)

(** The [login] object of the answer: the login without its hash. *)
Record LoginVisto := mkLoginVisto {
  lv_id : string;
  lv_username : string;
  lv_ambienteId : string;
  lv_perfilId : option string
}.

(** What the route answers: the body of a [200], or the status, the
    [error] and the [errorCode] of a refusal. *)
Inductive RespostaLogin :=
| EntrouAdmin (usuario : Contas.UsuarioAutenticado) (token : string)
| EntrouLogin (login : LoginVisto) (ambiente : Ambiente.t) (perfil : option Perfil.t)
    (token : string)
| Recusou (status : Z) (erro : string) (errorCode : string).

Definition tokenAdmin (agora : Z) : string := "admin-token-" +:+ Js.numero agora.

Definition tokenLogin (loginId : string) (agora : Z) : string :=
  "login-token-" +:+ loginId +:+ "-" +:+ Js.numero agora.

(** The handler of [POST /login]: [username] and [password] are the
    fields of the body, [None] when absent; [usuarios] is
    [db.admin.usuarios]. (The test [!authLogin.ambiente] of the source is
    left out: a successful [authenticateLogin] always carries the
    environment.) *)
Definition postLogin (agora : Z) (usuarios : list Contas.Usuario)
    (username password : option string) (disco : Database.t) : RespostaLogin :=
  match username, password with
  | Some u, Some p =>
      if negb (Js.truthy u) || negb (Js.truthy p)
      then Recusou 400 "Username e password são obrigatórios" "MISSING_CREDENTIALS"
      else
        match Contas.authenticateAdmin usuarios u p with
        | Contas.Exito usuario => EntrouAdmin usuario (tokenAdmin agora)
        | Contas.Fracasso erroAdmin =>
            match Database.authenticateLogin u p disco with
            | Database.Sucesso authLogin =>
                let login := Database.au_login authLogin in
                let ambiente := Database.au_ambiente authLogin in
                let perfil := Database.au_perfil authLogin in
                if negb (Login.ativo login)
                then Recusou 401 "Usuário inativo. Entre em contato com o administrador."
                       "USER_INACTIVE"
                else if negb (Ambiente.ativo ambiente)
                then Recusou 401 "Ambiente associado está inativo" "AMBIENTE_INACTIVE"
                else if presente (Login.perfilId login)
                        && match perfil with Some _ => false | None => true end
                then Recusou 401 "Perfil associado não encontrado ou inativo"
                       "PERFIL_NOT_FOUND"
                else EntrouLogin
                       (mkLoginVisto (Login.id login) (Login.username login)
                          (Login.ambienteId login) (Login.perfilId login))
                       ambiente perfil (tokenLogin (Login.id login) agora)
            | Database.Falha erroLogin =>
                if String.eqb (Contas.error erroAdmin) "Usuário não encontrado"
                   && Js.truthy (Database.error erroLogin)
                then
                  if contem (Database.error erroLogin) "inativo"
                  then Recusou 401 "Usuário inativo. Entre em contato com o administrador."
                         "USER_INACTIVE"
                  else Recusou 401 "Usuário não encontrado" "USER_NOT_FOUND"
                else if Js.truthy (Database.error erroLogin)
                        && contem (Database.error erroLogin) "Senha incorreta"
                then Recusou 401 "Senha incorreta" "INVALID_PASSWORD"
                else Recusou 401 "Usuário ou senha inválidos" "INVALID_CREDENTIALS"
            end
        end
  | _, _ => Recusou 400 "Username e password são obrigatórios" "MISSING_CREDENTIALS"
  end.

(** *** [POST /validar-token] *)

Inductive RespostaToken :=
| TokenAdmin
| TokenLogin (loginId : string) (login : LoginVisto) (ambiente : Ambiente.t)
    (perfil : option Perfil.t) (permissoes : option (list (string * bool)))
| TokenRecusado (status : Z) (erro : string).

Definition umDia : Z := 24 * 60 * 60 * 1000.

(** The token of a request: from the [Authorization] header, with or
    without [Bearer], else from the body, else from the query string. *)
Definition extrairToken (authorization bodyToken queryToken : option string)
  : option string :=
  let token :=
    match authorization with
    | Some authHeader =>
        if Js.truthy authHeader
        then if Js.startsWith authHeader "Bearer "
             then Js.split " "%char authHeader !! 1%nat
             else Some authHeader
        else None
    | None => None
    end in
  let token := if negb (presente token) && presente bodyToken then bodyToken else token in
  if negb (presente token) && presente queryToken then queryToken else token.

(** [isNaN(timestamp) || (agora - timestamp) > umDia]. *)
Definition expirado (agora : Z) (timestamp : option Z) : bool :=
  match timestamp with
  | None => true
  | Some t => umDia <? agora - t
  end.

(** The handler of [POST /validar-token]; [agora] is [Date.now()]. *)
Definition postValidarToken (agora : Z) (authorization bodyToken queryToken : option string)
    (disco : Database.t) : RespostaToken :=
  let token := extrairToken authorization bodyToken queryToken in
  match token with
  | None => TokenRecusado 401 "Token não fornecido"
  | Some token =>
      if negb (Js.truthy token) then TokenRecusado 401 "Token não fornecido"
      else if Js.startsWith token "admin-token-" then
        let timestamp := parseInt (removerPrimeira "admin-token-" token) in
        if expirado agora timestamp then TokenRecusado 401 "Token expirado"
        else TokenAdmin
      else if Js.startsWith token "login-token-" then
        let partes := Js.split "-"%char (removerPrimeira "login-token-" token) in
        if bool_decide (length partes < 2)%nat then TokenRecusado 401 "Token inválido"
        else
          let timestamp := parseInt (List.last partes EmptyString) in
          let loginId := Js.join "-" (removelast partes) in
          if expirado agora timestamp then TokenRecusado 401 "Token expirado"
          else
            match Contas.getLogin loginId disco with
            | None => TokenRecusado 401 "Login não encontrado"
            | Some login =>
                if negb (Login.ativo login) then TokenRecusado 401 "Login inativo"
                else
                  match Contas.getAmbiente (Login.ambienteId login) disco with
                  | None => TokenRecusado 401 "Ambiente inativo"
                  | Some ambiente =>
                      if negb (Ambiente.ativo ambiente)
                      then TokenRecusado 401 "Ambiente inativo"
                      else
                        let perfil :=
                          match Login.perfilId login with
                          | Some pid =>
                              if Js.truthy pid then Contas.getPerfil pid disco else None
                          | None => None
                          end in
                        if presente (Login.perfilId login)
                           && match perfil with
                              | Some p => negb (Perfil.ativo p)
                              | None => true
                              end
                        then TokenRecusado 401 "Perfil inativo"
                        else
                          TokenLogin loginId
                            (mkLoginVisto (Login.id login) (Login.username login)
                               (Login.ambienteId login) (Login.perfilId login))
                            ambiente perfil (Perfil.permissoes <$> perfil)
                  end
            end
      else TokenRecusado 401 "Token inválido"
  end.

End Rotas.
(* ===================================================================== *)
(** ** Sample data                                                       *)
(* ===================================================================== *)

Module Exemplos.

(** The SHA-256 digest of the password [segredo]. *)
Definition hash_segredo : string :=
  "a36cac71d1a44a1593a22d98403455bd2d6f737e465c4cf3fcead29381a08335".

(** An environment [QA] on port 5005 that an operator has deactivated. *)
Definition amb_qa : Ambiente.t :=
  Ambiente.mk "ambiente-1700000000000" "QA" 5005 "rota-5005.producao" "ana"
    hash_segredo ["v8"] None 1700000000000 1700000000000 false.

Definition perfil (ativo : bool) : Perfil.t :=
  Perfil.mk "perfil-1" "Operador" [("clt_consulta", true)] 1700000000000 1700000000000 ativo.

Definition login_ana : Login.t :=
  Login.mk "login-1700000000001" "Ana" hash_segredo "ambiente-1700000000000"
    (Some "perfil-1") 1700000000001 1700000000001 true.

Definition disco_vazio : Database.t := Database.mk [] [] [].

(** A store with the environment, a login bound to it, and the profile of
    the login, active or not. *)
Definition disco_qa (perfilAtivo : bool) : Database.t :=
  Database.mk [perfil perfilAtivo] [login_ana] [amb_qa].

Definition relogio (k : nat) : Z := 1700000100000 + Z.of_nat k.

(** A base directory holding [rota-5005.producao], with the folders of two
    banks, the folder of the administration system, and a file. *)
Definition base : option (list (string * option No)) :=
  Some [ ("rota-5005.producao",
          Some (Diretorio [(".env", Arquivo "PORT=5005");
                           ("hubcredito", Diretorio []);
                           ("presençabank", Diretorio [])]));
         ("rota-7000.producao", Some (Diretorio []));
         ("notas.txt", Some (Arquivo "x")) ].

(** A directory that is there and whose removal throws. *)
Definition pasta_presa (caminho : string) : Database.Pasta :=
  Database.PastaPresente (Some "EACCES: permission denied").

(** The key names of the bank [v8]. *)
Definition campos_v8 : Credenciais.Campos :=
  Credenciais.mkCampos "V8_USERNAME" "V8_PASSWORD" "V8_USR" "V8_PASS".

(** A credential file with a comment, keys of other banks and one line of
    the bank [v8]. *)
Definition env_qa : string :=
  Js.join Js.NL
    [ "# Configuração do Ambiente 5005"; "PORT=5005"; EmptyString;
      "V8_USERNAME=antigo"; "HUBCREDITO_USR=hub"; "V8_USERNAME_BACKUP=x" ].

(** The folder of a bank in the template tree: sources, a credential
    file with the keys of two banks, and entries the copy skips at two
    levels. *)
Definition config_env : string :=
  Js.join Js.NL ["# V8"; "V8_USERNAME=modelo"; "HUBCREDITO_USR=hub"; "PORT=4000"].

Definition itens_v8 : list (string * No) :=
    [ ("index.js", Arquivo "require('./src/app')");
      ("node_modules", Diretorio [("express", Diretorio [("index.js", Arquivo "e")])]);
      (".git", Diretorio [("HEAD", Arquivo "ref")]);
      (".env", Arquivo "SEGREDO=1");
      ("config", Diretorio [("config.env", Arquivo config_env)]);
      ("src", Diretorio [ ("app.js", Arquivo "app");
                          ("logs", Diretorio [("hoje.log", Arquivo "l")]);
                          (".cache", Arquivo "c");
                          ("rotas", Diretorio [("clt.js", Arquivo "clt")]) ]);
      ("logs", Diretorio [("app.log", Arquivo "x")]) ].

Definition pasta_v8 : No := Diretorio itens_v8.

(** Twenty-five records for a batch: record [k] has the cpf [k]; the
    lookup finds a bank for the even ones, fails on the multiples of
    five, and no bank succeeds for the others. *)
Definition registro (k : nat) : Lote.Item :=
  Lote.mkItem (Some (Js.numero (Z.of_nat k))) (Some "11 99999-0000") "1990-01-01".

Definition dados25 : list Lote.Item := map registro (seq 0 25).

Definition oraculo (item : Lote.Item) : Lote.Resposta :=
  match Lote.cpf item with
  | Some c =>
      if Js.endsWith c "0" || Js.endsWith c "5" then Lote.Falhou "timeout"
      else if Js.endsWith c "2" || Js.endsWith c "4" || Js.endsWith c "6" || Js.endsWith c "8"
      then Lote.Respondeu [("v8", Lote.mkRespostaBanco true "ok" EmptyString)]
      else Lote.Respondeu [("v8", Lote.mkRespostaBanco false EmptyString "recusado")]
  | None => Lote.Falhou "sem cpf"
  end.

End Exemplos.

(* ===================================================================== *)
(** ** More sample data                                                  *)
(* ===================================================================== *)

Module Casos.

(** An active environment [Loja] on port 5010, owned by [dono] with the
    password [segredo]. *)
Definition amb_loja : Ambiente.t :=
  Ambiente.mk "ambiente-1700000000500" "Loja" 5010 "rota-5010.producao" "dono"
    Exemplos.hash_segredo ["v8"; "hubcredito"] None 1700000000500 1700000000500 true.

(** An inactive profile. *)
Definition perfil_visita : Perfil.t :=
  Perfil.mk "perfil-2" "Visita" [("clt_consulta", true); ("clt_lote", false)]
    1700000000600 1700000000600 false.

(** Two logins of [Loja] with the password [segredo]: [Rui] with the
    inactive profile, [Lia] with the active one. *)
Definition login_rui : Login.t :=
  Login.mk "login-1700000000700" "Rui" Exemplos.hash_segredo "ambiente-1700000000500"
    (Some "perfil-2") 1700000000700 1700000000700 true.

Definition login_lia : Login.t :=
  Login.mk "login-1700000000800" "Lia" Exemplos.hash_segredo "ambiente-1700000000500"
    (Some "perfil-1") 1700000000800 1700000000800 true.

(** A store with two environments, two profiles and three logins. *)
Definition disco : Database.t :=
  Database.mk [Exemplos.perfil true; perfil_visita]
    [Exemplos.login_ana; login_rui; login_lia]
    [Exemplos.amb_qa; amb_loja].

(** The folder of the bank [v8] in an environment, as an earlier copy and
    later edits left it: a file the template does not have, a source file
    of an older version, and a credential file with a key of another
    bank. *)
Definition pasta_v8_antiga : No :=
  Diretorio
    [ ("ajustes.json", Arquivo "{}");
      ("config",
       Diretorio [("config.env",
                   Arquivo (Js.join Js.NL ["V8_USERNAME=loja"; "HUBCREDITO_USR=hub"]))]);
      ("src", Diretorio [("app.js", Arquivo "app antigo"); ("local.js", Arquivo "l")]) ].

(** The entries of a test environment: the folder of the bank [v8], a
    shared folder, and its own [.env]. *)
Definition teste : list (string * No) :=
  [ ("V8", Exemplos.pasta_v8);
    ("shared", Diretorio [("util.js", Arquivo "u"); ("logs", Diretorio [])]);
    (".env", Arquivo "PORT=4000") ].

End Casos.

(* ===================================================================== *)
(** * Properties                                                         *)
(* ===================================================================== *)

(** ** SHA-256 on known digests *)

Example sha256_empty :
  Sha256.hex EmptyString = "e3b0c44298fc1c149afbf4c8996fb92427ae41e4649b934ca495991b7852b855".
Proof. vm_compute. reflexivity. Qed.

Example sha256_abc :
  Sha256.hex "abc" = "ba7816bf8f01cfea414140de5dae2223b00361a396177a9cb410ff61f20015ad".
Proof. vm_compute. reflexivity. Qed.

Example sha256_two_blocks :
  Sha256.hex (string_of_list_ascii (repeat "a"%char 70)) =
  "6bd5e5034855a11241f0dee8fc72850ffd9955b28347a86428b5fa19119f6ad0".
Proof. vm_compute. reflexivity. Qed.

Example sha256_segredo : Database.hashPassword "segredo" = Exemplos.hash_segredo.
Proof. vm_compute. reflexivity. Qed.

(** ** The detector *)

Example extrairPorta_exemplos :
  Detector.extrairPorta "rota-5005.producao" = Some 5005 ∧
  Detector.extrairPorta "rota-x-rota-07000.producao" = Some 7000 ∧
  Detector.extrairPorta "rota-.producao" = None.
Proof. repeat split. Qed.

(* ===================================================================== *)
(** ** The store                                                         *)
(* ===================================================================== *)

Section Store.
Import Database.
Import Database.

(** *** The ports of a list of records under an update in place *)



Lemma saveDatabase_ambientes gravou data disco :
  ambientes (saveDatabase gravou data disco).1 =
  if gravou then ambientes data else ambientes disco.
Proof. by destruct gravou. Qed.

(** *** [createAmbiente] *)




Lemma list_find_dec {A} (P : A → Prop) `{∀ x, Decision (P x)} (l : list A) :
  (∃ x, x ∈ l ∧ P x) ∨ list_find P l = None.
Proof.
  destruct (list_find P l) as [[i x]|] eqn:E; [left|by right].
  apply list_find_Some in E as (Hi & HP & _).
  exists x. split; [by eapply list_elem_of_lookup_2|done].
Qed.

Lemma list_find_is_Some {A} (P : A → Prop) `{∀ x, Decision (P x)} (l : list A) x :
  x ∈ l → P x → is_Some (list_find P l).
Proof. intros. by eapply list_find_elem_of. Qed.

(** *** Reconciliation: what happens to the records already in the store *)

Lemma conserva_refl a : conserva a a.
Proof. by repeat split. Qed.

Lemma conserva_trans a b c : conserva a b → conserva b c → conserva a c.
Proof.
  intros (?&?&?&?&Hb1) (?&?&?&?&Hb2). repeat split; try congruence.
  intros Hne. rewrite Hb2; [by apply Hb1|]. by rewrite Hb1.
Qed.

Lemma registrarDetectado_conserva agora l res d i a :
  l !! i = Some a →
  ∃ a', (registrarDetectado agora (l, res) d).1 !! i = Some a' ∧ conserva a a'.
Proof.
  intros Hi. unfold registrarDetectado.
  case_bool_decide; [by eauto using conserva_refl|].
  destruct (list_find _ l) as [[j x]|] eqn:E.
  - apply list_find_Some in E as (Hj & _ & _). simpl.
    destruct (decide (j = i)) as [->|Hne].
    + assert (x = a) as -> by congruence.
      eexists. split.
      * apply list_lookup_insert_eq. by eapply lookup_lt_Some.
      * unfold conserva.
        destruct (Ambiente.bancosPermitidos a) eqn:Eb; simpl; split_and!; done.
    + exists a. rewrite list_lookup_insert_ne by done. eauto using conserva_refl.
  - simpl. exists a. split; [by apply lookup_app_l_Some|apply conserva_refl].
Qed.

Local Arguments registrarDetectado : simpl never.

Lemma registrarDetectados_conserva relogio ds : ∀ k l res i a,
  l !! i = Some a →
  ∃ a', (registrarDetectados relogio k ds (l, res)).1 !! i = Some a' ∧ conserva a a'.
Proof.
  induction ds as [|d ds IH]; intros k l res i a Hi; simpl.
  - eauto using conserva_refl.
  - destruct (registrarDetectado_conserva (relogio k) l res d i a Hi) as (b & Hb & Hab).
    destruct (registrarDetectado (relogio k) (l, res) d) as [l1 res1] eqn:E. simpl in Hb.
    destruct (IH (S k) l1 res1 i b Hb) as (c & Hc & Hbc).
    exists c. split; [exact Hc|by eapply conserva_trans].
Qed.

Lemma marcarInativo_conserva ds a : conserva a (marcarInativo ds a).
Proof. unfold marcarInativo. destruct (semPasta ds a); by repeat split. Qed.

Lemma sincronizarDetectados_ambientes gravou relogio ds disco :
  ambientes (sincronizarDetectados gravou relogio ds disco).1 =
  if gravou
  then map (marcarInativo ds)
           (registrarDetectados relogio 0 ds (ambientes disco, mkResultados [] [] [])).1
  else ambientes disco.
Proof.
  unfold sincronizarDetectados, loadDatabase.
  destruct (registrarDetectados _ _ _ _) as [l res]. by destruct gravou.
Qed.

Lemma sincronizarDetectados_conserva gravou relogio ds disco i a :
  ambientes disco !! i = Some a →
  ∃ a', ambientes (sincronizarDetectados gravou relogio ds disco).1 !! i = Some a'
        ∧ conserva a a'.
Proof.
  intros Hi. rewrite sincronizarDetectados_ambientes. destruct gravou.
  - destruct (registrarDetectados_conserva relogio ds 0 (ambientes disco)
                (mkResultados [] [] []) i a Hi) as (b & Hb & Hab).
    exists (marcarInativo ds b). split.
    + by rewrite list_lookup_fmap, Hb.
    + eapply conserva_trans; [exact Hab|apply marcarInativo_conserva].
  - eauto using conserva_refl.
Qed.

(** C3. Reconciliation non-destructiveness: for every state of the store
    and every detection result, a record whose [bancosPermitidos] is not
    empty before the reconcile pass is found at the same place afterwards,
    with the same id, the same port and the same [bancosPermitidos],
    whatever banks the detector inferred for its port and whether or not
    the store file is written. *)
Theorem sincronizar_nao_sobrescreve_bancos gravou relogio detectados disco i a :
  ambientes disco !! i = Some a →
  Ambiente.bancosPermitidos a ≠ [] →
  ∃ a', ambientes (sincronizarDetectados gravou relogio detectados disco).1 !! i = Some a'
        ∧ Ambiente.id a' = Ambiente.id a
        ∧ Ambiente.porta a' = Ambiente.porta a
        ∧ Ambiente.bancosPermitidos a' = Ambiente.bancosPermitidos a.
Proof.
  intros Hi Hne.
  destruct (sincronizarDetectados_conserva gravou relogio detectados disco i a Hi)
    as (a' & Ha' & Hid & Hp & _ & _ & Hb).
  exists a'. split_and!; auto.
Qed.

(** *** Reconciliation: ports stay unique, detected ports are active *)







(** *** The detector never reports port 7000 *)





(** *** [deleteAmbiente] *)

Lemma elem_of_delete_lookup {A} (l : list A) i b :
  b ∈ delete i l → ∃ j, j ≠ i ∧ l !! j = Some b.
Proof.
  intros Hel. apply list_elem_of_lookup in Hel as [j Hj].
  destruct (decide (j < i)%nat) as [Hlt|Hge].
  - rewrite list_lookup_delete_lt in Hj by done. exists j. split; [lia|done].
  - rewrite list_lookup_delete_ge in Hj by lia. exists (S j). split; [lia|done].
Qed.


(** *** [authenticateLogin] *)

(** C4 (amended). For every login that [authenticateLogin] finds for the
    user name, that is active and whose password is correct: if the
    profile of the login, when it has one that exists, is active, and the
    environment of the login exists and is inactive, then the call fails
    with the error code [AMBIENTE_INACTIVE], which differs from the codes
    of user not found, user inactive, wrong password, environment missing
    and profile inactive. *)
Theorem authenticateLogin_ambiente_inativo username password disco i login j ambiente :
  list_find (mesmoUsername (usernameNormalizado username)) (logins disco) = Some (i, login) →
  Login.ativo login = true →
  verifyPassword password (Login.passwordHash login) = true →
  (∀ p, perfilDoLogin login disco = Some p → Perfil.ativo p = true) →
  list_find (λ a, Ambiente.id a = Login.ambienteId login) (ambientes disco)
    = Some (j, ambiente) →
  Ambiente.ativo ambiente = false →
  authenticateLogin username password disco = Falha AmbienteAssociadoInativo ∧
  errorCode AmbienteAssociadoInativo = Some "AMBIENTE_INACTIVE" ∧
  ∀ e, e ∈ [UsuarioNaoEncontrado; UsuarioInativo; SenhaIncorreta;
            AmbienteAssociadoNaoEncontrado; PerfilAssociadoInativo] →
       errorCode e ≠ errorCode AmbienteAssociadoInativo.
Proof.
  intros Hl Hat Hpw Hperfil Ha Hinat.
  split_and!; [|done|].
  - unfold authenticateLogin, loadDatabase. rewrite Hl, Hat, Hpw. simpl.
    destruct (perfilDoLogin login disco) as [p|] eqn:Ep.
    + rewrite (Hperfil p eq_refl). simpl. by rewrite Ha, Hinat.
    + by rewrite Ha, Hinat.
  - intros e He. repeat (apply elem_of_cons in He as [->|He]; [done|]).
    by apply elem_of_nil in He.
Qed.

(** *** [createAmbiente]: the stored hash and the pipeline *)

Lemma createAmbiente_ambientes gravou agora nome porta username password bancos pipeline disco :
  let r := createAmbiente gravou agora nome porta username password bancos pipeline disco in
  ambientes r.1 = ambientes disco ∨
  (gravou = true ∧ success r.2 = true ∧
   ambientes r.1 =
     ambientes disco ++ [novoAmbiente agora nome porta username password bancos]).
Proof.
  intros r. subst r. unfold createAmbiente, loadDatabase.
  destruct (list_find _ _) as [[??]|]; [by left|].
  destruct (list_find _ _) as [[??]|]; [by left|].
  destruct gravou; simpl; [by right|by left].
Qed.

Lemma createAmbiente_novo gravou agora nome porta username password bancos pipeline disco a :
  ambientes (createAmbiente gravou agora nome porta username password bancos pipeline disco).1
    = ambientes disco ++ [a] →
  a = novoAmbiente agora nome porta username password bancos.
Proof.
  intros H.
  destruct (createAmbiente_ambientes gravou agora nome porta username password bancos
              pipeline disco) as [E|(_ & _ & E)]; rewrite E in H.
  - apply (f_equal length) in H. rewrite length_app in H. simpl in H. lia.
  - apply app_inj_tail in H as [_ ->]. done.
Qed.

(** C7 (amended). The owner secret of an environment is stored as the
    plain SHA-256 digest of the password, without a salt: the hash of a
    record that [createAmbiente] adds is a function of the password alone,
    so two environments provisioned with the same password, in whatever
    stores and with whatever names, ports and dates, have the same stored
    hash. *)
Theorem createAmbiente_hash_sem_sal
    g1 t1 n1 p1 u1 b1 k1 d1 g2 t2 n2 p2 u2 b2 k2 d2 password a1 a2 :
  ambientes (createAmbiente g1 t1 n1 p1 u1 password b1 k1 d1).1 = ambientes d1 ++ [a1] →
  ambientes (createAmbiente g2 t2 n2 p2 u2 password b2 k2 d2).1 = ambientes d2 ++ [a2] →
  Ambiente.passwordHash a1 = Sha256.hex password ∧
  Ambiente.passwordHash a2 = Ambiente.passwordHash a1.
Proof.
  intros ->%createAmbiente_novo ->%createAmbiente_novo. done.
Qed.

(** *** Which operations can set a pipeline reference *)

Lemma herdaPipeline_refl l : herdaPipeline l l.
Proof. intros a' p ??. eauto. Qed.

Lemma herdaPipeline_trans l1 l2 l3 :
  herdaPipeline l1 l2 → herdaPipeline l2 l3 → herdaPipeline l1 l3.
Proof.
  intros H12 H23 a3 p Hel Hp.
  destruct (H23 a3 p Hel Hp) as (a2 & Hel2 & Hid2 & Hp2).
  destruct (H12 a2 p Hel2 Hp2) as (a1 & Hel1 & Hid1 & Hp1).
  exists a1. split_and!; [done|congruence|done].
Qed.

Lemma herdaPipeline_insert l i a a' :
  l !! i = Some a → Ambiente.id a' = Ambiente.id a →
  Ambiente.pipelineKentro a' = Ambiente.pipelineKentro a →
  herdaPipeline l (<[i:=a']> l).
Proof.
  intros Hi Hid Hpk b p Hel Hp.
  apply list_elem_of_lookup in Hel as [j Hj].
  apply list_lookup_insert_Some in Hj as [(-> & <- & _)|(_ & Hj)].
  - exists a. split_and!; [by eapply list_elem_of_lookup_2|done|congruence].
  - exists b. split_and!; [by eapply list_elem_of_lookup_2|done..].
Qed.

Lemma herdaPipeline_app l a :
  Ambiente.pipelineKentro a = None → herdaPipeline l (l ++ [a]).
Proof.
  intros Hnone b p Hel Hp. apply elem_of_app in Hel as [Hel|Hel]; [by eauto|].
  apply list_elem_of_singleton in Hel as ->. congruence.
Qed.

Lemma herdaPipeline_delete l i : herdaPipeline l (delete i l).
Proof.
  intros b p Hel Hp. apply elem_of_delete_lookup in Hel as (j & _ & Hj).
  exists b. split_and!; [by eapply list_elem_of_lookup_2|done..].
Qed.

Lemma herdaPipeline_map l (f : Ambiente.t → Ambiente.t) :
  (∀ a, Ambiente.id (f a) = Ambiente.id a
        ∧ Ambiente.pipelineKentro (f a) = Ambiente.pipelineKentro a) →
  herdaPipeline l (f <$> l).
Proof.
  intros Hf b p Hel Hp. apply list_elem_of_fmap in Hel as (a & -> & Hel).
  destruct (Hf a) as [Hid Hpk]. exists a. split_and!; [done|done|congruence].
Qed.

Lemma registrarDetectado_pipeline agora l res d :
  herdaPipeline l (registrarDetectado agora (l, res) d).1.
Proof.
  unfold registrarDetectado. case_bool_decide; [apply herdaPipeline_refl|].
  destruct (list_find _ l) as [[i x]|] eqn:E; simpl.
  - apply list_find_Some in E as (Hi & _ & _).
    eapply herdaPipeline_insert; [exact Hi|..];
      by destruct (Ambiente.bancosPermitidos x).
  - by apply herdaPipeline_app.
Qed.

Lemma registrarDetectados_pipeline relogio ds : ∀ k l res,
  herdaPipeline l (registrarDetectados relogio k ds (l, res)).1.
Proof.
  induction ds as [|d ds IH]; intros k l res; simpl; [apply herdaPipeline_refl|].
  pose proof (registrarDetectado_pipeline (relogio k) l res d) as H1.
  destruct (registrarDetectado (relogio k) (l, res) d) as [l1 res1]. simpl in H1.
  eapply herdaPipeline_trans; [exact H1|apply IH].
Qed.

Lemma executar_pipeline gravou agora op disco :
  (∀ ambienteId dados, op ≠ OpUpdateAmbiente ambienteId dados) →
  herdaPipeline (ambientes disco) (ambientes (executar gravou agora op disco)).
Proof.
  intros Hop. destruct op as [nome porta u pw b k|aid b|aid dados|pasta aid|relogio base]; simpl.
  - destruct (createAmbiente_ambientes gravou agora nome porta u pw b k disco)
      as [->|(_ & _ & ->)]; [apply herdaPipeline_refl|by apply herdaPipeline_app].
  - unfold updateBancosPermitidos, loadDatabase.
    destruct (list_find _ _) as [[i x]|] eqn:E; [|apply herdaPipeline_refl].
    apply list_find_Some in E as (Hi & _ & _).
    destruct gravou; simpl; [|apply herdaPipeline_refl].
    by eapply herdaPipeline_insert.
  - by destruct (Hop aid dados).
  - unfold deleteAmbiente, loadDatabase.
    destruct (list_find _ _) as [[i x]|] eqn:E; [|apply herdaPipeline_refl].
    destruct gravou; simpl; [|apply herdaPipeline_refl].
    destruct (pasta _) as [|[e|]]; apply herdaPipeline_delete.
  - unfold sincronizarAmbientesExistentes. rewrite sincronizarDetectados_ambientes.
    destruct gravou; [|apply herdaPipeline_refl].
    eapply herdaPipeline_trans; [apply registrarDetectados_pipeline|].
    apply herdaPipeline_map. intros a. unfold marcarInativo.
    by destruct (semPasta _ a).
Qed.

(** C9. [createAmbiente] discards the pipeline reference it is given: the
    call behaves as with [null], every record it adds has a [null]
    pipeline, and a successful call whose write goes through adds one such
    record. No operation other than [updateAmbiente] gives a reference:
    after [createAmbiente], [updateBancosPermitidos], [deleteAmbiente] or a
    reconcile pass, a record with a reference has the id and the reference
    of a record that was there before. *)
Theorem createAmbiente_pipeline_null
    gravou agora nome porta username password bancos pipeline disco :
  let r := createAmbiente gravou agora nome porta username password bancos pipeline disco in
  r = createAmbiente gravou agora nome porta username password bancos None disco ∧
  (∀ a, a ∈ ambientes r.1 → a ∈ ambientes disco ∨ Ambiente.pipelineKentro a = None) ∧
  (success r.2 = true → gravou = true →
   ∃ novo, ambientes r.1 = ambientes disco ++ [novo] ∧ Ambiente.porta novo = porta
           ∧ Ambiente.nome novo = nome ∧ Ambiente.pipelineKentro novo = None) ∧
  (∀ g t op, (∀ ambienteId dados, op ≠ OpUpdateAmbiente ambienteId dados) →
     ∀ a' p, a' ∈ ambientes (executar g t op disco) →
       Ambiente.pipelineKentro a' = Some p →
       ∃ a, a ∈ ambientes disco ∧ Ambiente.id a = Ambiente.id a'
            ∧ Ambiente.pipelineKentro a = Some p).
Proof.
  intros r. subst r. split_and!.
  - reflexivity.
  - intros a Hel.
    destruct (createAmbiente_ambientes gravou agora nome porta username password bancos
                pipeline disco) as [E|(_ & _ & E)]; rewrite E in Hel; [by left|].
    apply elem_of_app in Hel as [?|Hel]; [by left|].
    apply list_elem_of_singleton in Hel as ->. by right.
  - intros Hs ->. unfold createAmbiente, loadDatabase in *.
    destruct (list_find _ _) as [[??]|]; [done|].
    destruct (list_find _ _) as [[??]|]; [done|].
    simpl. eexists. split_and!; done.
  - intros g t op Hop a' p. by apply executar_pipeline.
Qed.

(** *** Ports stay unique under every operation *)




(** *** The claims on sample data *)


(** With the port of [QA], or with its name, nothing is stored. *)
Example createAmbiente_conflitos :
  createAmbiente true 1700000200000 "Outro" 5005 "bia" "segredo" [] None (Exemplos.disco_qa true)
    = (Exemplos.disco_qa true, Falha (PortaEmUso 5005)) ∧
  createAmbiente true 1700000200000 "QA" 5006 "bia" "segredo" [] None (Exemplos.disco_qa true)
    = (Exemplos.disco_qa true, Falha (AmbienteJaExiste "QA")).
Proof. split; reflexivity. Qed.


Lemma sincronizar_nao_sobrescreve_bancos_witness :
  ∃ a', ambientes (sincronizarDetectados true Exemplos.relogio
                     (Detector.detectarAmbientesExistentes Exemplos.base)
                     (Exemplos.disco_qa true)).1 !! 0%nat = Some a'
        ∧ Ambiente.id a' = Ambiente.id Exemplos.amb_qa
        ∧ Ambiente.porta a' = 5005
        ∧ Ambiente.bancosPermitidos a' = ["v8"].
Proof.
  apply (sincronizar_nao_sobrescreve_bancos true Exemplos.relogio
           (Detector.detectarAmbientesExistentes Exemplos.base)
           (Exemplos.disco_qa true) 0%nat Exemplos.amb_qa).
  - reflexivity.
  - discriminate.
Defined.

(** The detector saw other banks for port 5005 than the record permits. *)
Example detectar_base :
  (λ d, (Detectado.porta d, Detectado.bancosPermitidos d, Detectado.temEnv d))
    <$> Detector.detectarAmbientesExistentes Exemplos.base
  = [(5005, ["presencabank"; "hubcredito"], true)].
Proof. vm_compute. reflexivity. Qed.


(** The deactivated environment [QA] is active after the pass. *)
Example sincronizar_reativa_qa :
  (λ a, (Ambiente.porta a, Ambiente.ativo a, Ambiente.bancosPermitidos a))
    <$> ambientes (sincronizarAmbientesExistentes true Exemplos.relogio Exemplos.base
                     (Exemplos.disco_qa true)).1
  = [(5005, true, ["v8"])].
Proof. vm_compute. reflexivity. Qed.


Lemma authenticateLogin_ambiente_inativo_witness :
  authenticateLogin "  ANA " "segredo" (Exemplos.disco_qa true) = Falha AmbienteAssociadoInativo ∧
  errorCode AmbienteAssociadoInativo = Some "AMBIENTE_INACTIVE" ∧
  ∀ e, e ∈ [UsuarioNaoEncontrado; UsuarioInativo; SenhaIncorreta;
            AmbienteAssociadoNaoEncontrado; PerfilAssociadoInativo] →
       errorCode e ≠ errorCode AmbienteAssociadoInativo.
Proof.
  apply (authenticateLogin_ambiente_inativo "  ANA " "segredo" (Exemplos.disco_qa true)
           0%nat Exemplos.login_ana 0%nat Exemplos.amb_qa).
  - vm_compute. reflexivity.
  - reflexivity.
  - vm_compute. reflexivity.
  - intros p Hp. vm_compute in Hp. injection Hp as <-. reflexivity.
  - vm_compute. reflexivity.
  - reflexivity.
Defined.

(** C4, as stated, fails when the profile of the login is inactive too. *)
Lemma authenticateLogin_perfil_inativo_primeiro :
  let disco := Exemplos.disco_qa false in
  list_find (mesmoUsername (usernameNormalizado "ana")) (logins disco)
    = Some (0%nat, Exemplos.login_ana) ∧
  Login.ativo Exemplos.login_ana = true ∧
  verifyPassword "segredo" (Login.passwordHash Exemplos.login_ana) = true ∧
  list_find (λ a, Ambiente.id a = Login.ambienteId Exemplos.login_ana) (ambientes disco)
    = Some (0%nat, Exemplos.amb_qa) ∧
  Ambiente.ativo Exemplos.amb_qa = false ∧
  authenticateLogin "ana" "segredo" disco = Falha PerfilAssociadoInativo ∧
  errorCode PerfilAssociadoInativo = Some "PERFIL_INACTIVE" ∧
  errorCode PerfilAssociadoInativo ≠ errorCode AmbienteAssociadoInativo.
Proof. vm_compute. split_and!; try reflexivity. discriminate. Qed.



Lemma createAmbiente_hash_sem_sal_witness :
  let d0 := Exemplos.disco_vazio in
  let a1 := novoAmbiente 1700000200000 "QA" 5005 "ana" "segredo" ["v8"] in
  let d1 := (createAmbiente true 1700000200000 "QA" 5005 "ana" "segredo" ["v8"] None d0).1 in
  let a2 := novoAmbiente 1700000300000 "Producao" 5006 "bia" "segredo" [] in
  Ambiente.passwordHash a1 = Sha256.hex "segredo" ∧
  Ambiente.passwordHash a2 = Ambiente.passwordHash a1.
Proof.
  intros d0 a1 d1 a2.
  apply (createAmbiente_hash_sem_sal
           true 1700000200000 "QA" 5005 "ana" ["v8"] None d0
           true 1700000300000 "Producao" 5006 "bia" [] None d1 "segredo" a1 a2).
  - vm_compute. reflexivity.
  - vm_compute. reflexivity.
Defined.

(** C7, as stated, fails: the same password gives the same stored hash. *)
Lemma createAmbiente_mesma_senha_mesmo_hash :
  let d0 := Exemplos.disco_vazio in
  let d1 := (createAmbiente true 1700000200000 "QA" 5005 "ana" "segredo" ["v8"] None d0).1 in
  let d2 := (createAmbiente true 1700000300000 "Producao" 5006 "bia" "segredo" [] None d1).1 in
  (λ a, (Ambiente.nome a, Ambiente.passwordHash a)) <$> ambientes d2
  = [("QA", Exemplos.hash_segredo); ("Producao", Exemplos.hash_segredo)].
Proof. vm_compute. reflexivity. Qed.

Lemma createAmbiente_pipeline_null_witness :
  let disco := Exemplos.disco_qa true in
  let r := createAmbiente true 1700000200000 "Producao" 5006 "bia" "segredo" ["v8"]
             (Some "pipeline-7") disco in
  ∃ novo, ambientes r.1 = ambientes disco ++ [novo] ∧ Ambiente.porta novo = 5006
          ∧ Ambiente.nome novo = "Producao" ∧ Ambiente.pipelineKentro novo = None.
Proof.
  intros disco r.
  destruct (createAmbiente_pipeline_null true 1700000200000 "Producao" 5006 "bia" "segredo"
              ["v8"] (Some "pipeline-7") disco) as (_ & _ & H & _).
  apply H; reflexivity.
Defined.

(** Only [updateAmbiente] stores a pipeline reference. *)
Example updateAmbiente_pipeline :
  Ambiente.pipelineKentro <$>
    ambientes (updateAmbiente true 1700000400000 "ambiente-1700000000000"
                 (mkDados None (Some (Some "pipeline-7")) None) (Exemplos.disco_qa true)).1
  = [Some "pipeline-7"].
Proof. vm_compute. reflexivity. Qed.

End Store.

(* ===================================================================== *)
(** ** Credential files                                                  *)
(* ===================================================================== *)

(** ** Strings: [split], [join], [includes], [startsWith] *)

Lemma string_app_cons c (a b : string) : String c a +:+ b = String c (a +:+ b).
Proof. reflexivity. Qed.

Lemma includes_app (a b : string) c :
  Js.includes (a +:+ b) c = Js.includes a c || Js.includes b c.
Proof.
  induction a as [|x a IH]; [done|].
  rewrite string_app_cons. simpl. rewrite IH. by rewrite orb_assoc.
Qed.

Lemma split_not_nil sep s : Js.split sep s ≠ [].
Proof.
  destruct s as [|c r]; simpl; [done|].
  destruct (Ascii.eqb c sep); [done|]. by destruct (Js.split sep r).
Qed.

Lemma split_sem_sep sep s : Js.includes s sep = false → Js.split sep s = [s].
Proof.
  induction s as [|c r IH]; simpl; [done|].
  intros [Hc Hr]%orb_false_elim. rewrite Hc, (IH Hr). done.
Qed.

Lemma split_app_sep sep (a b : string) :
  Js.includes a sep = false →
  Js.split sep (a +:+ String sep b) = a :: Js.split sep b.
Proof.
  induction a as [|c a IH]; intros Ha.
  - change (EmptyString +:+ String sep b) with (String sep b). simpl.
    by rewrite Ascii.eqb_refl.
  - simpl in Ha. apply orb_false_elim in Ha as [Hc Ha].
    rewrite string_app_cons. simpl. rewrite Hc, (IH Ha). done.
Qed.

Lemma split_Forall sep s : Forall (λ l, Js.includes l sep = false) (Js.split sep s).
Proof.
  induction s as [|c r IH]; simpl; [by repeat constructor|].
  destruct (Ascii.eqb c sep) eqn:E; [by constructor|].
  destruct (Js.split sep r) as [|x xs]; [by repeat constructor; simpl; rewrite E|].
  inversion IH; subst. constructor; [simpl; by rewrite E|done].
Qed.

Lemma split_join (ls : list string) :
  ls ≠ [] → Forall (λ l, Js.includes l Js.nl = false) ls →
  Js.split Js.nl (Js.join Js.NL ls) = ls.
Proof.
  induction ls as [|x [|y ys] IH]; intros Hne Hall; [done|..].
  - simpl. apply split_sem_sep. by inversion Hall.
  - inversion Hall as [|?? Hx Hrest]; subst.
    change (Js.join Js.NL (x :: y :: ys))
      with (x +:+ String Js.nl (Js.join Js.NL (y :: ys))).
    rewrite split_app_sep by done. f_equal. by apply IH.
Qed.

Lemma startsWith_app (a b : string) : Js.startsWith (a +:+ b) a = true.
Proof.
  induction a as [|c a IH]; [reflexivity|]. rewrite string_app_cons. simpl.
  by rewrite Ascii.eqb_refl, IH.
Qed.

Lemma startsWith_app_app (a b c : string) :
  Js.startsWith (a +:+ b) (a +:+ c) = Js.startsWith b c.
Proof.
  induction a as [|x a IH]; [done|]. rewrite !string_app_cons. simpl.
  by rewrite Ascii.eqb_refl, IH.
Qed.


Lemma startsWith_ambos (a b x : string) :
  Js.startsWith x a = true → Js.startsWith x b = true →
  Js.startsWith b a = true ∨ Js.startsWith a b = true.
Proof.
  revert b x. induction a as [|c a IH]; intros b x Ha Hb; [by left|].
  destruct b as [|d b]; [by right|].
  destruct x as [|e x]; [done|]. simpl in *.
  apply andb_true_iff in Ha as [Hc Ha]. apply andb_true_iff in Hb as [Hd Hb].
  apply Ascii.eqb_eq in Hc as ->. apply Ascii.eqb_eq in Hd as ->.
  rewrite Ascii.eqb_refl. simpl. by eapply IH.
Qed.

Lemma truthy_true s : Js.truthy s = true ↔ s ≠ EmptyString.
Proof.
  unfold Js.truthy. destruct (String.eqb_spec s EmptyString) as [->|Hne]; simpl.
  - split; [done|]. intros H. by destruct H.
  - done.
Qed.

Section Codec.


Import Credenciais.

Lemma casaCampo_diag k l : casaCampo k k l = Js.startsWith l (k +:+ "=").
Proof. unfold casaCampo. apply orb_diag. Qed.

Section Campo.
(** One field: its key [k], the value [v] written, and a test [Q] on
    lines that no line of the field passes. *)
Variables (k v : string).

Lemma casaCampo_nova : casaCampo k k (linhaDoCampo k v) = true.
Proof. rewrite casaCampo_diag. unfold linhaDoCampo. by rewrite startsWith_app_app. Qed.

Lemma gravarCampo_decompoe (linhas : list string) :
  (list_find (λ l, casaCampo k k l = true) linhas = None ∧
   gravarCampo k k v linhas = linhas ++ [(linhaDoCampo k v)]) ∨
  (∃ antes x depois,
     linhas = antes ++ x :: depois ∧
     Forall (λ l, casaCampo k k l ≠ true) antes ∧ casaCampo k k x = true ∧
     gravarCampo k k v linhas = antes ++ (linhaDoCampo k v) :: depois).
Proof.
  unfold gravarCampo.
  destruct (list_find _ linhas) as [[i x]|] eqn:E; [right|by left].
  apply list_find_Some in E as (Hi & Hx & Hmin).
  exists (take i linhas), x, (drop (S i) linhas). split_and!.
  - by rewrite take_drop_middle.
  - apply Forall_lookup. intros j y Hj.
    apply lookup_take_Some in Hj as [Hj Hlt]. by eapply Hmin.
  - done.
  - apply insert_take_drop. by eapply lookup_lt_Some.
Qed.




Lemma gravarCampo_sem_quebra (linhas : list string) :
  Js.includes k Js.nl = false → Js.includes v Js.nl = false →
  Forall (λ l, Js.includes l Js.nl = false) linhas →
  Forall (λ l, Js.includes l Js.nl = false) (gravarCampo k k v linhas).
Proof.
  intros Hk Hv Hall.
  assert (Js.includes (linhaDoCampo k v) Js.nl = false) as Hn.
  { unfold linhaDoCampo. rewrite !includes_app, Hk, Hv. done. }
  destruct (gravarCampo_decompoe linhas) as [[Hnone ->]|(antes & x & depois & -> & Hantes & Hx & ->)].
  - apply Forall_app. split; [done|by repeat constructor].
  - apply Forall_app in Hall as [Ha Hd]. apply Forall_app. split; [done|].
    inversion Hd; subst. by constructor.
Qed.

Lemma gravarCampo_not_nil (linhas : list string) : gravarCampo k k v linhas ≠ [].
Proof.
  destruct (gravarCampo_decompoe linhas) as [[Hnone ->]|(antes & x & depois & -> & Hantes & Hx & ->)].
  - by destruct linhas.
  - by destruct antes.
Qed.


End Campo.





Lemma chavesDistintas_elim campos :
  chavesDistintas campos = true →
  let kl := c_login campos in
  let ks := c_senha campos in
  campoLogin campos = kl ∧ campoSenha campos = ks ∧
  Js.includes kl "="%char = false ∧ Js.includes ks "="%char = false ∧
  Js.includes kl Js.nl = false ∧ Js.includes ks Js.nl = false ∧
  (∀ x, casaCampo kl kl x = true → casaCampo ks ks x = true → False).
Proof.
  intros H kl ks. subst kl ks. unfold chavesDistintas in H. cbv zeta in H.
  repeat (apply andb_true_iff in H as [H ?]).
  repeat match goal with H : negb _ = true |- _ => apply negb_true_iff in H end.
  split_and!; try done.
  - unfold campoLogin, ou. by rewrite H.
  - unfold campoSenha, ou. by match goal with H : Js.truthy (c_senha _) = true |- _ => rewrite H end.
  - intros x Hl Hs. rewrite casaCampo_diag in Hl, Hs.
    destruct (startsWith_ambos _ _ _ Hl Hs); congruence.
Qed.

Lemma mapeamentoCredenciais_chaves bancoId campos :
  mapeamentoCredenciais bancoId = Some campos → chavesDistintas campos = true.
Proof.
  unfold mapeamentoCredenciais. intros H.
  repeat (destruct (String.eqb bancoId _); [by injection H as <-|]). done.
Qed.





(** The file after that update: the line of the login is replaced where
    it stood, the line of the password is appended. *)
Example escrever_env_qa :
  escrever Exemplos.campos_v8 (mk (Some "joao") (Some "s3nh@ forte")) Exemplos.env_qa
  = Some (Js.join Js.NL
            [ "# Configuração do Ambiente 5005"; "PORT=5005"; EmptyString;
              "V8_USERNAME=joao"; "HUBCREDITO_USR=hub"; "V8_USERNAME_BACKUP=x";
              "V8_PASSWORD=s3nh@ forte" ]).
Proof. vm_compute. reflexivity. Qed.


(** Other inputs on which the value read is not the value written: an
    empty login is not written at all, a value is cut at its first [=],
    and a second line of the same key wins over the line that was
    replaced. *)
Example credenciais_login_vazio :
  ∃ novo,
    escrever Exemplos.campos_v8 (mk (Some EmptyString) (Some "abc")) Exemplos.env_qa = Some novo ∧
    ler Exemplos.campos_v8 novo = mk (Some "antigo") (Some "abc").
Proof. eexists. split; vm_compute; reflexivity. Qed.

Example credenciais_valor_com_igual :
  ∃ novo,
    escrever Exemplos.campos_v8 (mk (Some "joao") (Some "a=b")) EmptyString = Some novo ∧
    ler Exemplos.campos_v8 novo = mk (Some "joao") (Some "a").
Proof. eexists. split; vm_compute; reflexivity. Qed.

Example credenciais_linha_repetida :
  ∃ novo,
    escrever Exemplos.campos_v8 (mk (Some "joao") (Some "abc"))
      (Js.join Js.NL ["V8_USERNAME=um"; "V8_USERNAME=dois"]) = Some novo ∧
    ler Exemplos.campos_v8 novo = mk (Some "dois") (Some "abc").
Proof. eexists. split; vm_compute; reflexivity. Qed.

End Codec.

(* ===================================================================== *)
(** ** Copying a directory                                               *)
(* ===================================================================== *)

Section Copiar.

Import Copia.


(** *** Entries of a directory *)



Lemma buscar_definir nome x (itens : list (string * No)) :
  Fs.buscar nome (definir nome x itens) = Some x.
Proof.
  induction itens as [|[n y] r IH]; simpl; [by rewrite String.eqb_refl|].
  destruct (String.eqb n nome) eqn:E; simpl; by rewrite E.
Qed.

Lemma buscar_definir_outro n nome x (itens : list (string * No)) :
  n ≠ nome → Fs.buscar n (definir nome x itens) = Fs.buscar n itens.
Proof.
  intros Hne. induction itens as [|[m y] r IH]; simpl.
  - by destruct (String.eqb_spec nome n).
  - destruct (String.eqb_spec m nome) as [->|Hm]; simpl.
    + by destruct (String.eqb_spec nome n).
    + by rewrite IH.
Qed.


(** *** The loop of the copy into a new directory *)


(** *** The cleaning of [config/config.env] *)









(** *** What the expected tree holds *)









(** Without a bank id, and for a bank id without rules, the expected
    content of every file is the content of the source. *)
Lemma conteudoEsperado_sem_regras caminho c : conteudoEsperado None caminho c = c.
Proof. reflexivity. Qed.

Example regrasDe_exemplos :
  regrasDe None = None ∧ regrasDe (Some EmptyString) = None ∧
  regrasDe (Some "outro") = None ∧ is_Some (regrasDe (Some "v8")) ∧
  is_Some (regrasDe (Some "presencabank")) ∧ is_Some (regrasDe (Some "hubcredito")).
Proof. repeat split; by eauto. Qed.

(** The copy of the sample folder into a new directory, without a bank
    id and for the bank [v8]. *)
Example copiarDiretorio_pasta_v8 :
  copiarDiretorio (Some Exemplos.pasta_v8) None None
  = (Some (Diretorio
             [ ("index.js", Arquivo "require('./src/app')");
               ("config", Diretorio [("config.env", Arquivo Exemplos.config_env)]);
               ("src", Diretorio [ ("app.js", Arquivo "app");
                                   ("rotas", Diretorio [("clt.js", Arquivo "clt")]) ]) ]),
     Retornou true) ∧
  copiarDiretorio (Some Exemplos.pasta_v8) None (Some "v8")
  = (Some (Diretorio
             [ ("index.js", Arquivo "require('./src/app')");
               ("config",
                Diretorio [("config.env",
                            Arquivo (Js.join Js.NL ["# V8"; "V8_USERNAME=modelo"; "PORT=4000"]))]);
               ("src", Diretorio [ ("app.js", Arquivo "app");
                                   ("rotas", Diretorio [("clt.js", Arquivo "clt")]) ]) ]),
     Retornou true).
Proof. split; vm_compute; reflexivity. Qed.


(** Entries with an excluded name that the destination already has stay
    there; a file of the destination where the source has a directory makes
    the copy throw, or stays in place of the directory when the directory
    has nothing to copy; and a directory at [config/config.env] makes the
    cleaning throw after the copy. *)
Example copiarDiretorio_destino_existente :
  copiarDiretorio (Some (Diretorio [("a.js", Arquivo "novo"); ("logs", Diretorio [])]))
                  (Some (Diretorio [("node_modules", Diretorio []); ("a.js", Arquivo "velho")]))
                  None
  = (Some (Diretorio [("node_modules", Diretorio []); ("a.js", Arquivo "novo")]),
     Retornou true) ∧
  copiarDiretorio (Some (Diretorio [("src", Diretorio [("a.js", Arquivo "a")])]))
                  (Some (Diretorio [("src", Arquivo "x")])) None
  = (Some (Diretorio [("src", Arquivo "x")]), Lancou "ENOTDIR") ∧
  copiarDiretorio (Some (Diretorio [("vazio", Diretorio [(".keep", Arquivo "k")])]))
                  (Some (Diretorio [("vazio", Arquivo "x")])) None
  = (Some (Diretorio [("vazio", Arquivo "x")]), Retornou true) ∧
  copiarDiretorio (Some (Diretorio [("config", Diretorio [("config.env", Diretorio [])])]))
                  None (Some "v8")
  = (Some (Diretorio [("config", Diretorio [("config.env", Diretorio [])])]), Lancou "EISDIR").
Proof. repeat split; vm_compute; reflexivity. Qed.

(** A source path that is missing: the call returns [false] and writes
    nothing. *)
Example copiarDiretorio_sem_origem :
  copiarDiretorio None None (Some "v8") = (None, Retornou false).
Proof. reflexivity. Qed.

End Copiar.

(* ===================================================================== *)
(** ** Batch jobs                                                        *)
(* ===================================================================== *)

Section Lotes.


Import Lote.

Lemma tarefa_conta item resposta l :
  let l' := (tarefa item resposta l).1 in
  dados l' = dados l ∧ status l' = status l ∧
  total (progresso l') = total (progresso l) ∧
  processados (progresso l') = processados (progresso l) + 1 ∧
  sucesso (progresso l') + erro (progresso l')
    = sucesso (progresso l) + erro (progresso l) + 1.
Proof.
  unfold tarefa.
  destruct (cpf item) as [c|]; [destruct (telefone item) as [t|]; [destruct resposta as [rs|m]|]|];
    simpl; unfold contar;
    repeat match goal with |- context [if ?b then _ else _] => destruct b end;
    simpl; split_and!; try done; lia.
Qed.

Lemma passo_dados e e' : passo e e' → dados (lote e') = dados (lote e).
Proof.
  destruct 1 as [e|e antes item depois resposta _|e]; [done| |done].
  unfold terminar. pose proof (tarefa_conta item resposta (lote e)) as (Hd & _).
  by destruct (tarefa item resposta (lote e)).
Qed.

Lemma invariante_inicial dados bancos : invariante (inicial dados bancos).
Proof. unfold invariante. simpl. split_and!; [done|done|lia|done]. Qed.

Lemma invariante_passo e e' : invariante e → passo e e' → invariante e'.
Proof.
  unfold invariante. intros (Ht & Hp & Hv & Hc) Hpasso.
  destruct Hpasso as [e Hvoo Hrej Hst Hi|e antes item depois resposta Hvoo|e Hvoo Hrej Hst Hi].
  - rewrite Hvoo in Hv. simpl in *. split_and!; [done|done| |by rewrite Hst].
    rewrite length_take, length_drop. unfold LIMITE_SIMULTANEOS. lia.
  - unfold terminar.
    pose proof (tarefa_conta item resposta (lote e)) as (Hd & Hs & Ht' & Hp' & Hse).
    destruct (tarefa item resposta (lote e)) as [l' pr]. simpl in *.
    rewrite Hd, Hs, Ht'. rewrite Hvoo in Hv. rewrite length_app in *. simpl in Hv.
    split_and!; [done|lia|lia|].
    intros Hconc. destruct (Hc Hconc) as [Hnil _]. rewrite Hvoo in Hnil.
    by destruct antes.
  - simpl. split_and!; [done|done|done|done].
Qed.

Lemma invariante_rtc a b :
  rtc passo a b → invariante a →
  invariante b ∧ dados (lote b) = dados (lote a).
Proof.
  induction 1 as [a|a b c Hab Hbc IH]; [done|].
  intros Ha. destruct (IH (invariante_passo a b Ha Hab)) as [Hc Hd].
  split; [done|]. rewrite Hd. by apply passo_dados.
Qed.

Lemma invariante_alcancavel dados bancos e :
  alcancavel dados bancos e → invariante e ∧ Lote.dados (lote e) = dados.
Proof.
  intros H. by apply (invariante_rtc _ _ H (invariante_inicial dados bancos)).
Qed.

Lemma invariante_concluido e :
  invariante e → status (lote e) = Concluido →
  processados (progresso (lote e)) = sucesso (progresso (lote e)) + erro (progresso (lote e)) ∧
  processados (progresso (lote e)) = total (progresso (lote e)) ∧
  total (progresso (lote e)) = Z.of_nat (length (dados (lote e))).
Proof.
  intros (Ht & Hp & Hv & Hc) Hst.
  destruct (Hc Hst) as [Hnil Hi]. rewrite Hnil in Hv. simpl in Hv.
  split_and!; [done|lia|done].
Qed.

(** C8. Batch job completion: in every state that a run of [processarLote]
    on a new job over [dados] can reach, whatever the order in which the
    tasks of a wave finish and whatever the lookups answer, once the status
    of the job is [Concluido] its counters satisfy
    [processados = sucesso + erro] and [processados = total], where [total]
    is the length of [dados]. The empty list and lists of several waves of
    ten are included. *)
Theorem lote_concluido_contadores dados bancos e :
  alcancavel dados bancos e →
  status (lote e) = Concluido →
  let p := progresso (lote e) in
  processados p = sucesso p + erro p ∧
  processados p = total p ∧
  total p = Z.of_nat (length dados).
Proof.
  intros Halc Hst p. subst p.
  destruct (invariante_alcancavel dados bancos e Halc) as [Hinv Hd].
  rewrite <- Hd. by apply invariante_concluido.
Qed.

(** *** The run that takes the tasks in order *)

Lemma executar_alcanca passos oraculo : ∀ e, rtc passo e (executar passos oraculo e).
Proof.
  induction passos as [|n IH]; intros e; simpl; [done|].
  destruct (emVoo e) as [|item depois] eqn:Hvoo.
  - destruct (rejeitada e) eqn:Hrej; [done|].
    destruct (status (lote e)) eqn:Hst; [|done].
    case_bool_decide as Hi.
    + eapply rtc_l; [by apply passo_despachar|apply IH].
    + eapply rtc_l; [apply passo_concluir; [done..|lia]|apply IH].
  - eapply rtc_l; [by apply (passo_terminar e [] item depois)|apply IH].
Qed.

Lemma processarLote_alcancavel oraculo dados bancos :
  alcancavel dados bancos
    (executar (2 * length dados + 2) oraculo (inicial dados bancos)).
Proof. apply executar_alcanca. Qed.

Lemma executar_concluido passos oraculo e :
  emVoo e = [] → rejeitada e = false → status (lote e) = Concluido →
  executar passos oraculo e = e.
Proof. intros Hv Hr Hs. destruct passos; simpl; [done|]. by rewrite Hv, Hr, Hs. Qed.

(** When every record has a [cpf] that is a string, the run ends with the
    job marked as done. *)
Lemma executar_conclui oraculo passos : ∀ e,
  Forall (λ it, is_Some (cpf it)) (dados (lote e)) →
  Forall (λ it, is_Some (cpf it)) (emVoo e) →
  rejeitada e = false →
  status (lote e) = Processando →
  (length (emVoo e) + 2 * (length (dados (lote e)) - i e `min` length (dados (lote e))) + 1
     ≤ passos)%nat →
  status (lote (executar passos oraculo e)) = Concluido.
Proof.
  induction passos as [|n IH]; intros e Hdados Hvoo Hrej Hst Hn; [lia|].
  simpl. destruct (emVoo e) as [|item depois] eqn:Ev.
  - rewrite Hrej, Hst. case_bool_decide as Hi.
    + apply IH; simpl; try done.
      * by apply Forall_take, Forall_drop.
      * rewrite length_take, length_drop. unfold LIMITE_SIMULTANEOS in *. simpl in Hn. lia.
    + by rewrite executar_concluido.
  - inversion Hvoo as [|?? [c Hc] Hdepois]; subst.
    pose proof (tarefa_conta item (oraculo item) (lote e)) as (Hd & Hs & _).
    assert ((tarefa item (oraculo item) (lote e)).2 = Cumprida) as Hcum.
    { unfold tarefa. rewrite Hc. by destruct (telefone item), (oraculo item). }
    unfold terminar. destruct (tarefa item (oraculo item) (lote e)) as [l' pr].
    simpl in *. subst pr. apply IH; simpl.
    + by rewrite Hd.
    + done.
    + by rewrite Hrej.
    + by rewrite Hs.
    + rewrite Hd. lia.
Qed.

Lemma processarLote_conclui oraculo dados bancos :
  Forall (λ it, is_Some (cpf it)) dados →
  let l := processarLote oraculo dados bancos in
  status l = Concluido ∧
  processados (progresso l) = Z.of_nat (length dados) ∧
  processados (progresso l) = sucesso (progresso l) + erro (progresso l).
Proof.
  intros Hall l. subst l. unfold processarLote.
  assert (status (lote (executar (2 * length dados + 2) oraculo (inicial dados bancos)))
          = Concluido) as Hst.
  { apply executar_conclui; simpl; [done|done|done|done|lia]. }
  destruct (invariante_alcancavel dados bancos _
              (processarLote_alcancavel oraculo dados bancos)) as [Hinv Hd].
  destruct (invariante_concluido _ Hinv Hst) as (H1 & H2 & H3).
  rewrite Hd in H3. split_and!; [done|lia|done].
Qed.

Lemma lote_concluido_contadores_witness :
  let e := executar 52 Exemplos.oraculo (inicial Exemplos.dados25 ["v8"]) in
  let p := progresso (lote e) in
  processados p = sucesso p + erro p ∧ processados p = total p ∧ total p = 25.
Proof.
  intros e p.
  apply (lote_concluido_contadores Exemplos.dados25 ["v8"] e).
  - apply (executar_alcanca 52).
  - vm_compute. reflexivity.
Defined.

(** Twenty-five records make three waves; the job ends done with every
    record counted once. *)
Example processarLote_25 :
  let l := processarLote Exemplos.oraculo Exemplos.dados25 ["v8"] in
  (status l, progresso l, length (resultados l))
  = (Concluido, mkProgresso 25 25 10 15, 25%nat).
Proof. vm_compute. reflexivity. Qed.

Example processarLote_vazio :
  let l := processarLote Exemplos.oraculo [] ["v8"] in
  (status l, progresso l) = (Concluido, mkProgresso 0 0 0 0).
Proof. vm_compute. reflexivity. Qed.

(** A record whose [cpf] is not a string rejects its promise: the record is
    counted, the rest of its wave too, and the job is never marked done. *)
Example processarLote_cpf_invalido :
  let dados := [Exemplos.registro 1; mkItem None (Some "11") "1990-01-01"; Exemplos.registro 2] in
  let l := processarLote Exemplos.oraculo dados ["v8"] in
  (status l, progresso l) = (Processando, mkProgresso 3 3 1 2).
Proof. vm_compute. reflexivity. Qed.

End Lotes.
(* ===================================================================== *)
(** ** Numbers in text: [String(n)] read back                            *)
(* ===================================================================== *)

Section Numeros.

Lemma pretty_N_char_codigo d :
  (d < 10)%N → N_of_ascii (pretty_N_char d) = (48 + d)%N.
Proof.
  intros Hd.
  assert (d = 0 ∨ d = 1 ∨ d = 2 ∨ d = 3 ∨ d = 4 ∨ d = 5 ∨ d = 6 ∨ d = 7 ∨ d = 8 ∨ d = 9)%N
    as Hcasos by lia.
  repeat (destruct Hcasos as [->|Hcasos]; [reflexivity|]). by subst.
Qed.

Lemma pretty_N_go_app x (s1 s2 : string) :
  pretty_N_go x (s1 +:+ s2) = pretty_N_go x s1 +:+ s2.
Proof.
  revert s1. induction (N.lt_wf_0 x) as [x _ IH]. intros s1.
  destruct (decide (x = 0)%N) as [->|Hx]; [by rewrite !pretty_N_go_0|].
  rewrite !(pretty_N_go_step x) by lia.
  rewrite <- IH by (apply N.div_lt; lia). done.
Qed.

(** A reader of decimal digits, applied to the digits of [x]. *)
Lemma ler_pretty_N_go {R} (ler : option Z → string → R) :
  (∀ acc d s, (d < 10)%N →
     ler acc (String (pretty_N_char d) s) = ler (Some (10 * default 0 acc + Z.of_N d)) s) →
  ∀ x s acc, (0 < x)%N →
    ∃ m, ler acc (pretty_N_go x s) = ler (Some (default 0 acc * m + Z.of_N x)) s.
Proof.
  intros Hler x. induction (N.lt_wf_0 x) as [x _ IH]. intros s acc Hx.
  rewrite pretty_N_go_step by done.
  pose proof (N.mod_lt x 10 ltac:(lia)) as Hmod.
  pose proof (N.div_mod x 10 ltac:(lia)) as Hdiv.
  destruct (decide (x `div` 10 = 0)%N) as [Hz|Hnz].
  - rewrite Hz, pretty_N_go_0, Hler by done. exists 10. do 2 f_equal. lia.
  - destruct (IH (x `div` 10)%N ltac:(apply N.div_lt; lia)
                (String (pretty_N_char (x `mod` 10)) s) acc ltac:(lia)) as [m Hm].
    rewrite Hm, Hler by done. exists (10 * m). do 2 f_equal. cbn [default].
    generalize (default 0 acc). intros a. 
    assert (Z.of_N x = 10 * Z.of_N (x `div` 10) + Z.of_N (x `mod` 10)) as -> by lia.
    unfold id. ring.
Qed.

(** The first digit of a positive number is not [0]. *)
Lemma pretty_N_go_primeiro x s :
  (0 < x)%N → ∃ d r, (0 < d < 10)%N ∧ pretty_N_go x s = String (pretty_N_char d) r.
Proof.
  revert s. induction (N.lt_wf_0 x) as [x _ IH]. intros s Hx.
  rewrite pretty_N_go_step by done.
  destruct (decide (x `div` 10 = 0)%N) as [Hz|Hnz].
  - rewrite Hz, pretty_N_go_0. exists (x `mod` 10)%N, s. split; [|done].
    pose proof (N.mod_lt x 10 ltac:(lia)) as Hmod.
    pose proof (N.div_mod x 10 ltac:(lia)) as Hdiv. rewrite Hz in Hdiv. lia.
  - apply IH; [apply N.div_lt; lia|]. by apply N.neq_0_lt_0.
Qed.

(** The digits of a number hold no character that is not a digit. *)
Lemma includes_pretty_N_go x s c :
  (∀ d, (d < 10)%N → Ascii.eqb (pretty_N_char d) c = false) →
  Js.includes s c = false → Js.includes (pretty_N_go x s) c = false.
Proof.
  intros Hc. revert s. induction (N.lt_wf_0 x) as [x _ IH]. intros s Hs.
  destruct (decide (x = 0)%N) as [->|Hx]; [by rewrite pretty_N_go_0|].
  rewrite pretty_N_go_step by lia. apply IH; [apply N.div_lt; lia|].
  cbn [Js.includes]. rewrite Hs, Hc; [done|]. apply N.mod_lt. lia.
Qed.

Lemma numero_pos p : Js.numero (Z.pos p) = pretty_N_go (N.pos p) EmptyString.
Proof. reflexivity. Qed.

Lemma numero_neg p : Js.numero (Z.neg p) = String "-" (Js.numero (Z.pos p)).
Proof. reflexivity. Qed.

End Numeros.

Section LeituraDeNumeros.
Import Rotas.

(** A character below 128 that is not white space ends the scan of
    [trimStart]. *)
Lemma trimStart_inicio c r :
  (N_of_ascii c < 128)%N → Js.ws1 c = false →
  Js.trimStart (String c r) = String c r.
Proof.
  intros Hc Hws. cbn [Js.trimStart]. rewrite Hws.
  destruct r as [|c2 r2]; [done|].
  assert (Js.ws2 c c2 = false) as ->.
  { unfold Js.ws2. destruct (N.eqb_spec (N_of_ascii c) 194); [lia|done]. }
  destruct r2 as [|c3 r3]; [done|].
  assert (Js.ws3 c c2 c3 = false) as ->; [|done].
  unfold Js.ws3.
  destruct (N.eqb_spec (N_of_ascii c) 225); [lia|].
  destruct (N.eqb_spec (N_of_ascii c) 226); [lia|].
  destruct (N.eqb_spec (N_of_ascii c) 227); [lia|].
  destruct (N.eqb_spec (N_of_ascii c) 239); [lia|]. done.
Qed.

Lemma digitoBase_decimal d :
  (d < 10)%N → digitoBase 10 (pretty_N_char d) = Some (Z.of_N d).
Proof.
  intros Hd.
  assert (d = 0 ∨ d = 1 ∨ d = 2 ∨ d = 3 ∨ d = 4 ∨ d = 5 ∨ d = 6 ∨ d = 7 ∨ d = 8 ∨ d = 9)%N
    as Hcasos by lia.
  repeat (destruct Hcasos as [->|Hcasos]; [reflexivity|]). by subst.
Qed.

Lemma digito_decimal d :
  (d < 10)%N → Detector.digito (pretty_N_char d) = Some (Z.of_N d).
Proof.
  intros Hd.
  assert (d = 0 ∨ d = 1 ∨ d = 2 ∨ d = 3 ∨ d = 4 ∨ d = 5 ∨ d = 6 ∨ d = 7 ∨ d = 8 ∨ d = 9)%N
    as Hcasos by lia.
  repeat (destruct Hcasos as [->|Hcasos]; [reflexivity|]). by subst.
Qed.

Lemma lerDigitos_pretty_N_go x :
  (0 < x)%N → lerDigitos 10 None (pretty_N_go x EmptyString) = Some (Z.of_N x).
Proof.
  intros Hx.
  destruct (ler_pretty_N_go (lerDigitos 10)) with (x := x) (s := EmptyString)
    (acc := @None Z) as [m Hm]; [|done|].
  - intros acc d s Hd. cbn [lerDigitos]. by rewrite digitoBase_decimal.
  - by rewrite Hm.
Qed.

Lemma parseInt_digitos d r :
  (0 < d < 10)%N →
  parseInt (String (pretty_N_char d) r)
  = (λ v, 1 * v) <$> lerDigitos 10 None (String (pretty_N_char d) r).
Proof.
  intros Hd.
  assert (d = 1 ∨ d = 2 ∨ d = 3 ∨ d = 4 ∨ d = 5 ∨ d = 6 ∨ d = 7 ∨ d = 8 ∨ d = 9)%N
    as Hcasos by lia.
  unfold parseInt.
  repeat (destruct Hcasos as [->|Hcasos];
          [by rewrite trimStart_inicio by (vm_compute; done)|]).
  subst. by rewrite trimStart_inicio by (vm_compute; done).
Qed.

Lemma parseInt_negativo d r :
  (0 < d < 10)%N →
  parseInt (String "-" (String (pretty_N_char d) r))
  = (λ v, -1 * v) <$> lerDigitos 10 None (String (pretty_N_char d) r).
Proof.
  intros Hd.
  assert (d = 1 ∨ d = 2 ∨ d = 3 ∨ d = 4 ∨ d = 5 ∨ d = 6 ∨ d = 7 ∨ d = 8 ∨ d = 9)%N
    as Hcasos by lia.
  unfold parseInt. rewrite trimStart_inicio by (vm_compute; done).
  repeat (destruct Hcasos as [->|Hcasos]; [reflexivity|]). by subst.
Qed.

(** [parseInt(String(n))] is [n]. *)
Lemma parseInt_numero n : parseInt (Js.numero n) = Some n.
Proof.
  destruct n as [|p|p]; [reflexivity|..].
  - rewrite numero_pos.
    destruct (pretty_N_go_primeiro (N.pos p) EmptyString) as (d & r & Hd & Heq); [lia|].
    rewrite Heq, parseInt_digitos by done. rewrite <- Heq.
    rewrite lerDigitos_pretty_N_go by lia. cbn [fmap option_fmap option_map]. by f_equal.
  - rewrite numero_neg, numero_pos.
    destruct (pretty_N_go_primeiro (N.pos p) EmptyString) as (d & r & Hd & Heq); [lia|].
    rewrite Heq, parseInt_negativo by done. rewrite <- Heq.
    rewrite lerDigitos_pretty_N_go by lia. cbn [fmap option_fmap option_map]. by f_equal.
Qed.

End LeituraDeNumeros.
(* ===================================================================== *)
(** ** Batch jobs: what a run keeps                                      *)
(* ===================================================================== *)

Section LotesAndamento.
Import Lote Andamento.

Lemma limites_passo e e' : limites e → passo e e' → limites e'.
Proof.
  unfold limites. intros (Hv & Hs & He) Hpasso.
  destruct Hpasso as [e Hvoo Hrej Hst Hi|e antes item depois resposta Hvoo|e Hvoo Hrej Hst Hi].
  - cbn [despachar emVoo lote]. split_and!; [|done..].
    rewrite length_take. lia.
  - unfold terminar. unfold tarefa.
    rewrite Hvoo, length_app in Hv. cbn [length] in Hv.
    destruct (cpf item) as [c|]; [destruct (telefone item) as [t|];
      [destruct resposta as [rs|m]|]|];
      cbn [emVoo lote progresso sucesso erro contar];
      rewrite ?length_app; unfold contar;
      repeat match goal with |- context [if ?b then _ else _] => destruct b end;
      cbn [sucesso erro]; split_and!; lia.
  - done.
Qed.

Lemma limites_alcancavel dados bancos e : alcancavel dados bancos e → limites e.
Proof.
  unfold alcancavel. intros H.
  assert (limites (inicial dados bancos)) as Hini.
  { unfold limites. cbn. unfold LIMITE_SIMULTANEOS. lia. }
  revert Hini. induction H as [a|a b c Hab Hbc IH]; [done|].
  intros Ha. apply IH. by eapply limites_passo.
Qed.

(** X15. In every state that a run of [processarLote] goes through, at
    most ten lookups are unfinished, and the counters of the job stay
    within the total: [0 ≤ sucesso], [0 ≤ erro] and
    [0 ≤ processados ≤ total]. *)
Theorem lote_limites dados bancos e :
  alcancavel dados bancos e →
  let p := progresso (lote e) in
  (length (emVoo e) ≤ 10)%nat ∧
  0 ≤ sucesso p ∧ 0 ≤ erro p ∧ 0 ≤ processados p ≤ total p ∧
  total p = Z.of_nat (length dados).
Proof.
  intros Halc p.
  destruct (limites_alcancavel _ _ _ Halc) as (Hv & Hs & He).
  destruct (invariante_alcancavel _ _ _ Halc) as [(Ht & Hp & Hvoo & _) Hd].
  fold p in Hs, He, Ht, Hp, Hvoo. rewrite Hd in *.
  split_and!; [done|done|done|lia|lia|done].
Qed.

Lemma lote_limites_witness :
  let e := executar 7 Exemplos.oraculo (inicial Exemplos.dados25 ["v8"]) in
  let p := progresso (lote e) in
  (length (emVoo e) ≤ 10)%nat ∧
  0 ≤ sucesso p ∧ 0 ≤ erro p ∧ 0 ≤ processados p ≤ total p ∧
  total p = Z.of_nat (length Exemplos.dados25).
Proof.
  apply (lote_limites Exemplos.dados25 ["v8"]). apply executar_alcanca.
Defined.

End LotesAndamento.

Section LotesResultados.
Import Lote Andamento.

(** A task whose promise is fulfilled adds one result, with the digits
    of the [cpf] of its record. *)
Lemma tarefa_cumprida item resposta l l' :
  tarefa item resposta l = (l', Cumprida) →
  ∃ r, resultados l' = resultados l ++ [r] ∧ Some (r_cpf r) = cpfDe item.
Proof.
  unfold tarefa, cpfDe.
  destruct (cpf item) as [c|]; [|done].
  destruct (telefone item) as [t|]; [destruct resposta as [rs|m]|];
    intros [= <-]; eexists; split; cbn [resultados]; done.
Qed.

Lemma tarefa_rejeitada item resposta l l' :
  tarefa item resposta l = (l', Rejeitada) → cpf item = None.
Proof.
  unfold tarefa. destruct (cpf item) as [c|]; [|done].
  by destruct (telefone item) as [t|]; [destruct resposta as [rs|m]|].
Qed.

Lemma umPorRegistro_passo e e' :
  invariante e → umPorRegistro e → passo e e' → umPorRegistro e'.
Proof.
  unfold umPorRegistro. intros (_ & _ & _ & Hfim) [Hc Hp] Hpasso.
  destruct Hpasso as [e Hvoo Hrej Hst Hi|e antes item depois resposta Hvoo|e Hvoo Hrej Hst Hi].
  - cbn [despachar emVoo lote i rejeitada]. split; [by rewrite Hst|]. intros _.
    specialize (Hp Hrej). rewrite Hvoo in Hp. cbn [fmap list_fmap] in Hp.
    rewrite app_nil_r in Hp. rewrite Hp, <- fmap_app. f_equal.
    by rewrite take_take_drop.
  - unfold terminar.
    pose proof (tarefa_conta item resposta (lote e)) as (Hd & Hs & _).
    destruct (tarefa item resposta (lote e)) as [l' pr] eqn:Ht.
    cbn [fst] in Hd, Hs. cbn [emVoo lote i rejeitada]. rewrite Hd, Hs. split.
    + intros Hconc. destruct (Hfim Hconc) as [Hnil _]. rewrite Hvoo in Hnil.
      by destruct antes.
    + intros [Hrej Hpr]%orb_false_elim. destruct pr; [|done].
      destruct (tarefa_cumprida _ _ _ _ Ht) as (r & -> & Hr).
      specialize (Hp Hrej). rewrite <- Hp, Hvoo. rewrite !fmap_app, fmap_cons.
      cbn [fmap list_fmap compose]. rewrite Hr, <- !app_assoc. f_equiv.
      cbn [app]. apply Permutation_middle.
  - done.
Qed.

Lemma umPorRegistro_alcancavel dados bancos e :
  alcancavel dados bancos e → umPorRegistro e.
Proof.
  unfold alcancavel. intros H.
  assert (invariante (inicial dados bancos) ∧ umPorRegistro (inicial dados bancos)) as Hini.
  { split; [apply invariante_inicial|]. by split. }
  revert Hini. induction H as [a|a b c Hab Hbc IH]; [by intros [_ ?]|].
  intros [Hinv Hum]. apply IH. split.
  - by eapply invariante_passo.
  - by eapply umPorRegistro_passo.
Qed.

(** X16. A job that is marked as done holds exactly one result for each
    record of the batch, with the digits of the [cpf] of the record,
    whatever the order in which the lookups finished. *)
Theorem lote_concluido_resultados dados bancos e :
  alcancavel dados bancos e → status (lote e) = Concluido →
  Some ∘ r_cpf <$> resultados (lote e) ≡ₚ cpfDe <$> dados ∧
  length (resultados (lote e)) = length dados.
Proof.
  intros Halc Hst.
  destruct (umPorRegistro_alcancavel _ _ _ Halc) as [Hc Hp].
  destruct (invariante_alcancavel _ _ _ Halc) as [(_ & _ & _ & Hfim) Hd].
  destruct (Hfim Hst) as [Hnil Hi]. specialize (Hp (Hc Hst)).
  rewrite Hnil, Hd in Hp. cbn [fmap list_fmap] in Hp. rewrite app_nil_r in Hp.
  rewrite Hd in Hi. rewrite take_ge in Hp by done.
  split; [done|]. apply Permutation_length in Hp. by rewrite !length_fmap in Hp.
Qed.

Lemma lote_concluido_resultados_witness :
  let e := executar 52 Exemplos.oraculo (inicial Exemplos.dados25 ["v8"]) in
  Some ∘ r_cpf <$> resultados (lote e) ≡ₚ cpfDe <$> Exemplos.dados25 ∧
  length (resultados (lote e)) = length Exemplos.dados25.
Proof.
  apply (lote_concluido_resultados Exemplos.dados25 ["v8"]).
  - apply executar_alcanca.
  - vm_compute. reflexivity.
Defined.

(** X17. A batch that holds a record whose [cpf] is not a string is
    never marked as done: in every state its run goes through the status
    is still [processando]. *)
Theorem lote_sem_cpf_nao_conclui dados bancos e item :
  item ∈ dados → cpf item = None →
  alcancavel dados bancos e → status (lote e) = Processando.
Proof.
  intros Hin Hcpf Halc. destruct (status (lote e)) eqn:Hst; [done|].
  destruct (umPorRegistro_alcancavel _ _ _ Halc) as [Hc Hp].
  destruct (invariante_alcancavel _ _ _ Halc) as [(_ & _ & _ & Hfim) Hd].
  destruct (Hfim Hst) as [Hnil Hi]. specialize (Hp (Hc Hst)).
  rewrite Hnil, Hd in Hp. cbn [fmap list_fmap] in Hp. rewrite app_nil_r in Hp.
  rewrite Hd in Hi. rewrite take_ge in Hp by done.
  assert (None ∈ cpfDe <$> dados) as Hnone.
  { apply list_elem_of_fmap. exists item. unfold cpfDe. by rewrite Hcpf. }
  rewrite <- Hp in Hnone. apply list_elem_of_fmap in Hnone as (r & Hr & _). done.
Qed.

Lemma lote_sem_cpf_nao_conclui_witness :
  status (lote (executar 9 Exemplos.oraculo
                  (inicial [Exemplos.registro 1; mkItem None (Some "11") "1990-01-01";
                            Exemplos.registro 3] ["v8"])))
  = Processando.
Proof.
  apply (lote_sem_cpf_nao_conclui
           [Exemplos.registro 1; mkItem None (Some "11") "1990-01-01"; Exemplos.registro 3]
           ["v8"] _ (mkItem None (Some "11") "1990-01-01")).
  - apply elem_of_cons. right. apply elem_of_cons. by left.
  - reflexivity.
  - apply executar_alcanca.
Defined.

End LotesResultados.
(* ===================================================================== *)
(** ** Readers, profiles and logins of the store                         *)
(* ===================================================================== *)

Section ContasLogins.
Import Database Contas.

Lemma verifyPassword_hash password : verifyPassword password (hashPassword password) = true.
Proof. unfold verifyPassword. by apply bool_decide_eq_true. Qed.

Lemma list_find_snoc {A} (P : A → Prop) `{∀ x, Decision (P x)} (l : list A) x :
  list_find P l = None → P x → list_find P (l ++ [x]) = Some (length l, x).
Proof.
  intros Hnone HP. rewrite list_find_app_r by done. simpl.
  by rewrite decide_True.
Qed.

Lemma toLowerCase_vazio s : Js.toLowerCase s = EmptyString → s = EmptyString.
Proof. by destruct s. Qed.

Lemma createLogin_inv gravou agora username password ambienteId perfilId disco disco' login :
  createLogin gravou agora username password ambienteId perfilId disco = (disco', Exito login) →
  Js.truthy (aparar username) = true ∧
  list_find (mesmoUsername (Js.toLowerCase (aparar username))) (logins disco) = None ∧
  is_Some (list_find (λ a, Ambiente.id a = ambienteId) (ambientes disco)) ∧
  (∀ pid, perfilIdNormalizado perfilId = Some pid →
          is_Some (list_find (λ p, Perfil.id p = pid) (perfis disco))) ∧
  login = novoLogin agora (aparar username) password ambienteId (perfilIdNormalizado perfilId) ∧
  disco' = set_logins (logins disco ++ [login]) disco ∧
  gravou = true.
Proof.
  unfold createLogin, loadDatabase.
  destruct (Js.truthy (aparar username)) eqn:Hu; simpl; [|done].
  destruct (list_find (mesmoUsername _) _) eqn:Hl; [done|].
  destruct (list_find (λ a, Ambiente.id a = ambienteId) _) eqn:Ha; [|done].
  destruct (perfilIdNormalizado perfilId) as [pid|] eqn:Hp.
  - destruct (list_find (λ p, Perfil.id p = pid) _) eqn:Hf; [|done].
    destruct gravou; simpl; [|done]. intros [= <- <-].
    split_and!; try done. intros ? [= <-]. by rewrite Hf.
  - destruct gravou; simpl; [|done]. intros [= <- <-]. by split_and!.
Qed.

Lemma usernameNormalizado_aparar username :
  Js.truthy (aparar username) = true →
  usernameNormalizado username = Js.toLowerCase (aparar username).
Proof.
  unfold usernameNormalizado, aparar. by destruct (Js.truthy username).
Qed.

(** X1. A login that [createLogin] has created authenticates with the
    user name and the password it was created with: [authenticateLogin]
    on the store written answers [PERFIL_INACTIVE] when the profile given
    is inactive, else [AMBIENTE_INACTIVE] when the environment is, and
    else succeeds with the new login, its profile and its environment. *)
Theorem createLogin_authenticateLogin gravou agora username password ambienteId perfilId
    disco disco' login :
  createLogin gravou agora username password ambienteId perfilId disco
    = (disco', Exito login) →
  ∃ ambiente,
    getAmbiente ambienteId disco = Some ambiente ∧
    perfilDoLogin login disco'
      = (perfilIdNormalizado perfilId ≫= λ pid, getPerfil pid disco) ∧
    authenticateLogin username password disco' =
      if match perfilDoLogin login disco' with
         | Some p => negb (Perfil.ativo p)
         | None => false
         end
      then Falha PerfilAssociadoInativo
      else if negb (Ambiente.ativo ambiente) then Falha AmbienteAssociadoInativo
      else Sucesso (mkAutenticado login (perfilDoLogin login disco') ambiente).
Proof.
  intros (Hu & Hnone & [[i ambiente] Ha] & Hp & -> & -> & ->)%createLogin_inv.
  exists ambiente. split_and!.
  - unfold getAmbiente, loadDatabase. by rewrite Ha.
  - unfold perfilDoLogin, getPerfil, loadDatabase. simpl.
    destruct (perfilIdNormalizado perfilId) as [pid|] eqn:Hpid; [|done]. simpl.
    assert (Js.truthy pid = true) as ->; [|done].
    unfold perfilIdNormalizado in Hpid.
    destruct perfilId as [p|]; [|done]. destruct (Js.truthy p); [|done].
    destruct (String.eqb_spec (Js.trim p) EmptyString) as [|Hne]; [done|].
    simpl in Hpid. injection Hpid as <-. by apply truthy_true.
  - unfold authenticateLogin, loadDatabase.
    rewrite (usernameNormalizado_aparar _ Hu).
    cbn [logins set_logins]. rewrite (list_find_snoc _ _ _ Hnone) by done.
    cbn [novoLogin Login.ativo Login.passwordHash Login.ambienteId negb].
    rewrite verifyPassword_hash. cbn [negb ambientes set_logins]. by rewrite Ha.
Qed.


Lemma createLogin_authenticateLogin_witness :
  ∃ disco' login,
    createLogin true 1700000001000 "  Bia " "s3nha" "ambiente-1700000000500" (Some "perfil-1")
      Casos.disco = (disco', Exito login) ∧
    ∃ ambiente,
      getAmbiente "ambiente-1700000000500" Casos.disco = Some ambiente ∧
      perfilDoLogin login disco'
        = (perfilIdNormalizado (Some "perfil-1") ≫= λ pid, getPerfil pid Casos.disco) ∧
      authenticateLogin "  Bia " "s3nha" disco' =
        if match perfilDoLogin login disco' with
           | Some p => negb (Perfil.ativo p)
           | None => false
           end
        then Falha PerfilAssociadoInativo
        else if negb (Ambiente.ativo ambiente) then Falha AmbienteAssociadoInativo
        else Sucesso (mkAutenticado login (perfilDoLogin login disco') ambiente).
Proof.
  eexists _, _. split; [vm_compute; reflexivity|].
  eapply (createLogin_authenticateLogin true 1700000001000 "  Bia " "s3nha").
  vm_compute. reflexivity.
Defined.

(** The login [Bia] created above logs in as [bia]. *)
Example createLogin_bia :
  let r := createLogin true 1700000001000 "  Bia " "s3nha" "ambiente-1700000000500"
             (Some "perfil-1") Casos.disco in
  Login.username <$> logins r.1 = ["Ana"; "Rui"; "Lia"; "Bia"] ∧
  Database.success (authenticateLogin "BIA" "s3nha" r.1) = true ∧
  authenticateLogin "bia" "outra" r.1 = Falha Database.SenhaIncorreta.
Proof. vm_compute. done. Qed.


End ContasLogins.

Section ContasInvariantes.
Import Database Contas.




Lemma atualizado_id agora loginId dados db login login' :
  atualizado agora loginId dados db login = Exito login' →
  Login.id login' = Login.id login.
Proof.
  unfold atualizado. intros H.
  repeat match type of H with
  | (_ ≫= _) = _ => unfold mbind, seguir in H
  | context [match ?x with _ => _ end] => destruct x eqn:?; simplify_eq/=
  end; done.
Qed.




(** A login cannot take the user name of another, whatever the case of
    the letters; with two logins of the same id the check of [updateLogin]
    skips both, and the name is taken twice. *)
Example updateLogin_username_repetido :
  (updateLogin true 1700000001000 "login-1700000000700"
     (mkDadosLogin (Some "ANA ") None None None None) Casos.disco).2
  = Fracasso (LoginJaExiste "ANA") ∧
  let gemeos :=
    set_logins [Exemplos.login_ana;
                Login.mk "login-1700000000001" "Rui" Exemplos.hash_segredo
                  "ambiente-1700000000500" None 1700000000001 1700000000001 true]
      Casos.disco in
  Login.username <$>
    logins (updateLogin true 1700000001000 "login-1700000000001"
              (mkDadosLogin (Some "rui") None None None None) gemeos).1
  = ["rui"; "Rui"].
Proof. vm_compute. done. Qed.

End ContasInvariantes.

Section ContasPedidos.
Import Database Contas.



(** The converse fails: of the operations only [updateBancosPermitidos],
    [deleteAmbiente] and [createLogin] look at the result of
    [saveDatabase]; the others answer [success: true] when the file could
    not be written. *)
Example pedido_aceito_sem_gravacao :
  atender false 1700000001000 (PedidoDeleteLogin "login-1700000000700") Casos.disco
  = (Casos.disco, true) ∧
  atender false 1700000001000 (PedidoCreatePerfil "Novo" []) Casos.disco
  = (Casos.disco, true) ∧
  atender false 1700000001000
    (PedidoCreateLogin "bia" "x" "ambiente-1700000000500" None) Casos.disco
  = (Casos.disco, false).
Proof. vm_compute. done. Qed.

End ContasPedidos.

Section ContasComposicao.
Import Database Contas.

(** *** [find] on an array after [splice] and after an update in place *)


Lemma list_find_delete_chave {A B} `{EqDecision B} (f : A → B) (l : list A) i y :
  NoDup (f <$> l) → l !! i = Some y →
  list_find (λ x, f x = f y) (delete i l) = None.
Proof.
  intros Hnd Hi. apply list_find_None, Forall_forall. intros x Hx Heq.
  apply elem_of_delete_lookup in Hx as (j & Hji & Hj). apply Hji.
  eapply NoDup_lookup; [exact Hnd|..]; rewrite list_lookup_fmap.
  - by rewrite Hj.
  - by rewrite Hi, Heq.
Qed.

Lemma list_find_chave {A B} `{EqDecision B} (f : A → B) (l : list A) i y :
  NoDup (f <$> l) → l !! i = Some y →
  list_find (λ x, f x = f y) l = Some (i, y).
Proof.
  intros Hnd Hi. apply list_find_Some. split_and!; [done..|].
  intros j z Hj Hlt Heq. assert (j = i); [|lia].
  eapply NoDup_lookup; [exact Hnd|..]; rewrite list_lookup_fmap.
  - by rewrite Hj.
  - by rewrite Hi, Heq.
Qed.

Lemma list_find_insert {A} (P : A → Prop) `{∀ x, Decision (P x)} (l : list A) i x x' :
  list_find P l = Some (i, x) → P x' →
  list_find P (<[i:=x']> l) = Some (i, x').
Proof.
  intros (Hi & HP & Hmin)%list_find_Some HP'. apply list_find_Some. split_and!.
  - apply list_lookup_insert_eq. by eapply lookup_lt_Some.
  - done.
  - intros j y Hj Hlt. rewrite list_lookup_insert_ne in Hj by lia. by eapply Hmin.
Qed.

(** What a successful [authenticateLogin] has checked. *)
Lemma authenticateLogin_inv username password disco au :
  authenticateLogin username password disco = Sucesso au →
  ∃ i j,
    list_find (mesmoUsername (usernameNormalizado username)) (logins disco)
      = Some (i, au_login au) ∧
    Login.ativo (au_login au) = true ∧
    verifyPassword password (Login.passwordHash (au_login au)) = true ∧
    au_perfil au = perfilDoLogin (au_login au) disco ∧
    match au_perfil au with Some p => Perfil.ativo p = true | None => True end ∧
    list_find (λ a, Ambiente.id a = Login.ambienteId (au_login au)) (ambientes disco)
      = Some (j, au_ambiente au) ∧
    Ambiente.ativo (au_ambiente au) = true.
Proof.
  unfold authenticateLogin, loadDatabase.
  destruct (list_find (mesmoUsername _) _) as [[i login]|] eqn:Hl; [|done].
  destruct (Login.ativo login) eqn:Hat; simpl; [|done].
  destruct (verifyPassword _ _) eqn:Hv; simpl; [|done].
  destruct (match perfilDoLogin login disco with Some _ => _ | None => _ end) eqn:Hp; [done|].
  destruct (list_find (λ a, Ambiente.id a = _) _) as [[j a]|] eqn:Ha; [|done].
  destruct (Ambiente.ativo a) eqn:Haa; simpl; [|done].
  intros [= <-]. exists i, j. simpl. split_and!; try done.
  destruct (perfilDoLogin login disco) as [p|]; [|done]. by destruct (Perfil.ativo p).
Qed.




(** [Rui], whose profile is inactive, is refused; once the profile is
    deleted he authenticates, with no profile. *)
Example deletePerfil_libera_rui :
  authenticateLogin "rui" "segredo" Casos.disco = Falha PerfilAssociadoInativo ∧
  authenticateLogin "rui" "segredo" (deletePerfil true "perfil-2" Casos.disco).1
  = Sucesso (mkAutenticado Casos.login_rui None Casos.amb_loja).
Proof. vm_compute. done. Qed.

(** X5. Deleting an environment leaves its logins in the store: with
    distinct environment ids, a user who could authenticate is answered
    [AMBIENTE_NOT_FOUND] once [deleteAmbiente] has written the store. *)
Theorem deleteAmbiente_authenticateLogin pasta username password disco au :
  NoDup (Ambiente.id <$> ambientes disco) →
  authenticateLogin username password disco = Sucesso au →
  let disco' := (deleteAmbiente true pasta (Ambiente.id (au_ambiente au)) disco).1 in
  logins disco' = logins disco ∧
  authenticateLogin username password disco' = Falha AmbienteAssociadoNaoEncontrado.
Proof.
  intros Hnd (i & j & Hlogin & Hat & Hv & Hp & Hpa & Hamb & Haa)%authenticateLogin_inv.
  apply list_find_Some in Hamb as (Hj & Hid & _).
  pose proof (list_find_chave Ambiente.id _ _ _ Hnd Hj) as Hfind.
  unfold deleteAmbiente, loadDatabase. rewrite Hfind. simpl.
  assert (∀ r : Database.t * Resultado Deletado,
            r.1 = set_ambientes (delete j (ambientes disco)) disco →
            logins r.1 = logins disco ∧
            authenticateLogin username password r.1 = Falha AmbienteAssociadoNaoEncontrado)
    as Hgeral.
  { intros r ->. split; [done|].
    unfold authenticateLogin, loadDatabase. simpl. rewrite Hlogin, Hat, Hv. simpl.
    change (perfilDoLogin (au_login au) (set_ambientes _ disco))
      with (perfilDoLogin (au_login au) disco).
    rewrite <- Hp. destruct (au_perfil au) as [p|]; [rewrite Hpa|]; simpl;
      rewrite <- Hid; by rewrite (list_find_delete_chave Ambiente.id _ _ _ Hnd Hj). }
  by destruct (pasta _) as [|[e|]]; apply Hgeral.
Qed.

Lemma deleteAmbiente_authenticateLogin_witness :
  let disco' := (deleteAmbiente true Exemplos.pasta_presa "ambiente-1700000000500"
                   Casos.disco).1 in
  logins disco' = logins Casos.disco ∧
  authenticateLogin "Lia" "segredo" disco' = Falha AmbienteAssociadoNaoEncontrado.
Proof.
  apply (deleteAmbiente_authenticateLogin Exemplos.pasta_presa "Lia" "segredo" Casos.disco
           (mkAutenticado Casos.login_lia (Some (Exemplos.perfil true)) Casos.amb_loja)).
  - apply (bool_decide_unpack _). vm_compute. exact I.
  - vm_compute. reflexivity.
Defined.

End ContasComposicao.

Section ContasAtualizacao.
Import Database Contas.

(** X6. With distinct login ids, a user who could authenticate can do
    so with a new password once [updateLogin] has written it, and is
    answered [USER_INACTIVE] once [updateLogin] has deactivated the
    login. *)
Theorem updateLogin_authenticateLogin agora username password disco au :
  NoDup (Login.id <$> logins disco) →
  authenticateLogin username password disco = Sucesso au →
  let login := au_login au in
  let dados senha ativo := mkDadosLogin None senha None None ativo in
  (∀ nova,
     authenticateLogin username nova
       (updateLogin true agora (Login.id login) (dados (Some nova) None) disco).1
     = Sucesso (mkAutenticado
                  (Login.mk (Login.id login) (Login.username login) (hashPassword nova)
                     (Login.ambienteId login) (Login.perfilId login) (Login.criadoEm login)
                     agora true)
                  (au_perfil au) (au_ambiente au))) ∧
  authenticateLogin username password
    (updateLogin true agora (Login.id login) (dados None (Some false)) disco).1
  = Falha UsuarioInativo.
Proof.
  intros Hnd (i & j & Hlogin & Hat & Hv & Hp & Hpa & Hamb & Haa)%authenticateLogin_inv.
  intros login dados. fold login in Hlogin, Hat, Hv, Hp, Hamb.
  pose proof Hlogin as (Hi & Hmesmo & _)%list_find_Some.
  pose proof (list_find_chave Login.id _ _ _ Hnd Hi) as Hfind.
  assert (∀ senha ativo,
            updateLogin true agora (Login.id login) (dados senha ativo) disco
            = let login' :=
                Login.mk (Login.id login) (Login.username login)
                  (match senha with
                   | Some p => hashPassword p
                   | None => Login.passwordHash login
                   end)
                  (Login.ambienteId login) (Login.perfilId login) (Login.criadoEm login)
                  agora (default (Login.ativo login) ativo) in
              (set_logins (<[i:=login']> (logins disco)) disco, Exito login')) as Hup.
  { intros senha ativo. unfold updateLogin, loadDatabase. by rewrite Hfind. }
  split.
  - intros nova. rewrite Hup. cbn [fst]. unfold authenticateLogin, loadDatabase.
    cbn [logins set_logins].
    erewrite list_find_insert; [|exact Hlogin|exact Hmesmo].
    cbn [Login.ativo Login.passwordHash Login.ambienteId default]. rewrite Hat.
    rewrite verifyPassword_hash. cbn [negb].
    change (perfilDoLogin _ (set_logins _ disco)) with (perfilDoLogin login disco).
    rewrite <- Hp. cbn [ambientes set_logins]. rewrite Hamb, Haa.
    destruct (au_perfil au) as [p|]; [by rewrite Hpa|done].
  - rewrite Hup. cbn [fst]. unfold authenticateLogin, loadDatabase.
    cbn [logins set_logins].
    erewrite list_find_insert; [|exact Hlogin|exact Hmesmo]. done.
Qed.

Lemma updateLogin_authenticateLogin_witness :
  let dados senha ativo := mkDadosLogin None senha None None ativo in
  (∀ nova,
     authenticateLogin "lia" nova
       (updateLogin true 1700000002000 "login-1700000000800" (dados (Some nova) None)
          Casos.disco).1
     = Sucesso (mkAutenticado
                  (Login.mk "login-1700000000800" "Lia" (hashPassword nova)
                     "ambiente-1700000000500" (Some "perfil-1") 1700000000800
                     1700000002000 true)
                  (Some (Exemplos.perfil true)) Casos.amb_loja)) ∧
  authenticateLogin "lia" "segredo"
    (updateLogin true 1700000002000 "login-1700000000800" (dados None (Some false))
       Casos.disco).1
  = Falha UsuarioInativo.
Proof.
  apply (updateLogin_authenticateLogin 1700000002000 "lia" "segredo" Casos.disco
           (mkAutenticado Casos.login_lia (Some (Exemplos.perfil true)) Casos.amb_loja)).
  - apply (bool_decide_unpack _). vm_compute. exact I.
  - vm_compute. reflexivity.
Defined.

(** X7. [authenticateAmbiente] does not look at the [ativo] flag:
    activating or deactivating an environment with [updateAmbiente]
    changes nothing to its answer, so the owner of a deactivated
    environment still authenticates. *)
Theorem authenticateAmbiente_ignora_ativo gravou agora ambienteId username password b disco :
  authenticateAmbiente ambienteId username password
    (updateAmbiente gravou agora ambienteId (mkDados None None (Some b)) disco).1
  = authenticateAmbiente ambienteId username password disco.
Proof.
  unfold updateAmbiente, loadDatabase. cbn [d_nome d_pipelineKentro d_ativo].
  destruct (list_find (λ a, Ambiente.id a = ambienteId) (ambientes disco))
    as [[i a]|] eqn:Hf; [|done].
  destruct gravou; [|done]. cbn [saveDatabase fst].
  unfold authenticateAmbiente, getAmbiente, loadDatabase. cbn [ambientes set_ambientes].
  erewrite list_find_insert; [|exact Hf|]; [|by apply list_find_Some in Hf as (_ & ? & _)].
  by rewrite Hf.
Qed.

(** The owner of [QA], which is deactivated, authenticates; the login
    [Ana] of the same environment does not. *)
Example authenticateAmbiente_inativo :
  success (authenticateAmbiente "ambiente-1700000000000" "ana" "segredo" Casos.disco) = true ∧
  authenticateLogin "ana" "segredo" Casos.disco = Falha AmbienteAssociadoInativo.
Proof. vm_compute. done. Qed.

(** X8. An environment that [createAmbiente] has stored is the one
    [getAmbiente] finds under the id returned, and its owner authenticates
    with the user name and password given, provided no earlier record has
    that id (the id is made from the clock). *)
Theorem createAmbiente_getAmbiente agora nome porta username password bancos pipeline
    disco disco' criado :
  createAmbiente true agora nome porta username password bancos pipeline disco
    = (disco', Sucesso criado) →
  (∀ a, a ∈ ambientes disco → Ambiente.id a ≠ c_id criado) →
  getAmbiente (c_id criado) disco'
    = Some (novoAmbiente agora nome porta username password bancos) ∧
  authenticateAmbiente (c_id criado) username password disco'
    = Exito (mkAmbienteAutenticado (c_id criado) nome porta bancos).
Proof.
  unfold createAmbiente, loadDatabase.
  destruct (list_find (λ a, Ambiente.porta a = porta) _); [done|].
  destruct (list_find (λ a, Ambiente.nome a = nome) _); [done|].
  cbn [saveDatabase]. intros [= <- <-] Hnovo. cbn [c_id] in *.
  assert (getAmbiente (Ambiente.id (novoAmbiente agora nome porta username password bancos))
            (set_ambientes
               (ambientes disco ++ [novoAmbiente agora nome porta username password bancos])
               disco)
          = Some (novoAmbiente agora nome porta username password bancos)) as Hget.
  { unfold getAmbiente, loadDatabase. cbn [ambientes set_ambientes].
    rewrite list_find_snoc; [done| |done].
    apply list_find_None, Forall_forall. intros a Ha. by apply Hnovo. }
  change (Ambiente.id (novoAmbiente agora nome porta username password bancos))
    with ("ambiente-" +:+ Js.numero agora) in Hget.
  split; [done|]. unfold authenticateAmbiente. rewrite Hget.
  cbn [novoAmbiente Ambiente.username Ambiente.passwordHash Ambiente.id Ambiente.nome
       Ambiente.porta Ambiente.bancosPermitidos].
  by rewrite String.eqb_refl, verifyPassword_hash.
Qed.

Lemma createAmbiente_getAmbiente_witness :
  ∃ disco' criado,
    createAmbiente true 1700000003000 "Filial" 5020 "eva" "s3nha" ["v8"] None Casos.disco
      = (disco', Sucesso criado) ∧
    getAmbiente (c_id criado) disco'
      = Some (novoAmbiente 1700000003000 "Filial" 5020 "eva" "s3nha" ["v8"]) ∧
    authenticateAmbiente (c_id criado) "eva" "s3nha" disco'
      = Exito (mkAmbienteAutenticado (c_id criado) "Filial" 5020 ["v8"]).
Proof.
  eexists _, _. split; [vm_compute; reflexivity|].
  eapply (createAmbiente_getAmbiente 1700000003000 "Filial" 5020 "eva" "s3nha" ["v8"] None
            Casos.disco).
  - vm_compute. reflexivity.
  - intros a Ha. vm_compute in Ha.
    repeat (apply elem_of_cons in Ha as [->|Ha]; [vm_compute; discriminate|]).
    by apply elem_of_nil in Ha.
Defined.

(** Two environments created within the same millisecond get the same
    id, and [getAmbiente] finds the first. *)
Example createAmbiente_mesmo_instante :
  let d1 := (createAmbiente true 1700000003000 "Filial" 5020 "eva" "s3nha" [] None
               Casos.disco).1 in
  let d2 := (createAmbiente true 1700000003000 "Matriz" 5021 "ivo" "s3nha" [] None d1).1 in
  Ambiente.id <$> ambientes d2
  = ["ambiente-1700000000000"; "ambiente-1700000000500";
     "ambiente-1700000003000"; "ambiente-1700000003000"] ∧
  Ambiente.nome <$> getAmbiente "ambiente-1700000003000" d2 = Some "Filial" ∧
  authenticateAmbiente "ambiente-1700000003000" "ivo" "s3nha" d2 = Fracasso UsuarioIncorreto.
Proof. vm_compute. done. Qed.

(** X9. When [updateBancosPermitidos] answers with success the store
    was written, [getAmbiente] finds the record returned under the same
    id, the record has the new list of banks and the new date, and
    nothing else changed in it or in the store. *)
Theorem updateBancosPermitidos_getAmbiente gravou agora ambienteId bancos disco disco' a' :
  updateBancosPermitidos gravou agora ambienteId bancos disco = (disco', Sucesso a') →
  gravou = true ∧
  getAmbiente ambienteId disco' = Some a' ∧
  ∃ i a,
    list_find (λ a, Ambiente.id a = ambienteId) (ambientes disco) = Some (i, a) ∧
    a' = Ambiente.set_atualizadoEm agora (Ambiente.set_bancosPermitidos bancos a) ∧
    ambientes disco' = <[i:=a']> (ambientes disco) ∧
    perfis disco' = perfis disco ∧ logins disco' = logins disco.
Proof.
  unfold updateBancosPermitidos, loadDatabase.
  destruct (list_find _ _) as [[i a]|] eqn:Hf; [|done].
  destruct gravou; [|done]. cbn [saveDatabase negb]. intros [= <- <-].
  split; [done|]. split.
  - unfold getAmbiente, loadDatabase. cbn [ambientes set_ambientes].
    erewrite list_find_insert; [done|exact Hf|].
    by apply list_find_Some in Hf as (_ & ? & _).
  - by exists i, a.
Qed.

Lemma updateBancosPermitidos_getAmbiente_witness :
  let a' :=
    Ambiente.set_atualizadoEm 1700000004000
      (Ambiente.set_bancosPermitidos ["presencabank"] Casos.amb_loja) in
  let disco' := set_ambientes [Exemplos.amb_qa; a'] Casos.disco in
  true = true ∧
  getAmbiente "ambiente-1700000000500" disco' = Some a' ∧
  ∃ i a,
    list_find (λ a, Ambiente.id a = "ambiente-1700000000500") (ambientes Casos.disco)
      = Some (i, a) ∧
    a' = Ambiente.set_atualizadoEm 1700000004000
           (Ambiente.set_bancosPermitidos ["presencabank"] a) ∧
    ambientes disco' = <[i:=a']> (ambientes Casos.disco) ∧
    perfis disco' = perfis Casos.disco ∧ logins disco' = logins Casos.disco.
Proof.
  intros a' disco'.
  apply (updateBancosPermitidos_getAmbiente true 1700000004000 "ambiente-1700000000500"
           ["presencabank"] Casos.disco disco' a').
  vm_compute. reflexivity.
Defined.

End ContasAtualizacao.

Section ContasPerfis.
Import Database Contas.

Lemma valor_map (f : string → bool) (chaves : list string) chave :
  valor chave (map (λ c, (c, f c)) chaves)
  = if bool_decide (chave ∈ chaves) then Some (f chave) else None.
Proof.
  induction chaves as [|c chaves IH]; [done|]. cbn [map valor].
  destruct (String.eqb_spec c chave) as [->|Hne].
  - by rewrite bool_decide_eq_true_2 by left.
  - rewrite IH. case_bool_decide as H1; case_bool_decide as H2; try done.
    + destruct H2. by right.
    + apply elem_of_cons in H2 as [->|?]; done.
Qed.

Lemma valor_atribuir chave c v permissoes :
  valor chave (atribuir c v permissoes)
  = if String.eqb c chave then Some v else valor chave permissoes.
Proof.
  induction permissoes as [|[k x] r IH]; cbn [atribuir valor].
  - by destruct (String.eqb c chave).
  - destruct (String.eqb_spec k c) as [->|Hkc]; cbn [valor].
    + by destruct (String.eqb c chave).
    + destruct (String.eqb_spec k chave) as [->|Hk].
      * destruct (String.eqb_spec c chave) as [->|]; done.
      * done.
Qed.

Lemma valor_None chave permissoes :
  chave ∉ permissoes.*1 → valor chave permissoes = None.
Proof.
  induction permissoes as [|[k x] r IH]; [done|]. cbn [valor fmap list_fmap fst].
  intros Hnin. destruct (String.eqb_spec k chave) as [->|].
  - destruct Hnin. by left.
  - apply IH. intros ?. apply Hnin. by right.
Qed.

Lemma valor_mesclar chave (a b : list (string * bool)) :
  NoDup b.*1 →
  valor chave (mesclar a b)
  = match valor chave b with Some v => Some v | None => valor chave a end.
Proof.
  unfold mesclar. revert a. induction b as [|[c v] b IH]; intros a Hnd; [done|].
  cbn [fmap list_fmap fst] in Hnd.
  apply NoDup_cons in Hnd as [Hc Hnd]. cbn [fold_left fst snd valor].
  rewrite IH by done. rewrite valor_atribuir.
  destruct (String.eqb_spec c chave) as [->|]; [|done].
  by rewrite (valor_None _ _ Hc).
Qed.

Lemma chaves_atribuir c v permissoes k :
  k ∈ permissoes.*1 → k ∈ (atribuir c v permissoes).*1.
Proof.
  induction permissoes as [|[k' x] r IH]; [by intros ?%elem_of_nil|].
  cbn [atribuir fmap list_fmap fst]. intros [->|Hk]%elem_of_cons.
  - destruct (String.eqb k' c); by left.
  - destruct (String.eqb k' c); right; [done|]. by apply IH.
Qed.

Lemma chaves_mesclar (a b : list (string * bool)) k :
  k ∈ a.*1 → k ∈ (mesclar a b).*1.
Proof.
  unfold mesclar. revert a. induction b as [|[c v] b IH]; intros a Hk; [done|].
  cbn [fold_left fst snd]. by apply IH, chaves_atribuir.
Qed.

(** X10. A profile that [createPerfil] returns has the eleven
    permission keys of the source and no other, in their order: each has
    the value given for it, or [false] when none is given, and a key of
    the request outside the eleven is dropped. The profile is active, and
    it is the last of the store when the store is written. *)
Theorem createPerfil_permissoes gravou agora nome permissoes disco disco' perfil :
  createPerfil gravou agora nome permissoes disco = (disco', Exito perfil) →
  (Perfil.permissoes perfil).*1 = chavesPermissoes ∧
  (∀ chave,
     valor chave (Perfil.permissoes perfil)
     = if bool_decide (chave ∈ chavesPermissoes)
       then Some (default false (valor chave permissoes)) else None) ∧
  Perfil.nome perfil = nome ∧ Perfil.ativo perfil = true ∧
  (gravou = true → perfis disco' = perfis disco ++ [perfil]).
Proof.
  unfold createPerfil, loadDatabase.
  destruct (list_find _ _); [done|].
  intros Heq.
  assert (perfil = novoPerfil agora nome permissoes ∧
          (gravou = true → perfis disco' = perfis disco ++ [perfil])) as [-> Hd].
  { destruct gravou; cbn [saveDatabase] in Heq; injection Heq as <- <-; by split. }
  split_and!; try done. intros chave.
  apply (valor_map (λ c, default false (valor c permissoes))).
Qed.

Lemma createPerfil_permissoes_witness :
  ∃ disco' perfil,
    createPerfil true 1700000005000 "Caixa" [("clt_lote", true); ("root", true)] Casos.disco
      = (disco', Exito perfil) ∧
    (Perfil.permissoes perfil).*1 = chavesPermissoes ∧
    (∀ chave,
       valor chave (Perfil.permissoes perfil)
       = if bool_decide (chave ∈ chavesPermissoes)
         then Some (default false (valor chave [("clt_lote", true); ("root", true)]))
         else None) ∧
    Perfil.nome perfil = "Caixa" ∧ Perfil.ativo perfil = true ∧
    (true = true → perfis disco' = perfis Casos.disco ++ [perfil]).
Proof.
  eexists _, _. split; [vm_compute; reflexivity|].
  eapply (createPerfil_permissoes true 1700000005000 "Caixa"
            [("clt_lote", true); ("root", true)] Casos.disco).
  vm_compute. reflexivity.
Defined.

(** X11. [updatePerfil] merges the permissions given into those of
    the profile: a key of the request (an object, so with distinct keys)
    takes the value given, every other key keeps its value, and no key is
    removed. *)
Theorem updatePerfil_mescla gravou agora perfilId dados novas disco disco' perfil' :
  dp_permissoes dados = Some novas → NoDup novas.*1 →
  updatePerfil gravou agora perfilId dados disco = (disco', Exito perfil') →
  ∃ i perfil,
    list_find (λ p, Perfil.id p = perfilId) (perfis disco) = Some (i, perfil) ∧
    (∀ chave,
       valor chave (Perfil.permissoes perfil')
       = match valor chave novas with
         | Some v => Some v
         | None => valor chave (Perfil.permissoes perfil)
         end) ∧
    (∀ chave, chave ∈ (Perfil.permissoes perfil).*1 →
              chave ∈ (Perfil.permissoes perfil').*1).
Proof.
  intros Hnovas Hnd. unfold updatePerfil, loadDatabase.
  destruct (list_find (λ p, Perfil.id p = perfilId) _) as [[i perfil]|]; [|done].
  rewrite Hnovas. intros Heq. exists i, perfil. split; [done|].
  assert (Perfil.permissoes perfil' = mesclar (Perfil.permissoes perfil) novas) as ->.
  { destruct (dp_nome dados) as [n|].
    - destruct (list_find _ _); [done|]. cbn in Heq. by destruct gravou; simplify_eq/=.
    - cbn in Heq. by destruct gravou; simplify_eq/=. }
  split; [intros; by apply valor_mesclar|intros; by apply chaves_mesclar].
Qed.

Lemma updatePerfil_mescla_witness :
  let novas := [("clt_lote", true); ("root", true)] in
  let perfil' :=
    Perfil.mk "perfil-2" "Visita" [("clt_consulta", true); ("clt_lote", true); ("root", true)]
      1700000000600 1700000006000 false in
  ∃ i perfil,
    list_find (λ p, Perfil.id p = "perfil-2") (perfis Casos.disco) = Some (i, perfil) ∧
    (∀ chave,
       valor chave (Perfil.permissoes perfil')
       = match valor chave novas with
         | Some v => Some v
         | None => valor chave (Perfil.permissoes perfil)
         end) ∧
    (∀ chave, chave ∈ (Perfil.permissoes perfil).*1 →
              chave ∈ (Perfil.permissoes perfil').*1).
Proof.
  intros novas perfil'.
  apply (updatePerfil_mescla true 1700000006000 "perfil-2"
           (mkDadosPerfil None (Some novas) None) novas Casos.disco
           (updatePerfil true 1700000006000 "perfil-2"
              (mkDadosPerfil None (Some novas) None) Casos.disco).1 perfil').
  - reflexivity.
  - apply (bool_decide_unpack _). vm_compute. exact I.
  - vm_compute. reflexivity.
Defined.

(** [createPerfil] drops the key [root] of the request; [updatePerfil]
    stores it. *)
Example perfil_chave_desconhecida :
  (Perfil.permissoes <$>
     getPerfil "perfil-1700000005000"
       (createPerfil true 1700000005000 "Caixa" [("clt_lote", true); ("root", true)]
          Casos.disco).1)
  = Some [ ("bancos_testarAPIs", false); ("bancos_gerenciarCredenciais", false);
           ("ambientes_visualizar", false); ("ambientes_sincronizar", false);
           ("ambientes_reiniciar", false); ("gerenciarAmbientes", false);
           ("gerenciarAmbientes_definirBancos", false);
           ("gerenciarAmbientes_nomearAmbiente", false);
           ("criarPerfis", false); ("clt_consulta", false); ("clt_lote", true) ] ∧
  (Perfil.permissoes <$>
     getPerfil "perfil-2"
       (updatePerfil true 1700000006000 "perfil-2"
          (mkDadosPerfil None (Some [("clt_lote", true); ("root", true)]) None)
          Casos.disco).1)
  = Some [("clt_consulta", true); ("clt_lote", true); ("root", true)].
Proof. vm_compute. done. Qed.

End ContasPerfis.
(* ===================================================================== *)
(** ** The routes [POST /login] and [POST /validar-token]                *)
(* ===================================================================== *)

Section RotasLogin.
Import Database Contas Rotas.

Lemma authenticateLogin_erros username password disco e :
  authenticateLogin username password disco = Falha e →
  e = Database.UsuarioNaoEncontrado ∨ e = UsuarioInativo ∨ e = Database.SenhaIncorreta ∨
  e = PerfilAssociadoInativo ∨ e = AmbienteAssociadoNaoEncontrado ∨
  e = AmbienteAssociadoInativo.
Proof.
  unfold authenticateLogin, loadDatabase.
  destruct (list_find _ _) as [[i login]|]; [|intros [= <-]; auto].
  destruct (negb (Login.ativo login)); [intros [= <-]; auto|].
  destruct (negb (verifyPassword _ _)); [intros [= <-]; auto|].
  destruct (match perfilDoLogin login disco with Some _ => _ | None => _ end);
    [intros [= <-]; auto 7|].
  destruct (list_find _ _) as [[j a]|]; [|intros [= <-]; auto 7].
  destruct (negb (Ambiente.ativo a)); [intros [= <-]; auto 7|done].
Qed.

Lemma authenticateAdmin_erros usuarios username password e :
  authenticateAdmin usuarios username password = Fracasso e →
  e = Contas.UsuarioNaoEncontrado ∨ e = Contas.SenhaIncorreta.
Proof.
  unfold authenticateAdmin.
  destruct (list_find _ _) as [[i u]|]; [|intros [= <-]; auto].
  destruct (negb (verifyPassword _ _)); [intros [= <-]; auto|done].
Qed.

(** X12. What [POST /login] answers when it refuses. Its code is one
    of [MISSING_CREDENTIALS], [USER_INACTIVE], [USER_NOT_FOUND],
    [INVALID_PASSWORD], [INVALID_CREDENTIALS] and [PERFIL_NOT_FOUND]: the
    codes [AMBIENTE_INACTIVE], [AMBIENTE_NOT_FOUND] and [PERFIL_INACTIVE] of
    [authenticateLogin] never reach the client. For a user name that is
    not an administrator's, an inactive login, an inactive profile and an
    inactive environment are all answered [USER_INACTIVE], and a wrong
    password, an unknown user and a missing environment are all answered
    [USER_NOT_FOUND]. *)
Theorem postLogin_recusas agora usuarios username password disco :
  (∀ status erro codigo,
     postLogin agora usuarios username password disco = Recusou status erro codigo →
     codigo ∈ ["MISSING_CREDENTIALS"; "USER_INACTIVE"; "USER_NOT_FOUND";
               "INVALID_PASSWORD"; "INVALID_CREDENTIALS"; "PERFIL_NOT_FOUND"]) ∧
  (∀ u p e,
     username = Some u → password = Some p →
     Js.truthy u = true → Js.truthy p = true →
     authenticateAdmin usuarios u p = Fracasso Contas.UsuarioNaoEncontrado →
     authenticateLogin u p disco = Falha e →
     postLogin agora usuarios username password disco
     = match e with
       | UsuarioInativo | PerfilAssociadoInativo | AmbienteAssociadoInativo =>
           Recusou 401 "Usuário inativo. Entre em contato com o administrador."
             "USER_INACTIVE"
       | _ => Recusou 401 "Usuário não encontrado" "USER_NOT_FOUND"
       end).
Proof.
  split.
  - intros status erro codigo. unfold postLogin.
    destruct username as [u|]; [|intros [= <- <- <-]; set_solver].
    destruct password as [p|]; [|intros [= <- <- <-]; set_solver].
    destruct (negb (Js.truthy u) || negb (Js.truthy p)); [intros [= <- <- <-]; set_solver|].
    destruct (authenticateAdmin usuarios u p) as [|ea] eqn:Hadmin; [done|].
    destruct (authenticateLogin u p disco) as [au|el] eqn:Hlogin.
    + apply authenticateLogin_inv in Hlogin
        as (i & j & _ & -> & _ & _ & _ & _ & ->). cbn [negb].
      destruct (_ && _); [intros [= <- <- <-]; set_solver|done].
    + apply authenticateAdmin_erros in Hadmin as [-> | ->];
        apply authenticateLogin_erros in Hlogin as [-> | [-> | [-> | [-> | [-> | ->]]]]];
        vm_compute; intros [= <- <- <-]; set_solver.
  - intros u p e -> -> Hu Hp Hadmin Hlogin. unfold postLogin.
    rewrite Hu, Hp, Hadmin, Hlogin. cbn [negb orb].
    by apply authenticateLogin_erros in Hlogin as [-> | [-> | [-> | [-> | [-> | ->]]]]].
Qed.

(** The owner of the password is told that the user does not exist when
    the password is wrong, and that the user is inactive when the
    environment is. *)
Example postLogin_exemplos :
  postLogin 1700000007000 (usuariosIniciais 0) (Some "lia") (Some "errada") Casos.disco
  = Recusou 401 "Usuário não encontrado" "USER_NOT_FOUND" ∧
  postLogin 1700000007000 (usuariosIniciais 0) (Some "ana") (Some "segredo") Casos.disco
  = Recusou 401 "Usuário inativo. Entre em contato com o administrador." "USER_INACTIVE" ∧
  postLogin 1700000007000 (usuariosIniciais 0) (Some "admin") (Some "errada") Casos.disco
  = Recusou 401 "Usuário ou senha inválidos" "INVALID_CREDENTIALS" ∧
  postLogin 1700000007000 (usuariosIniciais 0) (Some "admin") (Some "admin123") Casos.disco
  = EntrouAdmin (mkUsuarioAutenticado "admin-1" "admin" "admin")
      "admin-token-1700000007000".
Proof. vm_compute. done. Qed.

End RotasLogin.

Section RotasToken.
Import Database Contas Rotas.

Lemma split_app_geral sep (a b : string) :
  Js.split sep (a +:+ String sep b) = Js.split sep a ++ Js.split sep b.
Proof.
  induction a as [|c a IH].
  - change (EmptyString +:+ String sep b) with (String sep b). cbn [Js.split].
    by rewrite Ascii.eqb_refl.
  - rewrite string_app_cons. cbn [Js.split]. rewrite IH.
    destruct (Ascii.eqb c sep); [done|].
    pose proof (split_not_nil sep a). by destruct (Js.split sep a).
Qed.

Lemma join_split sep s : Js.join (String sep EmptyString) (Js.split sep s) = s.
Proof.
  induction s as [|c r IH]; [done|]. cbn [Js.split].
  destruct (Ascii.eqb_spec c sep) as [->|Hne].
  - pose proof (split_not_nil sep r).
    destruct (Js.split sep r) as [|x xs] eqn:E; [done|].
    cbn [Js.join]. cbn [Js.join] in IH. by rewrite IH.
  - pose proof (split_not_nil sep r).
    destruct (Js.split sep r) as [|x xs] eqn:E; [done|].
    destruct xs as [|y ys]; cbn [Js.join] in *; by rewrite <- IH.
Qed.

Lemma semPrefixo_app (p s : string) : Detector.semPrefixo (String.length p) (p +:+ s) = s.
Proof. induction p as [|c p IH]; [by destruct s|]. by rewrite string_app_cons. Qed.

Lemma removerPrimeira_prefixo (p s : string) : removerPrimeira p (p +:+ s) = s.
Proof.
  assert (∀ x, removerPrimeira p x
               = if Js.startsWith x p then Detector.semPrefixo (String.length p) x
                 else match x with
                      | EmptyString => EmptyString
                      | String c r => String c (removerPrimeira p r)
                      end) as Heq by (by intros []).
  by rewrite Heq, startsWith_app, semPrefixo_app.
Qed.

Lemma includes_numero n c :
  0 ≤ n → (∀ d, (d < 10)%N → Ascii.eqb (pretty_N_char d) c = false) →
  Js.includes (Js.numero n) c = false.
Proof.
  intros Hn Hc. destruct n as [|p|p]; [|by apply includes_pretty_N_go|lia].
  change (Js.numero 0) with (String (pretty_N_char 0) EmptyString).
  cbn [Js.includes]. rewrite Hc; [done|lia].
Qed.

Lemma hifen_nao_digito d : (d < 10)%N → Ascii.eqb (pretty_N_char d) "-" = false.
Proof.
  intros Hd.
  assert (d = 0 ∨ d = 1 ∨ d = 2 ∨ d = 3 ∨ d = 4 ∨ d = 5 ∨ d = 6 ∨ d = 7 ∨ d = 8 ∨ d = 9)%N
    as Hcasos by lia.
  repeat (destruct Hcasos as [->|Hcasos]; [reflexivity|]). by subst.
Qed.

(** The parts of a login token: the id of the login and the time. *)
Lemma tokenLogin_partes loginId t :
  0 ≤ t →
  let partes := Js.split "-" (removerPrimeira "login-token-" (tokenLogin loginId t)) in
  (2 ≤ length partes)%nat ∧
  parseInt (List.last partes EmptyString) = Some t ∧
  Js.join "-" (removelast partes) = loginId.
Proof.
  intros Ht. unfold tokenLogin. rewrite removerPrimeira_prefixo.
  change (loginId +:+ "-" +:+ Js.numero t) with (loginId +:+ String "-" (Js.numero t)).
  rewrite split_app_geral.
  rewrite (split_sem_sep _ (Js.numero t)) by (apply includes_numero, hifen_nao_digito; done).
  cbn zeta. split_and!.
  - rewrite length_app. pose proof (split_not_nil "-" loginId).
    destruct (Js.split "-" loginId); [done|cbn; lia].
  - rewrite last_last. apply parseInt_numero.
  - rewrite removelast_last. apply (join_split "-").
Qed.

Lemma startsWith_tokens loginId t :
  Js.truthy (tokenLogin loginId t) = true ∧
  Js.startsWith (tokenLogin loginId t) "Bearer " = false ∧
  Js.startsWith (tokenLogin loginId t) "admin-token-" = false ∧
  Js.startsWith (tokenLogin loginId t) "login-token-" = true ∧
  Js.truthy (tokenAdmin t) = true ∧
  Js.startsWith (tokenAdmin t) "Bearer " = false ∧
  Js.startsWith (tokenAdmin t) "admin-token-" = true.
Proof. by split_and!. Qed.

Lemma extrairToken_cabecalho token :
  Js.truthy token = true → Js.startsWith token "Bearer " = false →
  extrairToken (Some token) None None = Some token.
Proof.
  intros Ht Hb. unfold extrairToken. rewrite Ht, Hb. cbn [presente negb andb].
  rewrite Ht. cbn [presente negb andb]. by rewrite Ht.
Qed.

(** X13. A token that [POST /login] has issued to a login validates:
    with distinct login ids, [POST /validar-token] called with the token
    in the [Authorization] header, not more than a day after the login and
    on the same store, answers that the token is valid, with the login,
    the environment and the profile that [POST /login] answered. *)
Theorem token_login_ida_e_volta agora depois usuarios username password disco
    login ambiente perfil token :
  NoDup (Login.id <$> logins disco) →
  0 ≤ agora → depois - agora ≤ umDia →
  postLogin agora usuarios username password disco
    = EntrouLogin login ambiente perfil token →
  postValidarToken depois (Some token) None None disco
  = TokenLogin (lv_id login) login ambiente perfil (Perfil.permissoes <$> perfil).
Proof.
  intros Hnd Hagora Hdepois. unfold postLogin.
  destruct username as [u|]; [|done]. destruct password as [p|]; [|done].
  destruct (negb (Js.truthy u) || negb (Js.truthy p)); [done|].
  destruct (authenticateAdmin usuarios u p); [done|].
  destruct (authenticateLogin u p disco) as [au|el] eqn:Hlogin;
    [|by repeat destruct (_ && _); try destruct (contem _ _)].
  apply authenticateLogin_inv in Hlogin
    as (i & j & Hl & Hat & _ & Hperfil & Hpa & Ha & Haa).
  rewrite Hat, Haa. cbn [negb].
  destruct (presente (Login.perfilId (au_login au)) && _) eqn:Hpres; [done|].
  intros [= <- <- <- <-]. cbn [lv_id].
  destruct (startsWith_tokens (Login.id (au_login au)) agora)
    as (Htr & Hbearer & Hadm & Hlog & _).
  destruct (tokenLogin_partes (Login.id (au_login au)) agora Hagora)
    as (Hlen & Hts & Hid).
  unfold postValidarToken. rewrite extrairToken_cabecalho by done.
  rewrite Htr. cbn [negb]. rewrite Hadm, Hlog.
  rewrite bool_decide_eq_false_2 by lia. rewrite Hts, Hid.
  assert (expirado depois (Some agora) = false) as ->.
  { unfold expirado. apply Z.ltb_ge. lia. }
  apply list_find_Some in Hl as (Hi & _ & _).
  unfold getLogin, getAmbiente, loadDatabase.
  rewrite (list_find_chave Login.id _ _ _ Hnd Hi). cbn [fmap option_fmap option_map snd].
  rewrite Hat. cbn [negb]. rewrite Ha. cbn [fmap option_fmap option_map snd].
  rewrite Haa. cbn [negb].
  assert (match Login.perfilId (au_login au) with
          | Some pid => if Js.truthy pid then getPerfil pid disco else None
          | None => None
          end = au_perfil au) as ->.
  { rewrite Hperfil. unfold perfilDoLogin, getPerfil, loadDatabase.
    by destruct (Login.perfilId (au_login au)). }
  destruct (presente (Login.perfilId (au_login au))); [|done].
  destruct (au_perfil au) as [pf|]; [|done]. by rewrite Hpa.
Qed.

Lemma token_login_ida_e_volta_witness :
  postValidarToken 1700086400000 (Some "login-token-login-1700000000800-1700000000000")
    None None Casos.disco
  = TokenLogin "login-1700000000800"
      (mkLoginVisto "login-1700000000800" "Lia" "ambiente-1700000000500" (Some "perfil-1"))
      Casos.amb_loja (Some (Exemplos.perfil true))
      (Perfil.permissoes <$> Some (Exemplos.perfil true)).
Proof.
  apply (token_login_ida_e_volta 1700000000000 1700086400000 (usuariosIniciais 0)
           (Some "LIA") (Some "segredo") Casos.disco
           (mkLoginVisto "login-1700000000800" "Lia" "ambiente-1700000000500"
              (Some "perfil-1"))).
  - apply (bool_decide_unpack _). vm_compute. exact I.
  - lia.
  - vm_compute. discriminate.
  - vm_compute. reflexivity.
Defined.

(** X14. An admin token is valid for one day from the time written in
    it, whatever the store holds: [POST /validar-token] accepts the token
    [admin-token-t] when [t] is not more than a day before the clock, and
    answers that it has expired otherwise. *)
Theorem token_admin_validade agora t disco :
  postValidarToken agora (Some (tokenAdmin t)) None None disco
  = if umDia <? agora - t then TokenRecusado 401 "Token expirado" else TokenAdmin.
Proof.
  destruct (startsWith_tokens EmptyString t) as (_ & _ & _ & _ & Htr & Hbearer & Hadm).
  unfold postValidarToken. rewrite extrairToken_cabecalho by done.
  rewrite Htr. cbn [negb]. rewrite Hadm.
  unfold tokenAdmin. by rewrite removerPrimeira_prefixo, parseInt_numero.
Qed.

(** A token that nobody issued is accepted, also with a time in the
    future; a login token whose time is not a number is refused. *)
Example token_admin_exemplos :
  postValidarToken 1700000000000 (Some "Bearer admin-token-9999999999999") None None
    Exemplos.disco_vazio = TokenAdmin ∧
  postValidarToken 1700000000000 None (Some "admin-token-0x10") None Exemplos.disco_vazio
  = TokenRecusado 401 "Token expirado" ∧
  postValidarToken 1700000000000 None None (Some "login-token-login-1700000000800-ontem")
    Casos.disco = TokenRecusado 401 "Token expirado" ∧
  postValidarToken 1700000000000 None None (Some "login-token-1700000000000")
    Casos.disco = TokenRecusado 401 "Token inválido".
Proof. vm_compute. done. Qed.

End RotasToken.
(* ===================================================================== *)
(** ** The environment detector                                          *)
(* ===================================================================== *)

Section DetectorPortas.
Import Detector.

Lemma string_app_assoc (a b c : string) : (a +:+ b) +:+ c = a +:+ (b +:+ c).
Proof. induction a as [|x a IH]; [done|]. by rewrite !string_app_cons, IH. Qed.

Lemma rev_app_acumulado (a acc : string) :
  String.rev_app a acc = String.rev_app a EmptyString +:+ acc.
Proof.
  revert acc. induction a as [|c a IH]; intros acc; [done|]. cbn [String.rev_app].
  rewrite (IH (String c acc)), (IH (String c EmptyString)). by rewrite string_app_assoc.
Qed.

Lemma rev_app (a b : string) : String.rev (a +:+ b) = String.rev b +:+ String.rev a.
Proof.
  unfold String.rev.
  assert (∀ acc, String.rev_app (a +:+ b) acc = String.rev_app b (String.rev_app a acc)) as H.
  { induction a as [|c a IH]; intros acc; [done|]. rewrite string_app_cons. apply IH. }
  rewrite H. apply rev_app_acumulado.
Qed.

Lemma endsWith_app (a b : string) : Js.endsWith (a +:+ b) b = true.
Proof. unfold Js.endsWith. rewrite rev_app. apply startsWith_app. Qed.

(** The digits of a number, read back by the scan of [\d+]. *)
Lemma digitos_numero n (resto : string) :
  0 ≤ n →
  match resto with String c _ => digito c = None | EmptyString => True end →
  digitos None (Js.numero n +:+ resto) = (Some n, resto).
Proof.
  intros Hn Hresto.
  assert (∀ v, digitos (Some v) resto = (Some v, resto)) as Hfim.
  { intros v. destruct resto as [|c r]; [done|]. cbn [digitos]. by rewrite Hresto. }
  destruct n as [|p|p]; [|clear Hn|lia].
  - change (Js.numero 0 +:+ resto) with (String (pretty_N_char 0) resto).
    cbn [digitos]. rewrite digito_decimal by lia. apply Hfim.
  - rewrite numero_pos.
    rewrite <- pretty_N_go_app. change (EmptyString +:+ resto) with resto.
    destruct (ler_pretty_N_go digitos) with (x := N.pos p) (s := resto) (acc := @None Z)
      as [m Hm]; [|done|].
    + intros acc d s Hd. cbn [digitos]. by rewrite digito_decimal.
    + rewrite Hm. cbn [default]. rewrite Hfim. do 2 f_equal.
Qed.

Lemma extrairPorta_rota porta :
  0 ≤ porta → extrairPorta ("rota-" +:+ Js.numero porta +:+ ".producao") = Some porta.
Proof.
  intros Hp.
  assert (casaAqui ("rota-" +:+ Js.numero porta +:+ ".producao") = Some porta) as Hcasa.
  { unfold casaAqui.
    change ("rota-" +:+ Js.numero porta +:+ ".producao")
      with ("rota-" +:+ (Js.numero porta +:+ ".producao")).
    rewrite startsWith_app.
    change (semPrefixo 5 ("rota-" +:+ (Js.numero porta +:+ ".producao")))
      with (Js.numero porta +:+ ".producao").
    by rewrite digitos_numero. }
  change ("rota-" +:+ Js.numero porta +:+ ".producao")
    with (String "r" ("ota-" +:+ Js.numero porta +:+ ".producao")) in *.
  cbn [extrairPorta]. by rewrite Hcasa.
Qed.

(** X18. The directory name that [createAmbiente] gives an
    environment is one the detector reads back: for a port that is not
    negative and not 7000, [detectarAmbientesExistentes] reports a
    directory of the name [path] of the new record with the port of the
    record. *)
Theorem createAmbiente_detectarItem agora nome porta username password bancos filhos :
  0 ≤ porta → porta ≠ 7000 →
  let ambiente := Database.novoAmbiente agora nome porta username password bancos in
  ∃ d,
    detectarItem (Ambiente.path ambiente) (Some (Diretorio filhos)) = Some d ∧
    Detectado.porta d = Ambiente.porta ambiente ∧
    Detectado.path d = Ambiente.path ambiente ∧
    detectarAmbientesExistentes (Some [(Ambiente.path ambiente, Some (Diretorio filhos))])
    = [d].
Proof.
  intros Hp H7000 ambiente.
  assert (∃ d, detectarItem (Ambiente.path ambiente) (Some (Diretorio filhos)) = Some d ∧
               Detectado.porta d = porta ∧ Detectado.path d = Ambiente.path ambiente)
    as (d & Hd & Hporta & Hpath).
  { unfold detectarItem, ambiente.
    cbn [Database.novoAmbiente Ambiente.path].
    pose proof (extrairPorta_rota porta Hp) as Hex.
    change ("rota-" +:+ Js.numero porta +:+ ".producao")
      with ("rota-" +:+ (Js.numero porta +:+ ".producao")) in *.
    rewrite startsWith_app.
    assert (Js.endsWith ("rota-" +:+ (Js.numero porta +:+ ".producao")) ".producao" = true)
      as ->.
    { rewrite <- string_app_assoc. apply endsWith_app. }
    assert (String.eqb ("rota-" +:+ (Js.numero porta +:+ ".producao")) "rota-7000.producao"
            = false) as ->.
    { apply String.eqb_neq. intros Heq. rewrite Heq in Hex. by injection Hex as <-. }
    cbn [andb negb]. rewrite Hex.
    destruct (Z.eqb_spec porta 7000) as [|_]; [done|]. by eexists. }
  exists d. split_and!; [done..|].
  unfold detectarAmbientesExistentes. cbn [omap list_omap fst snd]. by rewrite Hd.
Qed.

Lemma createAmbiente_detectarItem_witness :
  let ambiente := Database.novoAmbiente 1700000003000 "Filial" 5020 "eva" "s3nha" ["v8"] in
  ∃ d,
    detectarItem (Ambiente.path ambiente) (Some (Diretorio [])) = Some d ∧
    Detectado.porta d = Ambiente.porta ambiente ∧
    Detectado.path d = Ambiente.path ambiente ∧
    detectarAmbientesExistentes (Some [(Ambiente.path ambiente, Some (Diretorio []))])
    = [d].
Proof.
  apply (createAmbiente_detectarItem 1700000003000 "Filial" 5020 "eva" "s3nha" ["v8"] []);
    lia.
Defined.

End DetectorPortas.

Section DetectorLista.
Import Detector.











(** The sample base directory: two environments listed out of order, the
    folder of the administration system, a file with the name of an
    environment, and a folder whose port is not written in digits. *)
Example detectarAmbientesExistentes_exemplo :
  Detectado.path <$>
    detectarAmbientesExistentes
      (Some [ ("rota-5010.producao", Some (Diretorio [("V8", Diretorio [])]));
              ("rota-7000.producao", Some (Diretorio []));
              ("rota-5005.producao", Some (Diretorio []));
              ("rota-6000.producao", Some (Arquivo "x"));
              ("rota-x.producao", Some (Diretorio []));
              ("rota-4000.teste", Some (Diretorio [])) ])
  = ["rota-5005.producao"; "rota-5010.producao"] ∧
  detectarAmbientesExistentes None = [].
Proof. vm_compute. done. Qed.

End DetectorLista.
(* ===================================================================== *)
(** ** The filter of [config.env] and the credential files, again        *)
(* ===================================================================== *)

Section FiltroConfigEnv.
Import Copia.

Lemma manterLinha_vazia regras : manterLinha regras EmptyString = true.
Proof. reflexivity. Qed.







(** A file that holds only lines of other banks is left empty; a line
    that starts with white space is judged once trimmed, and kept as it
    is. *)
Example filtrar_exemplos :
  (∀ regras, credenciaisPorBanco "V8" = Some regras →
     filtrar regras (Js.join Js.NL ["HUBCREDITO_USR=hub"; "PRECENÇABANK_LOGIN=x"])
     = EmptyString ∧
     filtrar regras (Js.join Js.NL ["  V8_USERNAME=a"; "  HUBCREDITO_USR=hub"; "OUTRA=1"])
     = "  V8_USERNAME=a") ∧
  (∀ regras, credenciaisPorBanco "hubcredito" = Some regras →
     filtrar regras (Js.join Js.NL ["V8_USERNAME=a"; "V8_API_URL=u"; "HUBCREDITO_USR=hub"])
     = Js.join Js.NL ["V8_API_URL=u"; "HUBCREDITO_USR=hub"]).
Proof. split; intros regras [= <-]; vm_compute; done. Qed.

End FiltroConfigEnv.

Section CredenciaisDuasVezes.
Import Credenciais.

(** The line of a field is the first to give the field a value. *)
Lemma gravarCampo_primeira k v (linhas : list string) :
  ∃ i, list_find (λ l, casaCampo k k l = true) (gravarCampo k k v linhas)
       = Some (i, linhaDoCampo k v).
Proof.
  unfold gravarCampo.
  destruct (list_find _ linhas) as [[i x]|] eqn:E.
  - exists i. eapply list_find_insert; [exact E|apply casaCampo_nova].
  - exists (length linhas). apply list_find_snoc; [done|apply casaCampo_nova].
Qed.

Lemma gravarCampo_repetida k v (linhas : list string) i :
  list_find (λ l, casaCampo k k l = true) linhas = Some (i, linhaDoCampo k v) →
  gravarCampo k k v linhas = linhas.
Proof.
  intros E. unfold gravarCampo. rewrite E.
  apply list_insert_id. by apply list_find_Some in E as (? & _).
Qed.

(** Writing another field leaves the first line of a field in place. *)
Lemma gravarCampo_outro_campo k v k' v' (linhas : list string) i :
  (∀ x, casaCampo k k x = true → casaCampo k' k' x = true → False) →
  list_find (λ l, casaCampo k k l = true) linhas = Some (i, linhaDoCampo k v) →
  list_find (λ l, casaCampo k k l = true) (gravarCampo k' k' v' linhas)
  = Some (i, linhaDoCampo k v).
Proof.
  intros Hdist E. unfold gravarCampo.
  destruct (list_find (λ l, casaCampo k' k' l = true) linhas) as [[j x]|] eqn:E'.
  - apply list_find_Some in E as (Hi & Hk & Hmin).
    apply list_find_Some in E' as (Hj & Hk' & _).
    assert (j ≠ i) as Hji.
    { intros ->. rewrite Hi in Hj. injection Hj as <-. by eapply Hdist. }
    apply list_find_Some. split_and!; [by rewrite list_lookup_insert_ne|done|].
    intros m y Hm Hlt Hy. destruct (decide (m = j)) as [->|Hmj].
    + rewrite list_lookup_insert_eq in Hm by by eapply lookup_lt_Some.
      injection Hm as <-. eapply Hdist; [exact Hy|apply casaCampo_nova].
    + rewrite list_lookup_insert_ne in Hm by done. by eapply Hmin.
  - by apply list_find_app_l.
Qed.

Lemma atualizarLinhas_sem_quebra campos credenciais (linhas : list string) :
  chavesDistintas campos = true →
  (∀ v, login credenciais = Some v → Js.includes v Js.nl = false) →
  (∀ v, senha credenciais = Some v → Js.includes v Js.nl = false) →
  linhas ≠ [] → Forall (λ l, Js.includes l Js.nl = false) linhas →
  let r := (atualizarLinhas campos credenciais linhas).1 in
  r ≠ [] ∧ Forall (λ l, Js.includes l Js.nl = false) r.
Proof.
  intros (Hkl & Hks & _ & _ & Hnl & Hns & _)%chavesDistintas_elim Hl Hs Hne Hall.
  unfold atualizarLinhas, fornecido. rewrite Hkl, Hks.
  destruct (login credenciais) as [vl|]; [destruct (Js.truthy vl)|];
    (destruct (senha credenciais) as [vs|]; [destruct (Js.truthy vs)|]);
    cbn [fst]; try done;
    repeat first [ split; [by apply gravarCampo_not_nil|]
                 | apply gravarCampo_sem_quebra; [done|by auto|] ]; done.
Qed.

(** The second of two equal updates changes nothing to the lines. *)
Lemma atualizarLinhas_duas_vezes campos credenciais (linhas : list string) :
  chavesDistintas campos = true →
  let r := atualizarLinhas campos credenciais linhas in
  atualizarLinhas campos credenciais r.1 = r.
Proof.
  intros (Hkl & Hks & _ & _ & _ & _ & Hdist)%chavesDistintas_elim.
  unfold atualizarLinhas. rewrite Hkl, Hks.
  destruct (fornecido (login credenciais)) as [vl|],
           (fornecido (senha credenciais)) as [vs|]; cbn [fst]; [| | |done].
  - destruct (gravarCampo_primeira (c_login campos) vl linhas) as [i Hi].
    destruct (gravarCampo_primeira (c_senha campos) vs
                (gravarCampo (c_login campos) (c_login campos) vl linhas)) as [j Hj].
    eapply (gravarCampo_outro_campo _ _ (c_senha campos) vs) in Hi; [|done].
    by rewrite (gravarCampo_repetida _ _ _ _ Hi), (gravarCampo_repetida _ _ _ _ Hj).
  - destruct (gravarCampo_primeira (c_login campos) vl linhas) as [i Hi].
    by rewrite (gravarCampo_repetida _ _ _ _ Hi).
  - destruct (gravarCampo_primeira (c_senha campos) vs linhas) as [j Hj].
    by rewrite (gravarCampo_repetida _ _ _ _ Hj).
Qed.

Lemma escrever_duas_vezes campos credenciais envContent novo :
  chavesDistintas campos = true →
  (∀ v, login credenciais = Some v → Js.includes v Js.nl = false) →
  (∀ v, senha credenciais = Some v → Js.includes v Js.nl = false) →
  escrever campos credenciais envContent = Some novo →
  escrever campos credenciais novo = Some novo.
Proof.
  intros Hch Hl Hs. unfold escrever.
  pose proof (atualizarLinhas_sem_quebra campos credenciais (Js.split Js.nl envContent)
                Hch Hl Hs (split_not_nil _ _) (split_Forall _ _)) as [Hne Hall].
  pose proof (atualizarLinhas_duas_vezes campos credenciais (Js.split Js.nl envContent) Hch)
    as Hduas.
  destruct (atualizarLinhas campos credenciais (Js.split Js.nl envContent))
    as [linhas atualizado]. cbn [fst] in *.
  destruct atualizado; [|done]. intros [= <-].
  by rewrite split_join, Hduas.
Qed.

(** X21. Updating the credentials of a bank twice with the same
    values, none of which holds a line break, gives the file of the first
    update: [atualizarCredenciaisBanco] called again on the file it has
    written succeeds and writes the same content. *)
Theorem atualizarCredenciaisBanco_duas_vezes ambiente validacao bancoId credenciais
    validarToken env novo :
  (∀ v, login credenciais = Some v → Js.includes v Js.nl = false) →
  (∀ v, senha credenciais = Some v → Js.includes v Js.nl = false) →
  atualizarCredenciaisBanco ambiente validacao bancoId credenciais validarToken env
    = (Some novo, None) →
  atualizarCredenciaisBanco ambiente validacao bancoId credenciais validarToken (Some novo)
    = (Some novo, None).
Proof.
  intros Hl Hs. unfold atualizarCredenciaisBanco.
  destruct ambiente as [a|]; [|done].
  destruct (negb _); [done|].
  destruct (if _ && _ && _ then _ else _) as [erro|]; [done|].
  destruct (mapeamentoCredenciais bancoId) as [campos|] eqn:Hm; [|done].
  destruct (escrever campos credenciais (default EmptyString env)) as [n|] eqn:He; [|done].
  intros [= ->]. change (default EmptyString (Some novo)) with novo.
  by rewrite (escrever_duas_vezes campos credenciais _ _
                (mapeamentoCredenciais_chaves _ _ Hm) Hl Hs He).
Qed.

Lemma atualizarCredenciaisBanco_duas_vezes_witness :
  let credenciais := mk (Some "novo") (Some "s3nha") in
  let novo :=
    Js.join Js.NL
      [ "# Configuração do Ambiente 5005"; "PORT=5005"; EmptyString;
        "V8_USERNAME=novo"; "HUBCREDITO_USR=hub"; "V8_USERNAME_BACKUP=x";
        "V8_PASSWORD=s3nha" ] in
  atualizarCredenciaisBanco (Some Exemplos.amb_qa) TokenValido "v8" credenciais true
    (Some novo) = (Some novo, None).
Proof.
  intros credenciais novo.
  apply (atualizarCredenciaisBanco_duas_vezes (Some Exemplos.amb_qa) TokenValido "v8"
           credenciais true (Some Exemplos.env_qa) novo).
  - intros v [= <-]. reflexivity.
  - intros v [= <-]. reflexivity.
  - vm_compute. reflexivity.
Defined.

(** A value with a line break in it: the second update writes another
    file than the first. *)
Example atualizarCredenciaisBanco_quebra_de_linha :
  let credenciais := mk (Some (Js.join Js.NL ["a"; "V8_USERNAME=b"])) None in
  let primeira := escrever Exemplos.campos_v8 credenciais "V8_USERNAME=x" in
  primeira = Some (Js.join Js.NL ["V8_USERNAME=a"; "V8_USERNAME=b"]) ∧
  (primeira ≫= escrever Exemplos.campos_v8 credenciais)
  = Some (Js.join Js.NL ["V8_USERNAME=a"; "V8_USERNAME=b"; "V8_USERNAME=b"]).
Proof. vm_compute. done. Qed.

End CredenciaisDuasVezes.

(* ===================================================================== *)
(** ** Bringing a bank into an environment that exists                   *)
(* ===================================================================== *)

Section SincroniaBanco.
Import Copia Sincronia.

(** *** The loop of the copy over a destination that exists *)




(** *** The cleaning, seen from the files of the tree *)




Lemma terminaEmConfigEnv_exato :
  terminaEmConfigEnv ["config"; "config.env"] = true.
Proof. reflexivity. Qed.



End SincroniaBanco.

Section SincroniaArquivos.
Import Copia Sincronia.

(** *** The copy over a destination that exists *)




End SincroniaArquivos.

Section SincroniaTeoremas.
Import Copia Sincronia.





(** The folder of the sample after the synchronisation: the files of the
    environment that the template does not have are still there, beside the
    files of the template. *)
Example sincronizarBanco_pasta_antiga :
  sincronizarBanco (Some Exemplos.amb_qa) "v8" (Some Exemplos.pasta_v8)
    (Some Casos.pasta_v8_antiga)
  = (Some (Diretorio
             [ ("ajustes.json", Arquivo "{}");
               ("config",
                Diretorio [("config.env",
                            Arquivo (Js.join Js.NL ["# V8"; "V8_USERNAME=modelo"; "PORT=4000"]))]);
               ("src", Diretorio [ ("app.js", Arquivo "app"); ("local.js", Arquivo "l");
                                   ("rotas", Diretorio [("clt.js", Arquivo "clt")]) ]);
               ("index.js", Arquivo "require('./src/app')") ]),
     None) ∧
  sincronizarBanco (Some Exemplos.amb_qa) "hubcredito" (Some Exemplos.pasta_v8)
    (Some Casos.pasta_v8_antiga)
  = (Some Casos.pasta_v8_antiga, Some BancoNaoPermitido).
Proof. split; vm_compute; reflexivity. Qed.



(** The credential file of the environment is filtered also when the
    template has none. *)
Example sincronizarBanco_config_so_no_destino :
  (sincronizarBanco (Some Exemplos.amb_qa) "v8"
     (Some (Diretorio [("index.js", Arquivo "i")])) (Some Casos.pasta_v8_antiga)).1
    ≫= resolver ["config"; "config.env"]
  = Some (Arquivo "V8_USERNAME=loja").
Proof. vm_compute. reflexivity. Qed.

End SincroniaTeoremas.

Section EstruturaDoAmbiente.
Import Copia Sincronia.

(** *** The loops of [criarEstruturaAmbiente] *)

(** A loop keeps the entries the environment has, and each entry it adds
    is the copy of a folder of the test environment into a new directory. *)
Lemma copiarPastas_entradas teste pastas : ∀ ds ds' s,
  copiarPastas teste pastas ds = (ds', s) →
  (∀ nome x, Fs.buscar nome ds = Some x → Fs.buscar nome ds' = Some x) ∧
  (∀ nome x, Fs.buscar nome ds' = Some x →
     Fs.buscar nome ds = Some x
     ∨ ∃ bancoId origem,
         (nome, bancoId) ∈ pastas ∧ Fs.buscar nome teste = Some origem ∧
         Fs.buscar nome ds = None ∧ x = (copiar bancoId origem None).1).
Proof.
  induction pastas as [|[pasta bancoId] resto IH]; intros ds ds' s; cbn [copiarPastas].
  { intros [= <- <-]. split; [done|]. intros nome x Hx. by left. }
  assert (copiarPastas teste resto ds = (ds', s) →
          (∀ nome x, Fs.buscar nome ds = Some x → Fs.buscar nome ds' = Some x) ∧
          (∀ nome x, Fs.buscar nome ds' = Some x →
             Fs.buscar nome ds = Some x
             ∨ ∃ b origem,
                 (nome, b) ∈ (pasta, bancoId) :: resto ∧ Fs.buscar nome teste = Some origem ∧
                 Fs.buscar nome ds = None ∧ x = (copiar b origem None).1)) as Hsegue.
  { intros H. destruct (IH _ _ _ H) as [Hfica Hvem]. split; [done|].
    intros nome x Hx. destruct (Hvem nome x Hx) as [?|(b & o & Hin & ?)]; [by left|].
    right. exists b, o. split; [by apply list_elem_of_further|done]. }
  destruct (Fs.buscar pasta teste) as [origem|] eqn:Et; [|done].
  destruct (Fs.buscar pasta ds) as [y|] eqn:Ed; [done|].
  destruct (copiar bancoId origem None) as [destino s1] eqn:Ec.
  assert (∀ nome, nome ≠ pasta →
            Fs.buscar nome (definir pasta destino ds) = Fs.buscar nome ds) as Houtro.
  { intros nome Hne. by apply buscar_definir_outro. }
  assert (∀ nome x, Fs.buscar nome ds = Some x → nome ≠ pasta) as Hne.
  { intros nome x Hx ->. congruence. }
  assert (∀ nome x, Fs.buscar nome (definir pasta destino ds) = Some x →
            Fs.buscar nome ds = Some x
            ∨ ∃ b o, (nome, b) ∈ (pasta, bancoId) :: resto ∧ Fs.buscar nome teste = Some o ∧
                     Fs.buscar nome ds = None ∧ x = (copiar b o None).1) as Hnovo.
  { intros nome x Hx. destruct (decide (nome = pasta)) as [->|Hn].
    - rewrite buscar_definir in Hx. injection Hx as <-. right.
      exists bancoId, origem. rewrite Ec. split; [apply list_elem_of_here|done].
    - left. by rewrite Houtro in Hx. }
  destruct s1 as [v|e].
  - intros H. destruct (IH _ _ _ H) as [Hfica Hvem]. split.
    + intros nome x Hx. apply Hfica. rewrite Houtro; [done|by apply (Hne nome x)].
    + intros nome x Hx. destruct (Hvem nome x Hx) as [Hd|(b & o & Hin & Ho & Hnone & ->)].
      * by apply Hnovo.
      * right. exists b, o. split; [by apply list_elem_of_further|]. split; [done|].
        split; [|done]. destruct (decide (nome = pasta)) as [->|Hn].
        -- by rewrite buscar_definir in Hnone.
        -- by rewrite Houtro in Hnone.
  - intros [= <- <-]. split; [|done].
    intros nome x Hx. rewrite Houtro; [done|by apply (Hne nome x)].
Qed.

(** After a loop that returns, the environment has every folder to
    bring that the test environment has. *)
Lemma copiarPastas_completo teste pastas : ∀ ds ds' v,
  copiarPastas teste pastas ds = (ds', Retornou v) →
  ∀ pasta bancoId, (pasta, bancoId) ∈ pastas →
    is_Some (Fs.buscar pasta teste) → is_Some (Fs.buscar pasta ds').
Proof.
  induction pastas as [|[p b] resto IH]; intros ds ds' v H pasta bancoId Hin Ht.
  { by apply elem_of_nil in Hin. }
  pose proof (copiarPastas_entradas teste ((p, b) :: resto) ds ds' _ H) as [Hfica _].
  cbn [copiarPastas] in H.
  apply elem_of_cons in Hin as [[= -> ->]|Hin].
  - destruct Ht as [o Ho]. rewrite Ho in H.
    destruct (Fs.buscar p ds) as [y|] eqn:Ed; [by rewrite (Hfica p y Ed)|].
    destruct (copiar b o None) as [destino [v1|e]] eqn:Ec; [|done].
    pose proof (copiarPastas_entradas teste resto _ ds' _ H) as [Hfica' _].
    rewrite (Hfica' p destino); [done|]. apply buscar_definir.
  - destruct (Fs.buscar p teste) as [o|]; [|by apply (IH _ _ _ H pasta bancoId)].
    destruct (Fs.buscar p ds) as [y|]; [by apply (IH _ _ _ H pasta bancoId)|].
    destruct (copiar b o None) as [destino [v1|e]]; [|done].
    by apply (IH _ _ _ H pasta bancoId).
Qed.

(** A loop with nothing to bring changes nothing. *)
Lemma copiarPastas_nada teste pastas ds :
  (∀ pasta bancoId, (pasta, bancoId) ∈ pastas →
     is_Some (Fs.buscar pasta teste) → is_Some (Fs.buscar pasta ds)) →
  copiarPastas teste pastas ds = (ds, Retornou true).
Proof.
  induction pastas as [|[p b] resto IH]; intros Htem; [done|].
  cbn [copiarPastas].
  assert (copiarPastas teste resto ds = (ds, Retornou true)) as Hresto.
  { apply IH. intros pasta bancoId Hin. apply (Htem pasta bancoId).
    by apply list_elem_of_further. }
  destruct (Fs.buscar p teste) as [o|] eqn:Et; [|done].
  destruct (Htem p b (list_elem_of_here _ _)) as [y ->]; [by rewrite Et|done].
Qed.

(** X24. [criarEstruturaAmbiente] overwrites nothing: every entry
    that the directory of the environment has is left as it is, and each
    entry it adds is the first [.env], or the copy into a new directory of
    the folder of a permitted bank or of a shared folder of the test
    environment. *)
Theorem criarEstruturaAmbiente_entradas porta bancosPermitidos teste ds :
  ∃ ds' s,
    criarEstruturaAmbiente porta bancosPermitidos teste (Some (Diretorio ds))
      = (Diretorio ds', s) ∧
    (∀ nome x, Fs.buscar nome ds = Some x → Fs.buscar nome ds' = Some x) ∧
    (∀ nome x, Fs.buscar nome ds' = Some x →
       Fs.buscar nome ds = Some x
       ∨ (Fs.buscar nome ds = None ∧
          (nome = ".env" ∧ x = Arquivo (envInicial porta)
           ∨ ∃ origem,
               Fs.buscar nome teste = Some origem ∧
               ((∃ bancoId, bancoId ∈ bancosPermitidos ∧ nome = nomePastaBanco bancoId ∧
                            x = (copiar (Some bancoId) origem None).1)
                ∨ (nome ∈ compartilhados ∧ x = (copiar None origem None).1))))).
Proof.
  unfold criarEstruturaAmbiente. cbn [default from_option id].
  set (ds1 := if Fs.existsSync ds ".env" then ds
              else definir ".env" (Arquivo (envInicial porta)) ds).
  assert ((∀ nome x, Fs.buscar nome ds = Some x → Fs.buscar nome ds1 = Some x) ∧
          (∀ nome x, Fs.buscar nome ds1 = Some x →
             Fs.buscar nome ds = Some x
             ∨ (Fs.buscar nome ds = None ∧ nome = ".env" ∧ x = Arquivo (envInicial porta))))
    as [Hfica1 Hvem1].
  { unfold ds1, Fs.existsSync. destruct (Fs.buscar ".env" ds) as [y|] eqn:Ee.
    { split; [done|]. intros nome x Hx. by left. }
    split.
    - intros nome x Hx. rewrite buscar_definir_outro; [done|]. intros ->. congruence.
    - intros nome x Hx. destruct (decide (nome = ".env")) as [->|Hn].
      + rewrite buscar_definir in Hx. injection Hx as <-. by right.
      + left. by rewrite buscar_definir_outro in Hx. }
  destruct (copiarPastas teste _ ds1) as [ds2 s2] eqn:E2.
  destruct (copiarPastas_entradas _ _ _ _ _ E2) as [Hfica2 Hvem2].
  assert (∀ nome x, Fs.buscar nome ds2 = Some x →
            Fs.buscar nome ds = Some x
            ∨ (Fs.buscar nome ds = None ∧
               (nome = ".env" ∧ x = Arquivo (envInicial porta)
                ∨ ∃ origem,
                    Fs.buscar nome teste = Some origem ∧
                    ((∃ bancoId, bancoId ∈ bancosPermitidos ∧ nome = nomePastaBanco bancoId ∧
                                 x = (copiar (Some bancoId) origem None).1)
                     ∨ (nome ∈ compartilhados ∧ x = (copiar None origem None).1))))) as Hate2.
  { intros nome x Hx. destruct (Hvem2 nome x Hx) as [H1|(b & o & Hin & Ho & Hnone & ->)].
    - destruct (Hvem1 nome x H1) as [?|(? & ? & ?)]; [by left|right]. split; [done|by left].
    - right. split.
      + destruct (Fs.buscar nome ds) as [y|] eqn:Ey; [|done].
        by rewrite (Hfica1 nome y Ey) in Hnone.
      + right. exists o. split; [done|]. left.
        apply list_elem_of_In, in_map_iff in Hin as (bancoId & [= <- <-] & Hb).
        exists bancoId. split; [by apply list_elem_of_In|done]. }
  destruct s2 as [v2|e2].
  2:{ exists ds2, (Lancou e2). split; [done|]. split; [|done].
      intros nome x Hx. by apply Hfica2, Hfica1. }
  destruct (copiarPastas teste _ ds2) as [ds3 s3] eqn:E3.
  destruct (copiarPastas_entradas _ _ _ _ _ E3) as [Hfica3 Hvem3].
  exists ds3, (match s3 with Lancou e => Lancou e | Retornou _ => Retornou true end).
  split; [by destruct s3|]. split.
  - intros nome x Hx. by apply Hfica3, Hfica2, Hfica1.
  - intros nome x Hx. destruct (Hvem3 nome x Hx) as [H2|(b & o & Hin & Ho & Hnone & ->)].
    + by apply Hate2.
    + right. split.
      * destruct (Fs.buscar nome ds) as [y|] eqn:Ey; [|done].
        by rewrite (Hfica2 nome y (Hfica1 nome y Ey)) in Hnone.
      * right. exists o. split; [done|]. right.
        apply list_elem_of_In, in_map_iff in Hin as (item & [= <- <-] & Hi).
        split; [by apply list_elem_of_In|done].
Qed.

(** X25. When [criarEstruturaAmbiente] returns, the environment has
    a [.env] and, for each permitted bank and each shared folder that the
    test environment has, a folder of that name; and calling it again, with
    any port and the same banks, changes nothing. *)
Theorem criarEstruturaAmbiente_duas_vezes porta bancosPermitidos teste ambiente ambiente' v :
  criarEstruturaAmbiente porta bancosPermitidos teste ambiente = (ambiente', Retornou v) →
  ∃ ds',
    ambiente' = Diretorio ds' ∧
    Fs.existsSync ds' ".env" = true ∧
    (∀ bancoId, bancoId ∈ bancosPermitidos →
       Fs.existsSync teste (nomePastaBanco bancoId) = true →
       Fs.existsSync ds' (nomePastaBanco bancoId) = true) ∧
    (∀ item, item ∈ compartilhados →
       Fs.existsSync teste item = true → Fs.existsSync ds' item = true) ∧
    ∀ outraPorta,
      criarEstruturaAmbiente outraPorta bancosPermitidos teste (Some ambiente')
      = (ambiente', Retornou true).
Proof.
  unfold criarEstruturaAmbiente.
  destruct (default (Diretorio []) ambiente) as [c|ds]; [done|].
  set (ds1 := if Fs.existsSync ds ".env" then ds
              else definir ".env" (Arquivo (envInicial porta)) ds).
  assert (is_Some (Fs.buscar ".env" ds1)) as Henv1.
  { unfold ds1, Fs.existsSync. destruct (Fs.buscar ".env" ds) as [y|] eqn:Ee; [by eexists|].
    rewrite buscar_definir. by eexists. }
  destruct (copiarPastas teste _ ds1) as [ds2 [v2|e2]] eqn:E2; [|done].
  destruct (copiarPastas teste _ ds2) as [ds3 [v3|e3]] eqn:E3; [|done].
  intros [= <- _]. exists ds3. split; [done|].
  destruct (copiarPastas_entradas _ _ _ _ _ E2) as [Hfica2 _].
  destruct (copiarPastas_entradas _ _ _ _ _ E3) as [Hfica3 _].
  assert (∀ nome, is_Some (Fs.buscar nome ds2) → is_Some (Fs.buscar nome ds3)) as H23.
  { intros nome [y Hy]. rewrite (Hfica3 nome y Hy). by eexists. }
  assert (∀ nome, is_Some (Fs.buscar nome ds1) → is_Some (Fs.buscar nome ds2)) as H12.
  { intros nome [y Hy]. rewrite (Hfica2 nome y Hy). by eexists. }
  assert (∀ ds nome, Fs.existsSync ds nome = true ↔ is_Some (Fs.buscar nome ds)) as Hex.
  { intros l nome. unfold Fs.existsSync.
    destruct (Fs.buscar nome l) as [y|]; split; intros H;
      [by eexists|done|done|by destruct H]. }
  assert (∀ pasta bancoId,
            (pasta, bancoId) ∈ map (λ b, (nomePastaBanco b, Some b)) bancosPermitidos →
            is_Some (Fs.buscar pasta teste) → is_Some (Fs.buscar pasta ds3)) as Hbancos.
  { intros pasta b Hin Ht. apply H23. by apply (copiarPastas_completo _ _ _ _ _ E2 pasta b). }
  assert (∀ pasta bancoId,
            (pasta, bancoId) ∈ map (λ item, (item, @None string)) compartilhados →
            is_Some (Fs.buscar pasta teste) → is_Some (Fs.buscar pasta ds3)) as Hcomp.
  { intros pasta b Hin Ht. by apply (copiarPastas_completo _ _ _ _ _ E3 pasta b). }
  split_and!.
  - apply Hex. by apply H23, H12.
  - intros bancoId Hb Ht. apply Hex. apply (Hbancos _ (Some bancoId)); [|by apply Hex].
    apply list_elem_of_In, in_map_iff. exists bancoId. split; [done|by apply list_elem_of_In].
  - intros item Hi Ht. apply Hex. apply (Hcomp _ None); [|by apply Hex].
    apply list_elem_of_In, in_map_iff. exists item. split; [done|by apply list_elem_of_In].
  - intros outraPorta. cbn [default from_option id].
    replace (Fs.existsSync ds3 ".env") with true by (symmetry; apply Hex; by apply H23, H12).
    by rewrite (copiarPastas_nada _ _ _ Hbancos), (copiarPastas_nada _ _ _ Hcomp).
Qed.

Lemma criarEstruturaAmbiente_duas_vezes_witness :
  let ambiente' := (criarEstruturaAmbiente 5010 ["v8"; "hubcredito"] Casos.teste None).1 in
  ∃ ds',
    ambiente' = Diretorio ds' ∧
    Fs.existsSync ds' ".env" = true ∧
    (∀ bancoId, bancoId ∈ ["v8"; "hubcredito"] →
       Fs.existsSync Casos.teste (nomePastaBanco bancoId) = true →
       Fs.existsSync ds' (nomePastaBanco bancoId) = true) ∧
    (∀ item, item ∈ compartilhados →
       Fs.existsSync Casos.teste item = true → Fs.existsSync ds' item = true) ∧
    ∀ outraPorta,
      criarEstruturaAmbiente outraPorta ["v8"; "hubcredito"] Casos.teste (Some ambiente')
      = (ambiente', Retornou true).
Proof.
  apply (criarEstruturaAmbiente_duas_vezes 5010 ["v8"; "hubcredito"] Casos.teste None _ true).
  vm_compute. reflexivity.
Defined.

(** A new environment for the banks [v8] and [hubcredito], from a test
    environment that has only the first: the [.env] with the port, the
    folder of the bank without its excluded entries and with its credential
    file filtered, and the shared folder. An environment path that holds a
    file makes the call throw. *)
Example criarEstruturaAmbiente_novo :
  criarEstruturaAmbiente 5010 ["v8"; "hubcredito"] Casos.teste None
  = (Diretorio
       [ (".env",
          Arquivo (Js.join Js.NL
                     ["# Configuração do Ambiente 5010"; "PORT=5010"; EmptyString;
                      EmptyString]));
         ("V8",
          Diretorio
            [ ("index.js", Arquivo "require('./src/app')");
              ("config",
               Diretorio [("config.env",
                           Arquivo (Js.join Js.NL ["# V8"; "V8_USERNAME=modelo"; "PORT=4000"]))]);
              ("src", Diretorio [ ("app.js", Arquivo "app");
                                  ("rotas", Diretorio [("clt.js", Arquivo "clt")]) ]) ]);
         ("shared", Diretorio [("util.js", Arquivo "u")]) ],
     Retornou true) ∧
  criarEstruturaAmbiente 5010 ["v8"] Casos.teste (Some (Arquivo "x"))
  = (Arquivo "x", Lancou "ENOTDIR").
Proof. split; vm_compute; reflexivity. Qed.

End EstruturaDoAmbiente.
